(** * pyFDA numeric core: FFT window library and Chebyshev-II designer

    A shallow embedding of

    - [pyfda/libs/pyfda_fft_windows_lib.py]: the window dictionary,
      [set_window_name], [get_window], the cosine-sum windows and the
      parameter update of [QFFTWinSelector];
    - [pyFDA/filter_design/cheby2.py]: the eight design methods of the
      class [cheby2].

    Conventions of the embedding.

    - A float is an [npfloat]: a real number, or one of the IEEE special
      values [+inf], [-inf], [nan].  Rounding, overflow and the sign of
      zero are not modelled; division follows numpy (no exception, a
      special value instead).
    - A Python exception is a value of [exn]; code that can raise returns
      a [res].
    - scipy, importlib and the sibling modules of pyfda are not part of
      the embedded sources: they are taken as an [environment] (window
      library) or as external calls of a program tree (filter designer).
    - The number of points of a window is a natural number, and a window
      function returns an array of floats or [None], or raises; the keys
      of a window dictionary are compared as byte strings. *)

From Stdlib Require Import Reals Lra Lia ZArith String Ascii List Bool.
From stdpp Require Import base option list gmap strings sorting.

Set Default Proof Using "Type".

(** ** Exceptions and results *)

Inductive exn :=
| KeyError (key : string)
| IndexError
| TypeError
| AttributeError
| ValueError
| ImportError (module : string)
| OtherError (msg : string).

Inductive res (A : Type) :=
| Ok (a : A)
| Raise (e : exn).
Arguments Ok {A} a.
Arguments Raise {A} e.

Definition res_bind {A B} (r : res A) (f : A -> res B) : res B :=
  match r with
  | Ok a => f a
  | Raise e => Raise e
  end.

(** ** Floats as numpy sees them *)

Module Np.
Local Open Scope R_scope.

Inductive npfloat :=
| Fin (r : R)
| PInf
| NInf
| NaN.

Definition is_fin (x : npfloat) : Prop :=
  match x with Fin _ => True | _ => False end.

Definition np_neg (x : npfloat) : npfloat :=
  match x with
  | Fin r => Fin (- r)
  | PInf => NInf
  | NInf => PInf
  | NaN => NaN
  end.

Definition np_add (x y : npfloat) : npfloat :=
  match x, y with
  | NaN, _ | _, NaN => NaN
  | Fin a, Fin b => Fin (a + b)
  | PInf, NInf | NInf, PInf => NaN
  | PInf, _ | _, PInf => PInf
  | NInf, _ | _, NInf => NInf
  end.

(** [inf * r] for a finite [r]: the sign of [r] decides, [inf * 0] is nan. *)
Definition inf_times (pos : bool) (r : R) : npfloat :=
  if Req_dec_T r 0 then NaN
  else if Rlt_dec 0 r then (if pos then PInf else NInf)
       else (if pos then NInf else PInf).

Definition np_mul (x y : npfloat) : npfloat :=
  match x, y with
  | NaN, _ | _, NaN => NaN
  | Fin a, Fin b => Fin (a * b)
  | PInf, Fin r | Fin r, PInf => inf_times true r
  | NInf, Fin r | Fin r, NInf => inf_times false r
  | PInf, PInf | NInf, NInf => PInf
  | PInf, NInf | NInf, PInf => NInf
  end.

(** numpy division: [0/0] is nan, [a/0] is a signed infinity, a finite
    value over an infinity is zero, no exception in any case. *)
Definition np_div (x y : npfloat) : npfloat :=
  match x, y with
  | NaN, _ | _, NaN => NaN
  | Fin a, Fin b =>
      if Req_dec_T b 0 then
        (if Req_dec_T a 0 then NaN
         else if Rlt_dec 0 a then PInf else NInf)
      else Fin (a / b)
  | Fin _, _ => Fin 0
  | PInf, Fin b => if Rlt_dec b 0 then NInf else PInf
  | NInf, Fin b => if Rlt_dec b 0 then PInf else NInf
  | _, _ => NaN
  end.

Definition np_square (x : npfloat) : npfloat := np_mul x x.

Definition np_cos (x : npfloat) : npfloat :=
  match x with
  | Fin r => Fin (cos r)
  | _ => NaN
  end.

(** Python's [<] on floats: false as soon as one side is nan. *)
Definition np_ltb (x y : npfloat) : bool :=
  match x, y with
  | NaN, _ | _, NaN => false
  | Fin a, Fin b => if Rlt_dec a b then true else false
  | NInf, NInf | PInf, PInf => false
  | NInf, _ | _, PInf => true
  | _, _ => false
  end.

(** A numpy value: a 0-d scalar (or a Python float) or a 1-d array. *)
Inductive ndarray :=
| Scalar (x : npfloat)
| Array (l : list npfloat).

Definition nd_map (f : npfloat -> npfloat) (u : ndarray) : ndarray :=
  match u with
  | Scalar x => Scalar (f x)
  | Array l => Array (map f l)
  end.

(** Broadcasting of an elementwise binary operation over scalars and 1-d
    arrays: equal lengths go pointwise, a length-one array is stretched,
    any other pair of lengths raises [ValueError]. *)
Definition broadcast2 (f : npfloat -> npfloat -> npfloat)
    (u v : ndarray) : res ndarray :=
  match u, v with
  | Scalar a, Scalar b => Ok (Scalar (f a b))
  | Scalar a, Array l => Ok (Array (map (f a) l))
  | Array l, Scalar b => Ok (Array (map (fun x => f x b) l))
  | Array l1, Array l2 =>
      if Nat.eqb (length l1) (length l2) then Ok (Array (zip_with f l1 l2))
      else match l1, l2 with
           | [a], _ => Ok (Array (map (f a) l2))
           | _, [b] => Ok (Array (map (fun x => f x b) l1))
           | _, _ => Raise ValueError
           end
  end.

(** Array-with-scalar forms, which cannot fail. *)
Definition nd_mul_s (u : ndarray) (c : npfloat) : ndarray :=
  nd_map (fun x => np_mul x c) u.
Definition nd_s_mul (c : npfloat) (u : ndarray) : ndarray :=
  nd_map (fun x => np_mul c x) u.
Definition nd_div_s (u : ndarray) (c : npfloat) : ndarray :=
  nd_map (fun x => np_div x c) u.

Definition nd_add : ndarray -> ndarray -> res ndarray := broadcast2 np_add.

Definition sum_list (l : list npfloat) : npfloat :=
  fold_left np_add l (Fin 0).

(** [np.sum]: full reduction, a scalar is its own sum. *)
Definition nd_sum (u : ndarray) : npfloat :=
  match u with
  | Scalar x => x
  | Array l => sum_list l
  end.

Definition nd_square : ndarray -> ndarray := nd_map np_square.

(** [np.arange(N)] and [np.ones(N)]. *)
Definition arange (N : nat) : ndarray :=
  Array (map (fun n => Fin (INR n)) (seq 0 N)).
Definition ones (N : nat) : ndarray := Array (repeat (Fin 1) N).

(** [len(w)]: a 0-d value has no length. *)
Definition nd_len (u : ndarray) : res nat :=
  match u with
  | Scalar _ => Raise TypeError
  | Array l => Ok (length l)
  end.

(** The largest finite and the smallest normal binary64 number.  The
    model computes in the reals; a product or quotient by 2 is exact in
    binary64 as long as it neither overflows nor leaves the normal
    range, and statements about exact doubling and halving are made
    within these bounds. *)
Definition float_max : R := (2 ^ 53 - 1) * 2 ^ 971.
Definition float_min_normal : R := / 2 ^ 1022.

(** The sum of a list of reals, for statements about finite arrays. *)
Definition Rsum (rs : list R) : R := fold_left Rplus rs 0.

End Np.
Export Np.

(** ** Cosine-sum windows ([calc_cosine_window] and its presets) *)

Module CosineSum.
Local Open Scope R_scope.

(** The body of [for k in range(1, len(a)): win += a[k] * np.cos(k*x)],
    entered at index [k] with the remaining coefficients [ak]. *)
Fixpoint cosine_loop (x : ndarray) (k : nat) (ak : list npfloat)
    (win : ndarray) : res ndarray :=
  match ak with
  | [] => Ok win
  | c :: rest =>
      res_bind (nd_add win (nd_s_mul c (nd_map np_cos (nd_s_mul (Fin (INR k)) x))))
               (fun win' => cosine_loop x (S k) rest win')
  end.

Definition period_length (N : nat) (sym : bool) : Z :=
  if sym then (Z.of_nat N - 1)%Z else Z.of_nat N.

Definition calc_cosine_window (N : nat) (sym : bool) (a : list npfloat)
    : res ndarray :=
  let L := period_length N sym in
  let x := nd_div_s (nd_mul_s (nd_mul_s (arange N) (Fin 2)) (Fin PI))
                    (Fin (IZR L)) in
  match a with
  | [] => Raise IndexError
  | a0 :: rest => cosine_loop x 1 rest (Scalar a0)
  end.

Definition a_blackmanharris5 : list npfloat :=
  [ Fin 3.232153788877343e-001;
    Fin (-4.714921439576260e-001);
    Fin 1.755341299601972e-001;
    Fin (-2.849699010614994e-002);
    Fin 1.261357088292677e-003 ].

Definition a_blackmanharris7 : list npfloat :=
  [ Fin 2.712203605850388e-001;
    Fin (-4.334446123274422e-001);
    Fin 2.180041228929303e-001;
    Fin (-6.578534329560609e-002);
    Fin 1.076186730534183e-002;
    Fin (-7.700127105808265e-004);
    Fin 1.368088305992921e-005 ].

Definition a_blackmanharris9 : list npfloat :=
  [ Fin 2.384331152777942e-001;
    Fin (-4.005545348643820e-001);
    Fin 2.358242530472107e-001;
    Fin (-9.527918858383112e-002);
    Fin 2.537395516617152e-002;
    Fin (-4.152432907505835e-003);
    Fin 3.685604163298180e-004;
    Fin (-1.384355593917030e-005);
    Fin 1.161808358932861e-007 ].

Definition blackmanharris5 (N : nat) (sym : bool) : res ndarray :=
  calc_cosine_window N sym a_blackmanharris5.
Definition blackmanharris7 (N : nat) (sym : bool) : res ndarray :=
  calc_cosine_window N sym a_blackmanharris7.
Definition blackmanharris9 (N : nat) (sym : bool) : res ndarray :=
  calc_cosine_window N sym a_blackmanharris9.

(** The window as the specification words it: sample [n] is
    [a[0] + sum_{j=1..k} a[j] * cos(j * x[n])] with [x[n] = n * 2 pi / L]. *)
Definition x_spec (N : nat) (sym : bool) (n : nat) : npfloat :=
  np_div (Fin (INR n * 2 * PI)) (Fin (IZR (period_length N sym))).

Fixpoint cosine_terms (j : nat) (aj : list npfloat) (xn : npfloat)
    : list npfloat :=
  match aj with
  | [] => []
  | c :: rest => np_mul c (np_cos (np_mul (Fin (INR j)) xn))
                 :: cosine_terms (S j) rest xn
  end.

Definition w_spec (N : nat) (sym : bool) (a : list npfloat) (n : nat)
    : npfloat :=
  match a with
  | [] => NaN
  | a0 :: rest => fold_left np_add (cosine_terms 1 rest (x_spec N sym n)) a0
  end.

(** The terms [a_j * cos (j * x)] over the reals, for finite
    coefficients and a finite sample point. *)
Fixpoint real_terms (j : nat) (aj : list R) (x : R) : list R :=
  match aj with
  | [] => []
  | c :: rest => c * cos (INR j * x) :: real_terms (S j) rest x
  end.

(** [ultraspherical].  [eval_gegenbauer] stands for
    [scipy.special.eval_gegenbauer] on an integer order and two floats.
    The length [L] that the function derives from [sym] is not used in
    what follows it. *)
Definition ultraspherical
    (eval_gegenbauer : nat -> npfloat -> npfloat -> npfloat)
    (N : nat) (alpha x_0 : npfloat) (sym : bool) : ndarray :=
  let L := period_length N sym in
  let w0 := eval_gegenbauer N alpha x_0 in
  Array (map (fun n =>
                fold_left
                  (fun w k =>
                     np_add w
                       (np_mul
                          (eval_gegenbauer N alpha
                             (np_mul x_0
                                (np_cos (Fin (INR k * PI / INR (N + 1))))))
                          (np_cos (Fin (2 * INR n * PI * INR k / INR (N + 1))))))
                  (seq 1 (N / 2)) w0)
             (seq 0 N)).

End CosineSum.
Export CosineSum.

(** ** The window dictionary ([pyfda_fft_windows_lib]) *)

Module Windows.

(** A window function object.  The three presets are functions of this
    module; every other object is known only by the module and attribute
    it was fetched from. *)
Inductive fnct :=
| fn_blackmanharris5
| fn_blackmanharris7
| fn_blackmanharris9
| fn_ext (module : string) (attr : string).

(** One record of a ['par'] list. *)
Record param := mk_param {
  par_name : string;
  par_val : npfloat;
  par_min : npfloat;
  par_max : npfloat;
}.

(** A window sub-dictionary.  A field is [None] while its key is absent;
    ['win_fnct'] can be present and hold Python's [None]. *)
Record entry := mk_entry {
  fn_name : option string;
  par : option (list param);
  win_fnct : option (option fnct);
  n_par : option nat;
  nenbw : option npfloat;
  cgain : option npfloat;
}.

(** Values found under the keys of a window dictionary: the current name
    (a string), the cached window, or a window sub-dictionary. *)
Inductive value :=
| VStr (s : string)
| VWin (w : ndarray)
| VEntry (e : entry).

(** What the diagnostics sink ([logger]) receives. *)
Inductive level := Info | Warning | Error.

Inductive message :=
| Ignoring_window_name (name : string)
| Unknown_window_name (name : string)
| No_window_function_in_scipy (fn : string)
| Found_no_valid_window_function (fn : string)
| Dpss
| Parameters_not_supported (n : nat)
| Error_calculating_window (fn : string) (e : exn)
| Falling_back_to_rectangular.

(** Observable effects, oldest first: a log record or the invocation of a
    window function with its positional arguments and [sym]. *)
Inductive event :=
| Log (l : level) (m : message)
| Call (f : fnct) (N : nat) (args : list npfloat) (sym : bool).

(** What a called window function does: it returns an array of floats
    (or [None]), or raises.  A function that returns something else (an
    integer array, a list), on which the in-place division of
    [get_window] raises, is outside the model. *)
Inductive gen_result :=
| Returns (w : option ndarray)
| Raises (e : exn).

(** The part of the Python process that is not in the embedded sources. *)
Record environment := mk_env {
  (** [getattr(sig.windows, name, None)] is a usable object *)
  sig_windows_has : string -> bool;
  (** [importlib.import_module(m)]: [None] when the import raises,
      otherwise which attributes [getattr(mod, name, None)] finds *)
  import_module : string -> option (string -> bool);
  (** calling [getattr(m, name)(N, *args, sym=sym)] *)
  call_ext : string -> string -> nat -> list npfloat -> bool -> gen_result;
}.

Record state := mk_state {
  win_dict : gmap string value;
  trace : list event;
}.

(** State and exception monad: mutations made before a raise persist. *)
Definition M (A : Type) : Type := state -> res A * state.

Definition ret {A} (a : A) : M A := fun s => (Ok a, s).
Definition raise {A} (e : exn) : M A := fun s => (Raise e, s).
Definition bind {A B} (m : M A) (f : A -> M B) : M B :=
  fun s => match m s with
           | (Ok a, s') => f a s'
           | (Raise e, s') => (Raise e, s')
           end.
Definition lift {A} (r : res A) : M A := fun s => (r, s).
Definition get_dict : M (gmap string value) := fun s => (Ok (win_dict s), s).
Definition put_dict (d : gmap string value) : M unit :=
  fun s => (Ok tt, mk_state d (trace s)).
Definition emit (e : event) : M unit :=
  fun s => (Ok tt, mk_state (win_dict s) (trace s ++ [e])).
Definition log (l : level) (m : message) : M unit := emit (Log l m).

(** [try: m except Exception as e: h e]; every exception of the model
    is an instance of [Exception]. *)
Definition try_except {A} (m : M A) (h : exn -> M A) : M A :=
  fun s => match m s with
           | (Ok a, s') => (Ok a, s')
           | (Raise e, s') => h e s'
           end.

Declare Scope M_scope.
Delimit Scope M_scope with M.
Notation "x <- m ;; k" := (bind m (fun x => k))
  (at level 100, m at next level, right associativity) : M_scope.
Notation "m ;;; k" := (bind m (fun _ => k))
  (at level 100, right associativity) : M_scope.
Local Open Scope M_scope.

(** *** Dictionary access *)

(** [win_dict[key]] *)
Definition dict_get (key : string) : M value :=
  d <- get_dict ;;
  match d !! key with
  | Some v => ret v
  | None => raise (KeyError key)
  end.

(** [win_dict[key]] used as a sub-dictionary: subscripting a string or
    the stored window with a string is an error ([TypeError] for a
    string or a list; an array raises [IndexError], which the model does
    not tell apart). *)
Definition as_entry (v : value) : res entry :=
  match v with
  | VEntry e => Ok e
  | _ => Raise TypeError
  end.

Definition entry_get (key : string) : M entry :=
  v <- dict_get key ;; lift (as_entry v).

(** [d[field]] for an optional field of a sub-dictionary *)
Definition field {A} (name : string) (o : option A) : res A :=
  match o with
  | Some a => Ok a
  | None => Raise (KeyError name)
  end.

(** [win_dict[key].update(...)]: the key must exist; a string or a list
    has no method [update]. *)
Definition as_updatable (v : value) : res entry :=
  match v with
  | VEntry e => Ok e
  | _ => Raise AttributeError
  end.

Definition entry_update (key : string) (f : entry -> entry) : M unit :=
  v <- dict_get key ;;
  e <- lift (as_updatable v) ;;
  d <- get_dict ;;
  put_dict (<[ key := VEntry (f e) ]> d).

(** [win_dict.update({key: v})] *)
Definition dict_set (key : string) (v : value) : M unit :=
  d <- get_dict ;; put_dict (<[ key := v ]> d).

(** *** Names of window functions *)

Definition this_module : string := "pyfda.libs.pyfda_fft_windows_lib".
Definition scipy_signal_windows : string := "scipy.signal.windows".

Definition dot : ascii := "."%char.

(** [fn_name.rfind(".")] and the two slices around it: [None] when the
    name has no dot, otherwise the module part and the function part. *)
Fixpoint rsplit_dot (s : string) : option (string * string) :=
  match s with
  | EmptyString => None
  | String c rest =>
      match rsplit_dot rest with
      | Some (m, f) => Some (String c m, f)
      | None => if Ascii.eqb c dot then Some (EmptyString, rest) else None
      end
  end.

(** *** The catalogue [all_windows_dict] *)

Definition window (fn : string) (ps : option (list param)) : value :=
  VEntry (mk_entry (Some fn) ps None None None None).

Definition num (r : R) : npfloat := Fin r.

(** Only the keys the functions read are kept (['info'], ['props'],
    ['name_tex'] and ['tooltip'] are documentation). *)
Definition all_windows_list : list (string * value) :=
  [ ("cur_win_name", VStr "Rectangular");
    ("Boxcar", window "boxcar" None);
    ("Rectangular", window "boxcar" None);
    ("Barthann", window "barthann" None);
    ("Bartlett", window "bartlett" None);
    ("Blackman", window "blackman" None);
    ("Blackmanharris", window "blackmanharris" None);
    ("Blackmanharris_5",
       window "pyfda.libs.pyfda_fft_windows_lib.blackmanharris5" None);
    ("Blackmanharris_7",
       window "pyfda.libs.pyfda_fft_windows_lib.blackmanharris7" None);
    ("Blackmanharris_9",
       window "pyfda.libs.pyfda_fft_windows_lib.blackmanharris9" None);
    ("Bohman", window "bohman" None);
    ("Cosine", window "cosine" None);
    ("Dolph-Chebyshev",
       window "chebwin" (Some [mk_param "a" (num 80) (num 45) (num 300)]));
    ("DPSS", window "dpss" (Some [mk_param "NW" (num 3) (num 0) (num 100)]));
    ("Flattop", window "flattop" None);
    ("General Gaussian",
       window "general_gaussian"
         (Some [mk_param "p" (num 1.5) (num 0) (num 20);
                mk_param "&sigma;" (num 5) (num 0) (num 100)]));
    ("Gauss",
       window "gaussian" (Some [mk_param "&sigma;" (num 5) (num 0) (num 100)]));
    ("Hamming", window "hamming" None);
    ("Hann", window "hann" None);
    ("Kaiser",
       window "kaiser" (Some [mk_param "&beta;" (num 10) (num 0) (num 30)]));
    ("Nuttall", window "nuttall" None);
    ("Parzen", window "parzen" None);
    ("Slepian",
       window "slepian" (Some [mk_param "BW" (num 0.3) (num 0) (num 100)]));
    ("Triangular", window "triang" None);
    ("Tukey",
       window "tukey" (Some [mk_param "&alpha;" (num 0.25) (num 0) (num 1)])) ].

Definition all_windows_dict : gmap string value :=
  list_to_map all_windows_list.

(** *** [get_valid_windows_list] *)

(** The string holds ASCII characters only. *)
Definition ascii_only (s : string) : bool :=
  forallb (fun c => Nat.ltb (nat_of_ascii c) 128) (list_ascii_of_string s).

(** [v.lower()] for ASCII strings: the letters A-Z become a-z.  Python
    also changes the capital letters outside ASCII, which the model
    leaves as they are; what is stated about the order of the result is
    stated for ASCII keys. *)
Definition lower_ascii (c : ascii) : ascii :=
  let n := nat_of_ascii c in
  if (65 <=? n)%nat && (n <=? 90)%nat then ascii_of_nat (n + 32) else c.

Fixpoint lower (s : string) : string :=
  match s with
  | EmptyString => EmptyString
  | String c rest => String (lower_ascii c) (lower rest)
  end.

(** The order of [sorted(wl, key=lambda v: (v.lower(), v))] *)
Definition key_le (a b : string) : Prop :=
  match String.compare (lower a) (lower b) with
  | Lt => True
  | Gt => False
  | Eq => Is_true (String.leb a b)
  end.

#[global] Instance key_le_dec (a b : string) : Decision (key_le a b) :=
  match String.compare (lower a) (lower b) as c
        return Decision (match c with
                         | Lt => True
                         | Gt => False
                         | Eq => Is_true (String.leb a b)
                         end) with
  | Lt => left I
  | Gt => right (fun f => f)
  | Eq => decide (Is_true (String.leb a b))
  end.

(** [type(win_dict[k]) == dict and "fn_name" in win_dict[k]] *)
Definition is_window (v : value) : bool :=
  match v with
  | VEntry e => bool_decide (is_Some (fn_name e))
  | _ => false
  end.

Fixpoint warn_ignored (names wl : list string) : M unit :=
  match names with
  | [] => ret tt
  | wn :: rest =>
      (if bool_decide (wn ∈ wl) then ret tt
       else log Warning (Ignoring_window_name wn)) ;;;
      warn_ignored rest wl
  end.

Definition get_valid_windows_list (win_names_list : list string)
    (win_dict : gmap string value) : M (list string) :=
  let win_dict := if bool_decide (win_dict = ∅) then all_windows_dict
                  else win_dict in
  let valid := map fst (filter (fun kv => Is_true (is_window (snd kv)))
                               (map_to_list win_dict)) in
  match win_names_list with
  | [] => ret (merge_sort key_le valid)
  | _ =>
      let wl := filter (fun k => k ∈ win_names_list) valid in
      warn_ignored win_names_list wl ;;;
      ret (merge_sort key_le wl)
  end.

Section WithEnvironment.
Variable env : environment.

(** [getattr(sig.windows, fnct, None)] *)
Definition getattr_sig_windows (name : string) : option fnct :=
  if sig_windows_has env name then Some (fn_ext scipy_signal_windows name)
  else None.

(** [getattr(importlib.import_module(mod_name), fnct, None)]; this module
    is always importable and holds the three presets. *)
Definition getattr_module (mod_name name : string) : res (option fnct) :=
  if String.eqb mod_name this_module then
    if String.eqb name "blackmanharris5" then Ok (Some fn_blackmanharris5)
    else if String.eqb name "blackmanharris7" then Ok (Some fn_blackmanharris7)
    else if String.eqb name "blackmanharris9" then Ok (Some fn_blackmanharris9)
    else match import_module env mod_name with
         | Some has => Ok (if has name then Some (fn_ext mod_name name) else None)
         | None => Ok None
         end
  else
    match import_module env mod_name with
    | Some has => Ok (if has name then Some (fn_ext mod_name name) else None)
    | None => Raise (ImportError mod_name)
    end.

(** Calling a window function as [f(N, *args, sym=sym)].  The presets
    take [N] and [sym] only: one more positional argument collides with
    the keyword [sym]. *)
Definition preset_call (r : res ndarray) : gen_result :=
  match r with
  | Ok w => Returns (Some w)
  | Raise e => Raises e
  end.

Definition apply_fnct (f : fnct) (N : nat) (args : list npfloat)
    (sym : bool) : gen_result :=
  match f, args with
  | fn_blackmanharris5, [] => preset_call (blackmanharris5 N sym)
  | fn_blackmanharris7, [] => preset_call (blackmanharris7 N sym)
  | fn_blackmanharris9, [] => preset_call (blackmanharris9 N sym)
  | fn_ext m a, _ => call_ext env m a N args sym
  | _, _ => Raises TypeError
  end.

(** A call is observable, then the function answers; calling Python's
    [None] is a type error. *)
Definition call (f : option fnct) (N : nat) (args : list npfloat)
    (sym : bool) : M (option ndarray) :=
  match f with
  | None => raise TypeError
  | Some f =>
      emit (Call f N args sym) ;;;
      match apply_fnct f N args sym with
      | Returns w => ret w
      | Raises e => raise e
      end
  end.

(** *** [set_window_name] *)

(** The fallback of both branches of the lookup: scipy's [boxcar] under
    the name "Rectangular", without parameters. *)
Definition rectangular_instead : option fnct * string * nat :=
  (getattr_sig_windows "boxcar", "Rectangular", 0).

(** The lookup of the function object: a name without a dot is sought in
    [scipy.signal.windows], a dotted name in the module it names. *)
Definition lookup_fnct (fn win_name : string) (n_par0 : nat)
    : M (option fnct * string * nat) :=
  match rsplit_dot fn with
  | None =>
      match getattr_sig_windows fn with
      | Some f => ret (Some f, win_name, n_par0)
      | None =>
          log Error (No_window_function_in_scipy fn) ;;;
          ret rectangular_instead
      end
  | Some (mod_name, fnct_name) =>
      o <- lift (getattr_module mod_name fnct_name) ;;
      match o with
      | Some f => ret (Some f, win_name, n_par0)
      | None =>
          log Error (Found_no_valid_window_function fn) ;;;
          ret rectangular_instead
      end
  end.

(** The two [update] calls that end [set_window_name]. *)
Definition store_selection (win_fnct' : option fnct) (win_name : string)
    (n_par' : nat) : M unit :=
  dict_set "cur_win_name" (VStr win_name) ;;;
  dict_set "win" (VWin (Array [])) ;;;
  entry_update win_name
    (fun e => mk_entry (fn_name e) (par e) (Some win_fnct') (Some n_par')
                       (nenbw e) (cgain e)).

(** [if win_name not in win_dict]: the name that is looked up is the
    given one, or "Rectangular" with a warning. *)
Definition known_or_rectangular (d0 : gmap string value) (win_name : string)
    : M string :=
  if decide (is_Some (d0 !! win_name)) then ret win_name
  else log Warning (Unknown_window_name win_name) ;;; ret "Rectangular".

Definition set_window_name (win_name : string) : M (option fnct) :=
  d0 <- get_dict ;;
  win_name <- known_or_rectangular d0 win_name ;;
  d <- entry_get win_name ;;
  fn <- lift (field "fn_name" (fn_name d)) ;;
  let n_par0 := match par d with Some ps => length ps | None => 0 end in
  r <- lookup_fnct fn win_name n_par0 ;;
  let '(win_fnct', win_name, n_par') := r in
  store_selection win_fnct' win_name n_par' ;;;
  ret win_fnct'.

(** *** [get_windows_dict] *)

(** The new dictionary becomes the dictionary of the state.  It is
    built from the catalogue as it is written in the source; in Python
    its sub-dictionaries are the catalogue's own objects, so that what an
    earlier use of another dictionary has written into them (parameter
    values, ['win_fnct'], ['n_par'], ['nenbw'], ['cgain']) shows here,
    while keys and ['fn_name'] never change.  The model takes the
    catalogue of a fresh interpreter. *)
Definition get_windows_dict (win_names_list : list string)
    (cur_win_name : string) : M unit :=
  names <- get_valid_windows_list win_names_list ∅ ;;
  put_dict (list_to_map
              (omap (fun k => pair k <$> all_windows_dict !! k) names)) ;;;
  set_window_name cur_win_name ;;;
  ret tt.

(** *** [get_window] *)

(** [win_dict[win_name]['par'][i]['val']] *)
Definition par_val_at (e : entry) (i : nat) : res npfloat :=
  res_bind (field "par" (par e)) (fun ps =>
  match ps !! i with
  | Some p => Ok (par_val p)
  | None => Raise IndexError
  end).

(** The body of the [try] block. *)
Definition generate (e : entry) (win_fnct' : option fnct) (fn : string)
    (n_par' : nat) (N : nat) (sym : bool) : M (option ndarray) :=
  if String.eqb fn "dpss" then
    log Info Dpss ;;;
    p0 <- lift (par_val_at e 0) ;;
    call (Some (fn_ext scipy_signal_windows "dpss")) N [p0] sym
  else match n_par' with
       | 0 => call win_fnct' N [] sym
       | 1 => p0 <- lift (par_val_at e 0) ;;
              call win_fnct' N [p0] sym
       | 2 => p0 <- lift (par_val_at e 0) ;;
              p1 <- lift (par_val_at e 1) ;;
              call win_fnct' N [p0; p1] sym
       | _ => log Error (Parameters_not_supported n_par') ;;;
              ret None
       end.

(** Everything after the cache test: look the function up, generate,
    fall back, take the statistics, normalize and store.  The number of
    points is a natural number and the array is one of floats, so that
    [np.ones(N)] and [w /= cgain], which stand after the [try] block, do
    not raise; a negative [N] or an array of integers is outside the
    model. *)
Definition compute_window (N : nat) (win_name : string) (sym : bool)
    : M ndarray :=
  e <- entry_get win_name ;;
  win_fnct' <- lift (field "win_fnct" (win_fnct e)) ;;
  fn <- lift (field "fn_name" (fn_name e)) ;;
  n_par' <- lift (field "n_par" (n_par e)) ;;
  w <- try_except (generate e win_fnct' fn n_par' N sym)
         (fun ex => log Error (Error_calculating_window fn ex) ;;; ret None) ;;
  w <- match w with
       | Some w => ret w
       | None => log Warning Falling_back_to_rectangular ;;; ret (ones N)
       end ;;
  let nenbw' := np_div (np_mul (Fin (INR N)) (nd_sum (nd_square w)))
                       (np_square (nd_sum w)) in
  let cgain' := np_div (nd_sum w) (Fin (INR N)) in
  entry_update win_name
    (fun e => mk_entry (fn_name e) (par e) (win_fnct e) (n_par e)
                       (Some nenbw') (Some cgain')) ;;;
  let w := nd_div_s w cgain' in
  dict_set "win" (VWin w) ;;;
  ret w.

Definition as_str (v : value) : res string :=
  match v with
  | VStr s => Ok s
  | _ => Raise TypeError
  end.

Definition as_win (v : value) : res ndarray :=
  match v with
  | VWin w => Ok w
  | _ => Raise TypeError
  end.

(** [win_name == win_dict['cur_win_name']]: only a string can be equal
    to a string. *)
Definition is_name (name : string) (v : value) : bool :=
  match v with
  | VStr c => String.eqb name c
  | _ => false
  end.

(** [win_name] is [None] for the default argument.  The key ['win']
    holds the empty list or an array; the current name is needed as a
    key only when the stored window does not serve the request. *)
Definition get_window (N : nat) (win_name : option string) (sym : bool)
    : M ndarray :=
  other <- match win_name with
           | None => ret None
           | Some name =>
               v <- dict_get "cur_win_name" ;;
               ret (if is_name name v then None else Some name)
           end ;;
  match other with
  | Some name => compute_window N name sym
  | None =>
      v <- dict_get "cur_win_name" ;;
      c <- dict_get "win" ;;
      w <- lift (as_win c) ;;
      len <- lift (nd_len w) ;;
      if Nat.eqb len N then ret w
      else name <- lift (as_str v) ;;
           compute_window N name sym
  end.

(** *** [QFFTWinSelector.update_win_params] *)

(** The clamp of one line edit. *)
Definition clamp (x lo hi : npfloat) : npfloat :=
  if np_ltb x lo then lo
  else if np_ltb hi x then hi
  else x.

(** [win_dict[cur]['par'][i]['val'] = v] *)
Definition set_par_val (cur : string) (i : nat) (v : npfloat) : M unit :=
  e <- entry_get cur ;;
  ps <- lift (field "par" (par e)) ;;
  match ps !! i with
  | None => raise IndexError
  | Some p =>
      entry_update cur
        (fun e => mk_entry (fn_name e)
                    (Some (<[ i := mk_param (par_name p) v (par_min p) (par_max p) ]> ps))
                    (win_fnct e) (n_par e) (nenbw e) (cgain e))
  end.

(** One of the two [if n_par > i] blocks.  [led] is what [safe_eval]
    makes of the text of the line edit, given the fallback value. *)
Definition update_one_param (cur : string) (i : nat)
    (led : npfloat -> npfloat) : M unit :=
  e <- entry_get cur ;;
  n <- lift (field "n_par" (n_par e)) ;;
  if Nat.ltb i n then
    ps <- lift (field "par" (par e)) ;;
    match ps !! i with
    | None => raise IndexError
    | Some p =>
        set_par_val cur i (clamp (led (par_val p)) (par_min p) (par_max p))
    end
  else ret tt.

(** The widget texts are shown again and a signal is sent afterwards;
    both are outside the dictionary and not part of the state. *)
Definition update_win_params (led_win_par_1 led_win_par_2 : npfloat -> npfloat)
    : M unit :=
  v <- dict_get "cur_win_name" ;;
  cur <- lift (as_str v) ;;
  set_window_name cur ;;;
  update_one_param cur 1 led_win_par_2 ;;;
  update_one_param cur 0 led_win_par_1.

End WithEnvironment.

(** *** Vocabulary of the statements, a test double and example states *)

(** The statistics that [get_window] takes on the array [w] before it
    normalizes it. *)
Definition cgain_of (N : nat) (w : ndarray) : npfloat :=
  np_div (nd_sum w) (Fin (INR N)).
Definition nenbw_of (N : nat) (w : ndarray) : npfloat :=
  np_div (np_mul (Fin (INR N)) (nd_sum (nd_square w))) (np_square (nd_sum w)).
Definition with_stats (N : nat) (w : ndarray) (e : entry) : entry :=
  mk_entry (fn_name e) (par e) (win_fnct e) (n_par e)
           (Some (nenbw_of N w)) (Some (cgain_of N w)).

(** The event is the invocation of a window function. *)
Definition is_call (ev : event) : bool :=
  match ev with
  | Call _ _ _ _ => true
  | Log _ _ => false
  end.

(** The events [t] hold at most one invocation of a window function,
    and that one is for [N] points with the flag [sym]. *)
Definition at_most_one_call (N : nat) (sym : bool) (t : list event) : Prop :=
  length (filter (fun ev => Is_true (is_call ev)) t) <= 1
  /\ forall g N' args sym', Call g N' args sym' ∈ t -> N' = N /\ sym' = sym.

(** The coefficient list of a preset of this module. *)
Definition preset_coefficients (f : fnct) : option (list npfloat) :=
  match f with
  | fn_blackmanharris5 => Some a_blackmanharris5
  | fn_blackmanharris7 => Some a_blackmanharris7
  | fn_blackmanharris9 => Some a_blackmanharris9
  | fn_ext _ _ => None
  end.

(** The request [req] for [N] points is not served from the stored
    window but computed, for the family [name]: it names a family other
    than the current one, or it is for the current family and the stored
    window has another length. *)
Definition misses_cache (s : state) (N : nat) (req : option string)
    (name : string) : Prop :=
  exists cur,
    win_dict s !! "cur_win_name" = Some (VStr cur)
    /\ ((req = Some name /\ name <> cur)
        \/ ((req = None \/ req = Some name) /\ cur = name
            /\ exists c, win_dict s !! "win" = Some (VWin (Array c))
                         /\ length c <> N)).

(** What the [try] block and the fallback leave: the array to normalize
    and the log records written on the way. *)
Definition settle (fn : string) (N : nat) (r : res (option ndarray))
    : ndarray * list event :=
  match r with
  | Ok (Some w) => (w, [])
  | Ok None => (ones N, [Log Warning Falling_back_to_rectangular])
  | Raise ex => (ones N, [Log Error (Error_calculating_window fn ex);
                          Log Warning Falling_back_to_rectangular])
  end.

(** [get_window] for [N] points computes in the state [s], whose current
    family is [wn]: whatever family the request names (the current one
    by default), the try block is run on the entry of that family, and
    the array it gives (or the rectangular fallback) is normalized,
    returned and stored, with its statistics in the entry and the log
    records of the run in the log. *)
Definition computes_anew (env : environment) (s : state) (wn : string)
    (N : nat) : Prop :=
  forall (req : option string) (sym : bool) (e : entry) (f : option fnct)
         (fn : string) (n : nat) (r : res (option ndarray)) (s1 : state),
    win_dict s !! default wn req = Some (VEntry e) ->
    win_fnct e = Some f -> fn_name e = Some fn -> n_par e = Some n ->
    generate env e f fn n N sym s = (r, s1) ->
    get_window env N req sym s
    = (Ok (nd_div_s (fst (settle fn N r)) (cgain_of N (fst (settle fn N r)))),
       mk_state
         (<[ "win" := VWin (nd_div_s (fst (settle fn N r))
                                     (cgain_of N (fst (settle fn N r)))) ]>
            (<[ default wn req := VEntry (with_stats N (fst (settle fn N r)) e) ]>
               (win_dict s)))
         (trace s1 ++ snd (settle fn N r))).

(** The names that [scipy.signal.windows] exports. *)
Definition scipy_windows_names : list string :=
  [ "boxcar"; "triang"; "parzen"; "bohman"; "blackman"; "nuttall";
    "blackmanharris"; "flattop"; "bartlett"; "barthann"; "hamming";
    "kaiser"; "kaiser_bessel_derived"; "gaussian"; "general_cosine";
    "general_gaussian"; "general_hamming"; "chebwin"; "cosine"; "hann";
    "exponential"; "tukey"; "taylor"; "dpss"; "get_window"; "lanczos" ].

(** A stand-in for scipy that hands back its positional arguments, padded
    with ones to length [N]: [boxcar] is as in scipy, a generator with
    parameters shows which values it was given. *)
Definition test_double : environment :=
  mk_env (fun name => bool_decide (name ∈ scipy_windows_names))
         (fun _ => None)
         (fun _ _ N args _ =>
            Returns (Some (Array (args ++ repeat (Fin 1%R) (N - length args))))).

Definition empty_state : state := mk_state ∅ [].

(** The dictionary of a view that offers the 5-term Blackman-Harris
    window only, as [get_windows_dict] builds it. *)
Definition bh5_state : state :=
  snd (get_windows_dict test_double ["Blackmanharris_5"] "Blackmanharris_5"
         empty_state).

Definition bh5_name : string :=
  "pyfda.libs.pyfda_fft_windows_lib.blackmanharris5".

Definition bh5_entry : entry :=
  mk_entry (Some bh5_name) None (Some (Some fn_blackmanharris5)) (Some 0%nat)
           None None.

(** A dictionary with one user-defined window of three parameters, after
    [set_window_name]. *)
Definition three_par : list param :=
  [ mk_param "a" (Fin 1%R) (Fin 0%R) (Fin 2%R);
    mk_param "b" (Fin 1%R) (Fin 0%R) (Fin 2%R);
    mk_param "c" (Fin 1%R) (Fin 0%R) (Fin 2%R) ].

Definition custom_state : state :=
  snd (set_window_name test_double "Custom"
         (mk_state (<[ "Custom" := window "boxcar" (Some three_par) ]> ∅) [])).

Definition custom_entry : entry :=
  mk_entry (Some "boxcar") (Some three_par)
           (Some (Some (fn_ext scipy_signal_windows "boxcar"))) (Some 3%nat)
           None None.

(** The dictionary of a view that offers the rectangular window only. *)
Definition rect_state : state :=
  snd (get_windows_dict test_double ["Rectangular"] "Rectangular" empty_state).

Definition rect_entry : entry :=
  mk_entry (Some "boxcar") None
           (Some (Some (fn_ext scipy_signal_windows "boxcar"))) (Some 0%nat)
           None None.

(** A dictionary that holds a stored window of length 2. *)
Definition cached_state : state :=
  mk_state (<[ "win" := VWin (Array [Fin 1%R; Fin 1%R]) ]> (win_dict rect_state)) [].

(** A view with the rectangular and the 5-term Blackman-Harris window,
    the latter selected first, the former afterwards. *)
Definition both_state : state :=
  snd ((get_windows_dict test_double ["Rectangular"; "Blackmanharris_5"]
          "Blackmanharris_5" ;;;
        set_window_name test_double "Rectangular") empty_state).

(** The dictionary [both_state] after
    [get_window(d, 1, "Blackmanharris_5", sym=True)]. *)
Definition stale_state : state :=
  mk_state
    (<[ "win" := VWin (Array [NaN]) ]>
       (<[ "Blackmanharris_5" := VEntry (with_stats 1 (Array [NaN]) bh5_entry) ]>
          (win_dict both_state)))
    (trace both_state ++ [Call fn_blackmanharris5 1 [] true]).

(** The dictionary [bh5_state] after [get_window(d, 1, sym=True)]. *)
Definition sym_state : state :=
  mk_state
    (<[ "win" := VWin (Array [NaN]) ]>
       (<[ "Blackmanharris_5" := VEntry (with_stats 1 (Array [NaN]) bh5_entry) ]>
          (win_dict bh5_state)))
    (trace bh5_state ++ [Call fn_blackmanharris5 1 [] true]).

(** The entry and the dictionary that [set_window_name] leaves when it
    selects the family [wn] with function object [f] and [n] parameters. *)
Definition selected (f : option fnct) (n : nat) (e : entry) : entry :=
  mk_entry (fn_name e) (par e) (Some f) (Some n) (nenbw e) (cgain e).

Definition selection_dict (d : gmap string value) (wn : string)
    (f : option fnct) (n : nat) (e : entry) : gmap string value :=
  <[ wn := VEntry (selected f n e) ]>
    (<[ "win" := VWin (Array []) ]> (<[ "cur_win_name" := VStr wn ]> d)).

(** The entry after the line edit of parameter [i] has been read. *)
Definition with_clamped (i : nat) (led : npfloat -> npfloat) (ps : list param)
    (p : param) (e : entry) : entry :=
  mk_entry (fn_name e)
    (Some (<[ i := mk_param (par_name p)
                     (clamp (led (par_val p)) (par_min p) (par_max p))
                     (par_min p) (par_max p) ]> ps))
    (win_fnct e) (n_par e) (nenbw e) (cgain e).

(** [importlib.import_module] finds the module of a dotted function name. *)
Definition importable (env : environment) (fn : string) : Prop :=
  forall m a, rsplit_dot fn = Some (m, a) ->
              exists o, getattr_module env m a = Ok o.

(** The test double with every sample multiplied by 2. *)
Definition doubled_double : environment :=
  mk_env (sig_windows_has test_double) (import_module test_double)
         (fun _ _ N args _ =>
            Returns (Some (Array (map (fun x => np_mul (Fin 2%R) x)
                                      (args ++ repeat (Fin 1%R) (N - length args)))))).

(** A dictionary that holds the Slepian window only; recent versions of
    scipy have no [slepian], and neither has the test double. *)
Definition slepian_state : state :=
  mk_state (<[ "Slepian" := window "slepian"
                 (Some [mk_param "BW" (num 0.3) (num 0) (num 100)]) ]> ∅) [].

Definition slepian_entry : entry :=
  mk_entry (Some "slepian") (Some [mk_param "BW" (num 0.3) (num 0) (num 100)])
           None None None None.

(** The same dictionary with the rectangular window beside it. *)
Definition slepian_rect_state : state :=
  mk_state (<[ "Rectangular" := window "boxcar" None ]> (win_dict slepian_state)) [].

(** How the lookup of the function object for the name [fn] fails, and
    the record that is logged then. *)
Definition function_missing (env : environment) (fn : string) (m : message)
    : Prop :=
  (rsplit_dot fn = None /\ sig_windows_has env fn = false
   /\ m = No_window_function_in_scipy fn)
  \/ (exists mo a, rsplit_dot fn = Some (mo, a)
                   /\ getattr_module env mo a = Ok None
                   /\ m = Found_no_valid_window_function fn).

(** The lookup of the function object for the name [fn] finds [g]. *)
Definition function_found (env : environment) (fn : string) (g : fnct)
    : Prop :=
  (rsplit_dot fn = None /\ getattr_sig_windows env fn = Some g)
  \/ (exists mo a, rsplit_dot fn = Some (mo, a)
                   /\ getattr_module env mo a = Ok (Some g)).

(** The dictionary of a view that offers the Hann window only. *)
Definition hann_state : state :=
  snd (get_windows_dict test_double ["Hann"] "Hann" empty_state).

(** The value that [update_win_params] stores for a parameter. *)
Definition clamped (led : npfloat -> npfloat) (p : param) : param :=
  mk_param (par_name p) (clamp (led (par_val p)) (par_min p) (par_max p))
           (par_min p) (par_max p).

(** The dictionary of a view that offers the Kaiser window only. *)
Definition kaiser_state : state :=
  snd (get_windows_dict test_double ["Kaiser"] "Kaiser" empty_state).

Definition kaiser_par (beta : R) : param :=
  mk_param "&beta;" (Fin beta) (Fin 0%R) (Fin 30%R).

Definition kaiser_fn : fnct := fn_ext scipy_signal_windows "kaiser".

Definition kaiser_entry (beta : R) : entry :=
  mk_entry (Some "kaiser") (Some [kaiser_par beta]) (Some (Some kaiser_fn))
           (Some 1%nat) None None.

(** The same dictionary after the caller has stored [beta] himself:
    [win_dict["Kaiser"]["par"][0]["val"] = beta]. *)
Definition kaiser_with (beta : R) : state :=
  snd (set_par_val "Kaiser" 0 (Fin beta) kaiser_state).

End Windows.

(** ** The Chebyshev-II designer ([cheby2.py]) *)

Module Cheby2.

(** The keys of the filter dictionary that the class reads or writes;
    the dictionary of pyfda always holds them. *)
Record fil_dict := mk_fil_dict {
  N : Z;
  F_PB : npfloat;
  F_SB : npfloat;
  F_PB2 : npfloat;
  F_SB2 : npfloat;
  A_PB : npfloat;
  A_SB : npfloat;
  A_PB2 : npfloat;
  A_SB2 : npfloat;
}.

(** The instance attributes that [get_params] sets. *)
Record self := mk_self {
  self_N : Z;
  self_F_PB : npfloat;
  self_F_SB : npfloat;
  self_F_PB2 : npfloat;
  self_F_SB2 : npfloat;
  self_F_SBC : option ndarray;
  self_A_PB : npfloat;
  self_A_SB : npfloat;
  self_A_PB2 : npfloat;
  self_A_SB2 : npfloat;
}.

(** Numerator and denominator polynomials (output format ['ba']). *)
Definition coeffs : Type := list npfloat * list npfloat.

Definition frmt : string := "ba".

(** The routines of scipy and of [pyfda_lib] that the class calls, with
    the type of what each returns.  [save_fil] works on the dictionary in
    place: its answer is the dictionary as it leaves it. *)
Inductive ext : Type -> Type :=
| cheb2ord (wp ws : ndarray) (gpass gstop : npfloat) : ext (Z * ndarray)
| sig_cheby2 (N : Z) (rs : npfloat) (Wn : ndarray) (btype : string)
    (analog : bool) (output : string) : ext coeffs
| save_fil (fd : fil_dict) (arg : coeffs) (format_in sender : string)
    : ext fil_dict.

(** A method body: it returns, raises, or calls an external routine and
    goes on with the answer. *)
Inductive prog (A : Type) : Type :=
| Ret (a : A)
| Throw (e : exn)
| Vis {X : Type} (c : ext X) (k : X -> prog A).
Arguments Ret {A} a.
Arguments Throw {A} e.
Arguments Vis {A X} c k.

Fixpoint pbind {A B} (p : prog A) (f : A -> prog B) : prog B :=
  match p with
  | Ret a => f a
  | Throw e => Throw e
  | Vis c k => Vis c (fun x => pbind (k x) f)
  end.

Inductive call : Type :=
| Called (X : Type) (c : ext X).
Arguments Called {X} c.

(** What the external routines answer; an answer can be an exception. *)
Definition oracle : Type := forall X, ext X -> res X.

(** Running a method against an oracle: the result and the calls made,
    oldest first. *)
Fixpoint run {A} (o : oracle) (p : prog A) : res A * list call :=
  match p with
  | Ret a => (Ok a, [])
  | Throw e => (Raise e, [])
  | Vis c k =>
      match o _ c with
      | Ok x => let (r, t) := run o (k x) in (r, Called c :: t)
      | Raise e => (Raise e, [Called c])
      end
  end.

(** The first thing a method does: [None] when it ends without a call. *)
Definition first_call {A} (p : prog A) : option call :=
  match p with
  | Vis c _ => Some (Called c)
  | _ => None
  end.

(** The oracle answers the call with the exception [ex]. *)
Definition call_raises (o : oracle) (c : call) (ex : exn) : Prop :=
  match c with
  | Called c' => o _ c' = Raise ex
  end.

(** The call is one of [pyfda_lib.save_fil]. *)
Definition is_save_fil (c : call) : bool :=
  match c with
  | Called c' => match c' with
                 | save_fil _ _ _ _ => true
                 | _ => false
                 end
  end.

Section WithModuleName.
(** [__name__] of the module, as it was imported. *)
Variable name__ : string.

Definition get_params (fd : fil_dict) : self :=
  {| self_N := N fd;
     self_F_PB := np_mul (F_PB fd) (Fin 2);
     self_F_SB := np_mul (F_SB fd) (Fin 2);
     self_F_PB2 := np_mul (F_PB2 fd) (Fin 2);
     self_F_SB2 := np_mul (F_SB2 fd) (Fin 2);
     self_F_SBC := None;
     self_A_PB := A_PB fd;
     self_A_SB := A_SB fd;
     self_A_PB2 := A_PB2 fd;
     self_A_SB2 := A_SB2 fd |}.

Definition set_N (fd : fil_dict) (n : Z) : fil_dict :=
  mk_fil_dict n (F_PB fd) (F_SB fd) (F_PB2 fd) (F_SB2 fd)
              (A_PB fd) (A_SB fd) (A_PB2 fd) (A_SB2 fd).
Definition set_F_SB (fd : fil_dict) (x : npfloat) : fil_dict :=
  mk_fil_dict (N fd) (F_PB fd) x (F_PB2 fd) (F_SB2 fd)
              (A_PB fd) (A_SB fd) (A_PB2 fd) (A_SB2 fd).
Definition set_F_SB2 (fd : fil_dict) (x : npfloat) : fil_dict :=
  mk_fil_dict (N fd) (F_PB fd) (F_SB fd) (F_PB2 fd) x
              (A_PB fd) (A_SB fd) (A_PB2 fd) (A_SB2 fd).

(** The write-back of [save], after [save_fil] has returned [fd].  An
    index error leaves the dictionary with the keys written so far; the
    model gives the dictionary of a normal return only. *)
Definition write_back (s : self) (fd : fil_dict) : prog fil_dict :=
  match self_F_SBC s with
  | None => Ret fd
  | Some c =>
      let fd := set_N fd (self_N s) in
      match c with
      | Scalar x => Ret (set_F_SB fd (np_div x (Fin 2)))
      | Array l =>
          match l !! 0%nat with
          | None => Throw IndexError
          | Some x0 =>
              let fd := set_F_SB fd (np_div x0 (Fin 2)) in
              match l !! 1%nat with
              | None => Throw IndexError
              | Some x1 => Ret (set_F_SB2 fd (np_div x1 (Fin 2)))
              end
          end
      end
  end.

Definition save (s : self) (fd : fil_dict) (arg : coeffs) : prog fil_dict :=
  Vis (save_fil fd arg frmt name__) (fun fd' => write_back s fd').

(** The fixed-order methods: [self.save(fil_dict, sig.cheby2(...))]. *)
Definition design_man (btype : string) (Wn : self -> ndarray)
    (fd : fil_dict) : prog (self * fil_dict) :=
  let s := get_params fd in
  Vis (sig_cheby2 (self_N s) (self_A_SB s) (Wn s) btype false frmt)
      (fun c => pbind (save s fd c) (fun fd' => Ret (s, fd'))).

(** The minimum-order methods: [cheb2ord], then [sig.cheby2] and [save]. *)
Definition with_order (s : self) (n : Z) (wc : ndarray) : self :=
  mk_self n (self_F_PB s) (self_F_SB s) (self_F_PB2 s) (self_F_SB2 s)
          (Some wc) (self_A_PB s) (self_A_SB s) (self_A_PB2 s) (self_A_SB2 s).

Definition design_min (btype : string) (wp ws : self -> ndarray)
    (fd : fil_dict) : prog (self * fil_dict) :=
  let s := get_params fd in
  Vis (cheb2ord (wp s) (ws s) (self_A_PB s) (self_A_SB s))
      (fun r =>
         let s := with_order s (fst r) (snd r) in
         Vis (sig_cheby2 (self_N s) (self_A_SB s) (snd r) btype false frmt)
             (fun c => pbind (save s fd c) (fun fd' => Ret (s, fd')))).

Definition one_SB (s : self) : ndarray := Scalar (self_F_SB s).
Definition one_PB (s : self) : ndarray := Scalar (self_F_PB s).
Definition two_SB (s : self) : ndarray := Array [self_F_SB s; self_F_SB2 s].
Definition two_PB (s : self) : ndarray := Array [self_F_PB s; self_F_PB2 s].

Definition LPman := design_man "low" one_SB.
Definition LPmin := design_min "lowpass" one_PB one_SB.
Definition HPman := design_man "highpass" one_SB.
Definition HPmin := design_min "highpass" one_PB one_SB.
Definition BPman := design_man "bandpass" two_SB.
Definition BPmin := design_min "bandpass" two_PB two_SB.
Definition BSman := design_man "bandstop" two_SB.
Definition BSmin := design_min "bandstop" two_PB two_SB.

End WithModuleName.

(** What every call of a design method on the dictionary [fd] has to
    look like: the attenuations are those of the dictionary, the design
    is digital with output format [frmt], and [save_fil] gets the
    dictionary itself, [frmt] and the module name. *)
Definition well_formed_call (name__ : string) (fd : fil_dict) (c : call)
    : Prop :=
  match c with
  | Called c' =>
      match c' with
      | cheb2ord _ _ gpass gstop => gpass = A_PB fd /\ gstop = A_SB fd
      | sig_cheby2 _ rs _ _ analog output =>
          rs = A_SB fd /\ analog = false /\ output = frmt
      | save_fil fd' _ format_in sender =>
          fd' = fd /\ format_in = frmt /\ sender = name__
      end
  end.

(** *** Test doubles and example specifications *)

(** A test double for scipy and [pyfda_lib]: the order is 4, the corner
    frequencies are the stop band edges it was given, the coefficients
    are those of the identity filter, [save_fil] leaves the keys of the
    specification alone. *)
Definition test_oracle : oracle :=
  fun X c =>
    match c in ext X return res X with
    | cheb2ord _ ws _ _ => Ok (4%Z, ws)
    | sig_cheby2 _ _ _ _ _ _ => Ok ([Fin 1%R], [Fin 1%R])
    | save_fil fd _ _ _ => Ok fd
    end.

(** A low pass specification in order ([F_PB < F_SB]) and one that is
    not, with a negative stop band attenuation on top. *)
Definition good_spec : fil_dict :=
  mk_fil_dict 0 (Fin 0.2%R) (Fin 0.3%R) (Fin 0.35%R) (Fin 0.4%R)
              (Fin 1%R) (Fin 40%R) (Fin 1%R) (Fin 40%R).

Definition bad_spec : fil_dict :=
  mk_fil_dict 0 (Fin 0.3%R) (Fin 0.2%R) (Fin 0.35%R) (Fin 0.4%R)
              (Fin 1%R) (Fin (-40)%R) (Fin 1%R) (Fin 40%R).

(** A stand-in for a scipy that rejects every specification. *)
Definition strict_oracle : oracle :=
  fun X c =>
    match c in ext X return res X with
    | cheb2ord _ _ _ _ => Raise ValueError
    | sig_cheby2 _ _ _ _ _ _ => Raise ValueError
    | save_fil fd _ _ _ => Ok fd
    end.

End Cheby2.

(** * Properties *)

(** ** Arithmetic of [npfloat] *)

Section NpFacts.
Local Open Scope R_scope.

Lemma np_div_fin (a b : R) : b <> 0 -> np_div (Fin a) (Fin b) = Fin (a / b).
Proof.
  intros Hb. simpl. destruct (Req_dec_T b 0) as [E|_]; [contradiction|reflexivity].
Qed.

Lemma np_div_zero_zero : np_div (Fin 0) (Fin 0) = NaN.
Proof.
  simpl. destruct (Req_dec_T 0 0) as [_|E]; [|contradiction E; reflexivity].
  reflexivity.
Qed.

Lemma np_div_nan_l (y : npfloat) : np_div NaN y = NaN.
Proof. reflexivity. Qed.

Lemma np_div_nan_r (x : npfloat) : np_div x NaN = NaN.
Proof. destruct x; reflexivity. Qed.

Lemma np_mul_nan_r (x : npfloat) : np_mul x NaN = NaN.
Proof. destruct x; reflexivity. Qed.

Lemma np_add_nan_r (x : npfloat) : np_add x NaN = NaN.
Proof. destruct x; reflexivity. Qed.

Lemma np_ltb_fin (a b : R) : np_ltb (Fin a) (Fin b) = true <-> a < b.
Proof.
  simpl. destruct (Rlt_dec a b); split; intros; try reflexivity;
    try assumption; try discriminate; contradiction.
Qed.

Lemma np_ltb_fin_false (a b : R) : np_ltb (Fin a) (Fin b) = false <-> b <= a.
Proof.
  simpl. destruct (Rlt_dec a b); split; intros; try reflexivity;
    try discriminate; lra.
Qed.

(** Doubling and halving cancel, for special values too. *)
Lemma halve_double (x : npfloat) : np_div (np_mul x (Fin 2)) (Fin 2) = x.
Proof.
  destruct x as [r| | |]; simpl; unfold inf_times.
  - destruct (Req_dec_T 2 0); [lra|]. f_equal. field.
  - destruct (Req_dec_T 2 0); [lra|].
    destruct (Rlt_dec 0 2); [|lra]. simpl.
    destruct (Rlt_dec 2 0); [lra|reflexivity].
  - destruct (Req_dec_T 2 0); [lra|].
    destruct (Rlt_dec 0 2); [|lra]. simpl.
    destruct (Rlt_dec 2 0); [lra|reflexivity].
  - reflexivity.
Qed.

Lemma fold_add_fin (rs : list R) (acc : R) :
  fold_left np_add (map Fin rs) (Fin acc) = Fin (fold_left Rplus rs acc).
Proof.
  revert acc. induction rs as [|r rs IH]; intros acc; simpl; [reflexivity|].
  apply IH.
Qed.

Lemma sum_list_fin (rs : list R) : sum_list (map Fin rs) = Fin (Rsum rs).
Proof. apply fold_add_fin. Qed.

Lemma fold_Rplus_shift (rs : list R) (acc : R) :
  fold_left Rplus rs acc = acc + fold_left Rplus rs 0.
Proof.
  revert acc. induction rs as [|r rs IH]; intros acc; simpl; [lra|].
  rewrite (IH (acc + r)), (IH (0 + r)). lra.
Qed.

Lemma Rsum_cons (r : R) (rs : list R) : Rsum (r :: rs) = r + Rsum rs.
Proof. unfold Rsum. simpl. rewrite fold_Rplus_shift. lra. Qed.

Lemma Rsum_scale (rs : list R) (c : R) :
  Rsum (map (fun r => r / c) rs) = Rsum rs / c.
Proof.
  induction rs as [|r rs IH]; [unfold Rsum; simpl; lra|].
  simpl map. rewrite !Rsum_cons, IH. lra.
Qed.

Lemma Rsum_repeat_one (n : nat) : Rsum (repeat 1 n) = INR n.
Proof.
  induction n as [|n IH]; [reflexivity|].
  cbn [repeat]. rewrite Rsum_cons, IH, S_INR. lra.
Qed.

Lemma map_div_fin (rs : list R) (c : R) :
  c <> 0 ->
  map (fun x => np_div x (Fin c)) (map Fin rs) = map Fin (map (fun r => r / c) rs).
Proof.
  intros Hc. rewrite !map_map. apply map_ext. intros r. now apply np_div_fin.
Qed.

Lemma ones_as_fin (n : nat) : ones n = Array (map Fin (repeat 1 n)).
Proof.
  unfold ones. f_equal. induction n as [|n IH]; [reflexivity|].
  simpl. now rewrite IH.
Qed.

Lemma INR_pos_neq (n : nat) : (1 <= n)%nat -> INR n <> 0.
Proof. intros H. apply not_0_INR. lia. Qed.

End NpFacts.

(** ** Cosine-sum windows *)

Section CosineSumFacts.
Local Open Scope R_scope.

Lemma zip_with_map_seq {A B C} (f : A -> B -> C) (g : nat -> A) (h : nat -> B)
    (l : list nat) :
  zip_with f (map g l) (map h l) = map (fun n => f (g n) (h n)) l.
Proof. induction l as [|n l IH]; simpl; [reflexivity|]. now rewrite IH. Qed.

(** The sample points of [calc_cosine_window]. *)
Lemma sample_points (N : nat) (sym : bool) :
  nd_div_s (nd_mul_s (nd_mul_s (arange N) (Fin 2)) (Fin PI))
           (Fin (IZR (period_length N sym)))
  = Array (map (x_spec N sym) (seq 0 N)).
Proof.
  unfold nd_div_s, nd_mul_s, arange, nd_map. f_equal.
  rewrite !map_map. apply map_ext. intros n. reflexivity.
Qed.

(** The loop, once the accumulator is an array over the sample points. *)
Lemma cosine_loop_array (xf g : nat -> npfloat) (ns : list nat)
    (ak : list npfloat) (k : nat) :
  cosine_loop (Array (map xf ns)) k ak (Array (map g ns))
  = Ok (Array (map (fun n => fold_left np_add (cosine_terms k ak (xf n)) (g n))
                   ns)).
Proof.
  revert k g. induction ak as [|c rest IH]; intros k g; cbn [cosine_loop cosine_terms fold_left].
  - reflexivity.
  - unfold nd_add, nd_s_mul, nd_map, broadcast2.
    rewrite !map_map, !length_map, Nat.eqb_refl. cbn [res_bind].
    rewrite zip_with_map_seq.
    apply (IH (S k)
             (fun n => np_add (g n)
                         (np_mul c (np_cos (np_mul (Fin (INR k)) (xf n)))))).
Qed.

(** With at least two coefficients the first pass through the loop turns
    the scalar [a[0]] into an array. *)
Lemma calc_cosine_window_array (N : nat) (sym : bool) (a0 a1 : npfloat)
    (rest : list npfloat) :
  calc_cosine_window N sym (a0 :: a1 :: rest)
  = Ok (Array (map (w_spec N sym (a0 :: a1 :: rest)) (seq 0 N))).
Proof.
  unfold calc_cosine_window. rewrite sample_points.
  cbn [cosine_loop]. unfold nd_add, nd_s_mul, nd_map, broadcast2.
  rewrite !map_map. cbn [res_bind].
  rewrite (cosine_loop_array (x_spec N sym)
             (fun n => np_add a0
                         (np_mul a1 (np_cos (np_mul (Fin (INR 1)) (x_spec N sym n)))))
             (seq 0 N) rest 2).
  reflexivity.
Qed.

(** On finite coefficients and a period length other than zero the
    specification's sample is the real number
    [a0 + sum_j a_j cos (j * (n * 2 PI / L))]. *)
Lemma cosine_terms_fin (j : nat) (aj : list R) (x : R) :
  cosine_terms j (map Fin aj) (Fin x) = map Fin (real_terms j aj x).
Proof.
  revert j. induction aj as [|c rest IH]; intros j; simpl; [reflexivity|].
  now rewrite IH.
Qed.

Lemma w_spec_real (N : nat) (sym : bool) (a0 : R) (rest : list R) (n : nat) :
  period_length N sym <> 0%Z ->
  w_spec N sym (map Fin (a0 :: rest)) n
  = Fin (fold_left Rplus
           (real_terms 1 rest (INR n * 2 * PI / IZR (period_length N sym))) a0).
Proof.
  intros HL. unfold w_spec, x_spec. cbn [map].
  rewrite np_div_fin by (intros E; apply eq_IZR_R0 in E; contradiction).
  rewrite cosine_terms_fin. apply fold_add_fin.
Qed.

End CosineSumFacts.

(** C8 (as amended).  For every [N], symmetry flag and coefficient list
    with at least two entries (k >= 1), [calc_cosine_window] returns the
    length-[N] array whose sample [n] is
    [a[0] + sum_{j=1..k} a[j] * cos(j * x[n])], [x[n] = n * 2 pi / L],
    [L = N-1] when [sym] and [N] otherwise; the 5/7/9-term presets are
    this function at their literal coefficient lists. *)
Theorem calc_cosine_window_formula :
  (forall (N : nat) (sym : bool) (a0 a1 : npfloat) (rest : list npfloat),
      calc_cosine_window N sym (a0 :: a1 :: rest)
      = Ok (Array (map (w_spec N sym (a0 :: a1 :: rest)) (seq 0 N)))
      /\ period_length N sym = (if sym then Z.of_nat N - 1 else Z.of_nat N)%Z
      /\ (forall n, x_spec N sym n
                    = np_div (Fin (INR n * 2 * PI))
                             (Fin (IZR (period_length N sym)))))
  /\ (forall N sym,
        blackmanharris5 N sym
        = Ok (Array (map (w_spec N sym a_blackmanharris5) (seq 0 N)))
        /\ blackmanharris7 N sym
           = Ok (Array (map (w_spec N sym a_blackmanharris7) (seq 0 N)))
        /\ blackmanharris9 N sym
           = Ok (Array (map (w_spec N sym a_blackmanharris9) (seq 0 N))))
  /\ length a_blackmanharris5 = 5%nat
  /\ length a_blackmanharris7 = 7%nat
  /\ length a_blackmanharris9 = 9%nat.
Proof.
  split; [|split; [|repeat split]].
  - intros N sym a0 a1 rest. split; [apply calc_cosine_window_array|].
    split; [reflexivity|]. intros n. reflexivity.
  - intros N sym. repeat split; apply calc_cosine_window_array.
Qed.

(** C8, the claim as stated fails for a one-element coefficient list:
    the loop body never runs and the scalar [a[0]] is returned, not a
    length-[N] sequence. *)
Lemma calc_cosine_window_single_coefficient :
  calc_cosine_window 4 false [Fin 1%R] = Ok (Scalar (Fin 1%R))
  /\ calc_cosine_window 4 false [Fin 1%R]
     <> Ok (Array (map (w_spec 4 false [Fin 1%R]) (seq 0 4))).
Proof.
  split; [reflexivity|]. intros H. discriminate H.
Qed.

(** ** The window dictionary *)

Import Windows.
Local Open Scope M_scope.

Arguments np_add : simpl never.
Arguments np_mul : simpl never.
Arguments np_div : simpl never.
Arguments np_cos : simpl never.
Arguments np_square : simpl never.
Arguments nd_sum : simpl never.
Arguments nd_div_s : simpl never.
Arguments nd_square : simpl never.
Arguments ones : simpl never.

Ltac mred :=
  cbv beta iota delta
    [bind dict_get get_dict lift ret raise put_dict emit log dict_set
     entry_get entry_update try_except as_str as_win as_entry as_updatable
     field nd_len];
  cbn [win_dict trace fst snd].

Section WindowFacts.
Variable env : environment.

Lemma entry_get_some (s : state) (k : string) (e : entry) :
  win_dict s !! k = Some (VEntry e) -> entry_get k s = (Ok e, s).
Proof.
  intros H. unfold entry_get, dict_get, bind, get_dict, lift, ret. simpl.
  rewrite H. reflexivity.
Qed.

Lemma entry_update_some (s : state) (k : string) (e : entry) (f : entry -> entry) :
  win_dict s !! k = Some (VEntry e) ->
  entry_update k f s
  = (Ok tt, mk_state (<[ k := VEntry (f e) ]> (win_dict s)) (trace s)).
Proof.
  intros H. unfold entry_update. mred. rewrite H. reflexivity.
Qed.

(** A call touches the trace only, and the same way in every state. *)
Lemma call_shape (f : option fnct) (N : nat) (args : list npfloat) (sym : bool) :
  exists r t, forall s,
    call env f N args sym s = (r, mk_state (win_dict s) (trace s ++ t)).
Proof.
  destruct f as [f|].
  - unfold call, bind, emit, ret, raise. simpl.
    destruct (apply_fnct env f N args sym) as [w|ex].
    + exists (Ok w), [Call f N args sym]. reflexivity.
    + exists (Raise ex), [Call f N args sym]. reflexivity.
  - exists (Raise TypeError), []. intros [d t]. unfold call, raise. simpl.
    now rewrite app_nil_r.
Qed.

Lemma state_eta (s : state) : mk_state (win_dict s) (trace s ++ []) = s.
Proof. destruct s. simpl. now rewrite app_nil_r. Qed.

(** The [try] block reads the parameters of the entry and nothing else of
    it, and touches the trace only. *)
Lemma generate_shape (e : entry) (f : option fnct) (fn : string) (n N : nat)
    (sym : bool) :
  exists r t, forall (e' : entry) (s : state),
    par e' = par e ->
    generate env e' f fn n N sym s = (r, mk_state (win_dict s) (trace s ++ t)).
Proof.
  assert (Hpar : forall e' i, par e' = par e -> par_val_at e' i = par_val_at e i).
  { intros e' i H. unfold par_val_at. now rewrite H. }
  unfold generate. destruct (String.eqb fn "dpss").
  - destruct (par_val_at e 0) as [p0|ex] eqn:E0.
    + destruct (call_shape (Some (fn_ext scipy_signal_windows "dpss")) N [p0] sym)
        as (r & t & H).
      exists r, (Log Info Dpss :: t). intros e' s He.
      cbv beta iota delta [bind log emit lift].
      rewrite (Hpar e' 0%nat He), E0, H. cbn [win_dict trace].
      now rewrite <- app_assoc.
    + exists (Raise ex), [Log Info Dpss]. intros e' s He.
      cbv beta iota delta [bind log emit lift].
      now rewrite (Hpar e' 0%nat He), E0.
  - destruct n as [|[|[|n]]].
    + destruct (call_shape f N [] sym) as (r & t & H).
      exists r, t. intros e' s _. apply H.
    + destruct (par_val_at e 0) as [p0|ex] eqn:E0.
      * destruct (call_shape f N [p0] sym) as (r & t & H).
        exists r, t. intros e' s He. unfold bind, lift.
        rewrite (Hpar e' 0%nat He), E0. apply H.
      * exists (Raise ex), []. intros e' s He. unfold bind, lift.
        rewrite (Hpar e' 0%nat He), E0. now rewrite state_eta.
    + destruct (par_val_at e 0) as [p0|ex] eqn:E0.
      * destruct (par_val_at e 1) as [p1|ex] eqn:E1.
        -- destruct (call_shape f N [p0; p1] sym) as (r & t & H).
           exists r, t. intros e' s He. unfold bind, lift.
           rewrite (Hpar e' 0%nat He), E0, (Hpar e' 1%nat He), E1. apply H.
        -- exists (Raise ex), []. intros e' s He. unfold bind, lift.
           rewrite (Hpar e' 0%nat He), E0, (Hpar e' 1%nat He), E1.
           now rewrite state_eta.
      * exists (Raise ex), []. intros e' s He. unfold bind, lift.
        rewrite (Hpar e' 0%nat He), E0. now rewrite state_eta.
    + exists (Ok None), [Log Error (Parameters_not_supported (S (S (S n))))].
      intros e' s _. reflexivity.
Qed.

Lemma generate_dict (e : entry) (f : option fnct) (fn : string) (n N : nat)
    (sym : bool) (s s1 : state) (r : res (option ndarray)) :
  generate env e f fn n N sym s = (r, s1) -> win_dict s1 = win_dict s.
Proof.
  destruct (generate_shape e f fn n N sym) as (r' & t & H).
  rewrite (H e s eq_refl). intros [= _ <-]. reflexivity.
Qed.

(** [compute_window], given what the [try] block did. *)
Lemma compute_window_after_generate (N : nat) (name : string) (sym : bool)
    (s s1 : state) (e : entry) (f : option fnct) (fn : string) (n : nat)
    (r : res (option ndarray)) :
  win_dict s !! name = Some (VEntry e) ->
  win_fnct e = Some f -> fn_name e = Some fn -> n_par e = Some n ->
  generate env e f fn n N sym s = (r, s1) ->
  compute_window env N name sym s
  = (Ok (nd_div_s (fst (settle fn N r)) (cgain_of N (fst (settle fn N r)))),
     mk_state
       (<[ "win" := VWin (nd_div_s (fst (settle fn N r))
                                   (cgain_of N (fst (settle fn N r)))) ]>
          (<[ name := VEntry (with_stats N (fst (settle fn N r)) e) ]>
             (win_dict s)))
       (trace s1 ++ snd (settle fn N r))).
Proof.
  intros Hname Hf Hfn Hn Hgen.
  pose proof (generate_dict _ _ _ _ _ _ _ _ _ Hgen) as Hd.
  unfold compute_window, bind. rewrite (entry_get_some s name e Hname).
  rewrite Hf, Hfn, Hn. unfold lift at 1 2 3. cbn [field].
  unfold try_except. rewrite Hgen.
  assert (Hname1 : forall t, win_dict (mk_state (win_dict s1) t) !! name
                             = Some (VEntry e)).
  { intros t. simpl. now rewrite Hd. }
  destruct r as [[w|]|ex]; cbn [settle fst snd].
  - unfold ret at 1. rewrite (entry_update_some s1 name e _) by now rewrite Hd.
    unfold dict_set, bind, get_dict, put_dict, ret. simpl.
    rewrite Hd, app_nil_r. reflexivity.
  - unfold log, emit, ret, bind. simpl.
    rewrite (entry_update_some _ name e _ (Hname1 _)).
    unfold dict_set, bind, get_dict, put_dict, ret. simpl.
    rewrite Hd. reflexivity.
  - unfold log, emit, ret, bind. simpl.
    rewrite (entry_update_some _ name e _ (Hname1 _)).
    unfold dict_set, bind, get_dict, put_dict, ret. simpl.
    rewrite Hd, <- app_assoc. reflexivity.
Qed.

(** The cache test of [get_window] for the current family. *)
Lemma get_window_current (N : nat) (sym : bool) (s : state) (name : string)
    (c : list npfloat) (req : option string) :
  win_dict s !! "cur_win_name" = Some (VStr name) ->
  win_dict s !! "win" = Some (VWin (Array c)) ->
  req = None \/ req = Some name ->
  get_window env N req sym s
  = if Nat.eqb (length c) N then (Ok (Array c), s)
    else compute_window env N name sym s.
Proof.
  intros Hcur Hwin Hreq.
  assert (Hhead : forall k : option string -> M ndarray,
             bind (match req with
                   | None => ret None
                   | Some name0 =>
                       v <- dict_get "cur_win_name" ;;
                       ret (if is_name name0 v then None else Some name0)
                   end) k s = k None s).
  { intros k. destruct Hreq as [-> | ->]; [reflexivity|].
    mred. rewrite Hcur. mred. cbn [is_name]. now rewrite String.eqb_refl. }
  unfold get_window. rewrite Hhead.
  mred. rewrite Hcur. mred. rewrite Hwin. mred.
  destruct (Nat.eqb (length c) N); reflexivity.
Qed.

(** A request for another family skips the cache. *)
Lemma get_window_other (N : nat) (sym : bool) (s : state) (cur other : string) :
  win_dict s !! "cur_win_name" = Some (VStr cur) ->
  other <> cur ->
  get_window env N (Some other) sym s = compute_window env N other sym s.
Proof.
  intros Hcur Hne. unfold get_window. mred. rewrite Hcur. mred. cbn [is_name].
  destruct (String.eqb_spec other cur) as [E|_]; [contradiction|reflexivity].
Qed.

Lemma get_window_miss (N : nat) (sym : bool) (s : state)
    (req : option string) (name : string) :
  misses_cache s N req name ->
  get_window env N req sym s = compute_window env N name sym s.
Proof.
  intros (cur & Hcur & [[-> Hne] | (Hreq & -> & c & Hwin & Hlen)]).
  - now apply (get_window_other N sym s cur name).
  - rewrite (get_window_current N sym s name c req Hcur Hwin Hreq).
    destruct (Nat.eqb_spec (length c) N) as [E|_]; [contradiction|reflexivity].
Qed.

End WindowFacts.

(** *** The fallback to the rectangular window *)

Section FallbackFacts.
Local Open Scope R_scope.

Lemma nd_sum_ones (N : nat) : nd_sum (ones N) = Fin (INR N).
Proof.
  rewrite ones_as_fin. unfold nd_sum. now rewrite sum_list_fin, Rsum_repeat_one.
Qed.

Lemma nd_square_ones (N : nat) : nd_square (ones N) = ones N.
Proof.
  unfold nd_square, ones, nd_map. f_equal.
  induction N as [|N IH]; [reflexivity|]. cbn [repeat map]. rewrite IH.
  f_equal. unfold np_square, np_mul. f_equal. ring.
Qed.

Lemma cgain_ones (N : nat) : (1 <= N)%nat -> cgain_of N (ones N) = Fin 1.
Proof.
  intros HN. unfold cgain_of. rewrite nd_sum_ones.
  rewrite np_div_fin by now apply INR_pos_neq.
  f_equal. field. now apply INR_pos_neq.
Qed.

Lemma nenbw_ones (N : nat) : (1 <= N)%nat -> nenbw_of N (ones N) = Fin 1.
Proof.
  intros HN. pose proof (INR_pos_neq N HN) as H0.
  unfold nenbw_of. rewrite nd_square_ones, nd_sum_ones.
  unfold np_square, np_mul. rewrite np_div_fin by nra.
  f_equal. now field.
Qed.

Lemma normalized_ones (N : nat) :
  (1 <= N)%nat -> nd_div_s (ones N) (cgain_of N (ones N)) = ones N.
Proof.
  intros HN. rewrite (cgain_ones N HN). unfold nd_div_s, ones, nd_map. f_equal.
  induction N as [|N IH]; [reflexivity|]. cbn [repeat map]. f_equal.
  - rewrite np_div_fin by lra. f_equal. field.
  - destruct N as [|N]; [reflexivity|]. apply IH. lia.
Qed.

End FallbackFacts.

(** The ways in which the [try] block ends without an array. *)
Lemma unsupported_count_fails (env : environment) (e : entry) (f : option fnct)
    (fn : string) (n N : nat) (sym : bool) (s : state) :
  String.eqb fn "dpss" = false -> (3 <= n)%nat ->
  generate env e f fn n N sym s
  = (Ok None, mk_state (win_dict s)
                (trace s ++ [Log Error (Parameters_not_supported n)])).
Proof.
  intros Hfn Hn. unfold generate. rewrite Hfn.
  destruct n as [|[|[|n]]]; try lia. reflexivity.
Qed.

Lemma generator_raises_fails (env : environment) (e : entry) (g : fnct)
    (fn : string) (N : nat) (sym : bool) (s : state) (ex : exn) :
  String.eqb fn "dpss" = false ->
  apply_fnct env g N [] sym = Raises ex ->
  generate env e (Some g) fn 0 N sym s
  = (Raise ex, mk_state (win_dict s) (trace s ++ [Call g N [] sym])).
Proof.
  intros Hfn Hg. unfold generate, call. rewrite Hfn. mred. now rewrite Hg.
Qed.

Lemma generator_none_fails (env : environment) (e : entry) (g : fnct)
    (fn : string) (N : nat) (sym : bool) (s : state) :
  String.eqb fn "dpss" = false ->
  apply_fnct env g N [] sym = Returns None ->
  generate env e (Some g) fn 0 N sym s
  = (Ok None, mk_state (win_dict s) (trace s ++ [Call g N [] sym])).
Proof.
  intros Hfn Hg. unfold generate, call. rewrite Hfn. mred. now rewrite Hg.
Qed.

(** C4.  For [N >= 1] and a registered family (its entry holds
    ['win_fnct'], ['fn_name'] and ['n_par']), whenever a request is not
    served from the stored window and the [try] block of [get_window]
    yields no array -- the generator raised, it returned [None], or the
    parameter count is unsupported -- no exception reaches the caller:
    the result is the all-ones array of length [N], it is stored, the
    coherent gain stored is 1, and the log ends with the fallback
    warning, preceded by the error record when an exception was caught. *)
Theorem get_window_falls_back (env : environment) (s : state) (N : nat)
    (sym : bool) (req : option string) (name : string) (e : entry)
    (f : option fnct) (fn : string) (n : nat) :
  (1 <= N)%nat ->
  misses_cache s N req name ->
  name <> "win" ->
  win_dict s !! name = Some (VEntry e) ->
  win_fnct e = Some f -> fn_name e = Some fn -> n_par e = Some n ->
  (forall w, fst (generate env e f fn n N sym s) <> Ok (Some w)) ->
  exists s' t e',
    get_window env N req sym s = (Ok (ones N), s')
    /\ win_dict s' !! "win" = Some (VWin (ones N))
    /\ win_dict s' !! name = Some (VEntry e')
    /\ cgain e' = Some (Fin 1%R)
    /\ trace s' = trace s ++ t ++ [Log Warning Falling_back_to_rectangular]
    /\ (forall ex, fst (generate env e f fn n N sym s) = Raise ex ->
        exists t0, t = t0 ++ [Log Error (Error_calculating_window fn ex)]).
Proof.
  intros HN Hmiss Hne Hname Hf Hfn Hn Hfail.
  rewrite (get_window_miss env N sym s req name Hmiss).
  destruct (generate_shape env e f fn n N sym) as (r & t & Hshape).
  specialize (Hshape e s eq_refl).
  rewrite (compute_window_after_generate env N name sym s _ e f fn n r
             Hname Hf Hfn Hn Hshape).
  rewrite Hshape in Hfail. cbn [fst] in Hfail.
  assert (Hset : fst (settle fn N r) = ones N).
  { destruct r as [[w|]|ex]; [exfalso; now apply (Hfail w)|reflexivity..]. }
  rewrite Hset, (normalized_ones N HN).
  eexists; exists (t ++ removelast (snd (settle fn N r)));
    exists (with_stats N (ones N) e).
  split; [reflexivity|]. cbn [win_dict trace].
  split; [apply lookup_insert_eq|].
  split; [rewrite lookup_insert_ne by (intros E; now apply Hne);
          apply lookup_insert_eq|].
  split; [cbn [with_stats cgain]; now rewrite cgain_ones|].
  split.
  - rewrite <- !app_assoc. do 2 f_equal.
    destruct r as [[w|]|ex]; [exfalso; now apply (Hfail w)|reflexivity..].
  - intros ex Hex. rewrite Hshape in Hex. cbn [fst] in Hex. subst r.
    exists t. reflexivity.
Qed.

Lemma get_window_falls_back_witness :
  exists s' t e',
    get_window test_double 4 None false custom_state = (Ok (ones 4), s')
    /\ win_dict s' !! "win" = Some (VWin (ones 4))
    /\ win_dict s' !! "Custom" = Some (VEntry e')
    /\ cgain e' = Some (Fin 1%R)
    /\ trace s' = trace custom_state ++ t ++ [Log Warning Falling_back_to_rectangular]
    /\ (forall ex,
          fst (generate test_double custom_entry
                 (Some (fn_ext scipy_signal_windows "boxcar")) "boxcar" 3 4
                 false custom_state) = Raise ex ->
          exists t0, t = t0 ++ [Log Error (Error_calculating_window "boxcar" ex)]).
Proof.
  apply (get_window_falls_back test_double custom_state 4 false None "Custom"
           custom_entry (Some (fn_ext scipy_signal_windows "boxcar")) "boxcar" 3).
  - lia.
  - exists "Custom". split; [vm_compute; reflexivity|]. right.
    split; [now left|]. split; [reflexivity|]. exists [].
    split; [vm_compute; reflexivity|]. simpl. lia.
  - discriminate.
  - vm_compute. reflexivity.
  - reflexivity.
  - reflexivity.
  - reflexivity.
  - intros w. rewrite unsupported_count_fails by (reflexivity || lia).
    simpl. discriminate.
Defined.

(** *** Normalization *)

Section NormalizationFacts.
Local Open Scope R_scope.

(** A finite array with a sum other than zero has unit mean after the
    division by its coherent gain. *)
Lemma normalized_mean (N : nat) (rs : list R) :
  (1 <= N)%nat -> Rsum rs <> 0 ->
  np_div (nd_sum (nd_div_s (Array (map Fin rs))
                           (np_div (nd_sum (Array (map Fin rs))) (Fin (INR N)))))
         (Fin (INR N))
  = Fin 1.
Proof.
  intros HN Hsum. pose proof (INR_pos_neq N HN) as H0.
  unfold nd_sum at 2. rewrite sum_list_fin, np_div_fin by assumption.
  assert (Hc : Rsum rs / INR N <> 0).
  { intros E. apply Hsum. apply (Rmult_eq_compat_r (INR N)) in E.
    unfold Rdiv in E. rewrite Rmult_assoc, Rinv_l, Rmult_0_l, Rmult_1_r in E;
      assumption. }
  unfold nd_div_s, nd_map. rewrite map_div_fin by assumption.
  unfold nd_sum. rewrite sum_list_fin, Rsum_scale, np_div_fin by assumption.
  f_equal. now field.
Qed.

Lemma x_spec_degenerate : x_spec 1 true 0 = NaN.
Proof.
  unfold x_spec. cbn [period_length]. replace (INR 0 * 2 * PI) with 0 by (simpl; ring).
  apply np_div_zero_zero.
Qed.

(** With one sample and [sym] the period length is zero: the only sample
    point is [0/0], and the window is nan. *)
Lemma blackmanharris5_degenerate : blackmanharris5 1 true = Ok (Array [NaN]).
Proof.
  unfold blackmanharris5, a_blackmanharris5. rewrite calc_cosine_window_array.
  cbn [seq map]. unfold w_spec. rewrite x_spec_degenerate. reflexivity.
Qed.

End NormalizationFacts.

(** C1 (as amended).  When a request is not served from the stored
    window and the generator returns [w], the array returned by
    [get_window] is [w] divided by [cgain = sum(w)/N]; [cgain] and
    [nenbw = N*sum(w^2)/(sum(w))^2], both taken on [w] itself, are stored
    in the entry of the family and the returned array is stored as the
    window.  If the entries of [w] are finite, their sum is not zero and
    [N >= 1], the sum of the returned array divided by [N] is 1. *)
Theorem get_window_normalizes (env : environment) (s s1 : state) (N : nat)
    (sym : bool) (req : option string) (name : string) (e : entry)
    (f : option fnct) (fn : string) (n : nat) (w : ndarray) :
  misses_cache s N req name ->
  name <> "win" ->
  win_dict s !! name = Some (VEntry e) ->
  win_fnct e = Some f -> fn_name e = Some fn -> n_par e = Some n ->
  generate env e f fn n N sym s = (Ok (Some w), s1) ->
  let cg := np_div (nd_sum w) (Fin (INR N)) in
  exists s' e',
    get_window env N req sym s = (Ok (nd_div_s w cg), s')
    /\ win_dict s' !! "win" = Some (VWin (nd_div_s w cg))
    /\ win_dict s' !! name = Some (VEntry e')
    /\ cgain e' = Some cg
    /\ nenbw e' = Some (np_div (np_mul (Fin (INR N)) (nd_sum (nd_square w)))
                               (np_square (nd_sum w)))
    /\ (forall rs : list R,
          w = Array (map Fin rs) -> Rsum rs <> 0%R -> (1 <= N)%nat ->
          np_div (nd_sum (nd_div_s w cg)) (Fin (INR N)) = Fin 1%R).
Proof.
  intros Hmiss Hne Hname Hf Hfn Hn Hgen cg.
  rewrite (get_window_miss env N sym s req name Hmiss).
  rewrite (compute_window_after_generate env N name sym s s1 e f fn n _
             Hname Hf Hfn Hn Hgen).
  cbn [settle fst snd].
  eexists; exists (with_stats N w e).
  split; [reflexivity|]. cbn [win_dict].
  split; [apply lookup_insert_eq|].
  split; [rewrite lookup_insert_ne by (intros E; now apply Hne);
          apply lookup_insert_eq|].
  split; [reflexivity|]. split; [reflexivity|].
  intros rs -> Hsum HN. now apply normalized_mean.
Qed.

Lemma generate_preset5 (env : environment) (e : entry) (N : nat) (sym : bool)
    (s : state) (w : ndarray) :
  blackmanharris5 N sym = Ok w ->
  generate env e (Some fn_blackmanharris5) bh5_name 0 N sym s
  = (Ok (Some w),
     mk_state (win_dict s) (trace s ++ [Call fn_blackmanharris5 N [] sym])).
Proof.
  intros Hw. unfold generate.
  replace (String.eqb bh5_name "dpss") with false by reflexivity.
  unfold call, apply_fnct. mred. rewrite Hw. reflexivity.
Qed.

Lemma bh5_state_cur :
  win_dict bh5_state !! "cur_win_name" = Some (VStr "Blackmanharris_5").
Proof. vm_compute. reflexivity. Qed.

Lemma bh5_state_win : win_dict bh5_state !! "win" = Some (VWin (Array [])).
Proof. vm_compute. reflexivity. Qed.

Lemma bh5_state_entry :
  win_dict bh5_state !! "Blackmanharris_5" = Some (VEntry bh5_entry).
Proof. vm_compute. reflexivity. Qed.

(** C1, the claim as stated fails: for the 5-term Blackman-Harris window
    with [N = 1] and [sym] the generator divides by a period length of
    zero, the returned array is [[nan]] and its mean is not 1. *)
Lemma get_window_degenerate_period :
  fst (get_window test_double 1 None true bh5_state) = Ok (Array [NaN])
  /\ np_div (nd_sum (Array [NaN])) (Fin (INR 1)) <> Fin 1%R.
Proof.
  split.
  - rewrite (get_window_current test_double 1 true bh5_state "Blackmanharris_5"
               [] None bh5_state_cur bh5_state_win (or_introl eq_refl)).
    cbn [length Nat.eqb].
    rewrite (compute_window_after_generate test_double 1 "Blackmanharris_5"
               true bh5_state _ bh5_entry (Some fn_blackmanharris5) bh5_name 0
               (Ok (Some (Array [NaN]))) bh5_state_entry eq_refl eq_refl eq_refl
               (generate_preset5 test_double bh5_entry 1 true bh5_state _
                  blackmanharris5_degenerate)).
    reflexivity.
  - intros H. discriminate H.
Qed.

Lemma get_window_normalizes_witness :
  exists s',
    get_window test_double 4 None false rect_state
    = (Ok (nd_div_s (ones 4) (np_div (nd_sum (ones 4)) (Fin (INR 4)))), s')
    /\ np_div (nd_sum (nd_div_s (ones 4) (np_div (nd_sum (ones 4)) (Fin (INR 4)))))
              (Fin (INR 4))
       = Fin 1%R.
Proof.
  destruct (get_window_normalizes test_double rect_state
              (mk_state (win_dict rect_state)
                 (trace rect_state
                  ++ [Call (fn_ext scipy_signal_windows "boxcar") 4 [] false]))
              4 false None "Rectangular" rect_entry
              (Some (fn_ext scipy_signal_windows "boxcar")) "boxcar" 0 (ones 4))
    as (s' & e' & Hget & _ & _ & _ & _ & Hmean).
  - exists "Rectangular". split; [vm_compute; reflexivity|]. right.
    split; [now left|]. split; [reflexivity|]. exists [].
    split; [vm_compute; reflexivity|]. simpl. lia.
  - discriminate.
  - vm_compute. reflexivity.
  - reflexivity.
  - reflexivity.
  - reflexivity.
  - reflexivity.
  - exists s'. split; [exact Hget|].
    apply (Hmean [1; 1; 1; 1]%R).
    + reflexivity.
    + unfold Rsum. simpl. lra.
    + lia.
Defined.

(** *** The one-entry cache *)

Lemma with_stats_twice (N : nat) (w : ndarray) (e : entry) :
  with_stats N w (with_stats N w e) = with_stats N w e.
Proof. reflexivity. Qed.

Lemma store_twice (d : gmap string value) (name : string) (a b : value) :
  name <> "win" ->
  <[ "win" := a ]> (<[ name := b ]> (<[ "win" := a ]> (<[ name := b ]> d)))
  = <[ "win" := a ]> (<[ name := b ]> d).
Proof.
  intros Hne.
  rewrite (insert_insert_ne (<[ name := b ]> d) name "win" b a) by assumption.
  now rewrite !insert_insert_eq.
Qed.

(** C9 (as amended).  A call for the current family ([win_name] absent or
    equal to ['cur_win_name']) whose [N] is the length of the stored
    array returns the stored array and leaves dictionary and log as they
    are: no generator is invoked, whatever [sym] is.  Right after a call
    that computed the window of the current family, the same request
    gets the array that recomputation yields, and recomputation leaves
    the dictionary as it is; when the array has length [N] the repeated
    call does not invoke the generator. *)
Theorem get_window_cache (env : environment) (s : state) (N : nat)
    (sym : bool) (name : string) :
  win_dict s !! "cur_win_name" = Some (VStr name) ->
  (forall (c : list npfloat) (req : option string) (any_sym : bool),
      win_dict s !! "win" = Some (VWin (Array c)) ->
      length c = N ->
      req = None \/ req = Some name ->
      get_window env N req any_sym s = (Ok (Array c), s))
  /\ (forall (c0 : ndarray) (e : entry) (f : option fnct) (fn : string)
             (n : nat) (w : ndarray) (s' : state),
         win_dict s !! "win" = Some (VWin c0) ->
         win_dict s !! name = Some (VEntry e) ->
         win_fnct e = Some f -> fn_name e = Some fn -> n_par e = Some n ->
         compute_window env N name sym s = (Ok w, s') ->
         (exists s'', compute_window env N name sym s' = (Ok w, s'')
                      /\ win_dict s'' = win_dict s')
         /\ (forall l : list npfloat, w = Array l ->
               fst (get_window env N None sym s') = Ok w
               /\ win_dict (snd (get_window env N None sym s')) = win_dict s'
               /\ (length l = N -> get_window env N None sym s' = (Ok w, s')))).
Proof.
  intros Hcur. split.
  - intros c req any_sym Hwin Hlen Hreq.
    rewrite (get_window_current env N any_sym s name c req Hcur Hwin Hreq).
    now rewrite Hlen, Nat.eqb_refl.
  - intros c0 e f fn n w s' Hwin Hname Hf Hfn Hn Hfirst.
    assert (Hne : name <> "win").
    { intros ->. rewrite Hwin in Hname. discriminate. }
    assert (Hnc : name <> "cur_win_name").
    { intros ->. rewrite Hcur in Hname. discriminate. }
    destruct (generate_shape env e f fn n N sym) as (r & t & Hshape).
    rewrite (compute_window_after_generate env N name sym s _ e f fn n r
               Hname Hf Hfn Hn (Hshape e s eq_refl)) in Hfirst.
    injection Hfirst as Hw Hs'.
    set (w0 := fst (settle fn N r)) in *.
    assert (Hname' : win_dict s' !! name = Some (VEntry (with_stats N w0 e))).
    { subst s'. cbn [win_dict].
      rewrite lookup_insert_ne by (intros E; now apply Hne).
      apply lookup_insert_eq. }
    assert (Hcur' : win_dict s' !! "cur_win_name" = Some (VStr name)).
    { subst s'. cbn [win_dict].
      rewrite lookup_insert_ne by discriminate.
      rewrite lookup_insert_ne by assumption. exact Hcur. }
    assert (Hwin' : win_dict s' !! "win" = Some (VWin w)).
    { subst s'. cbn [win_dict]. rewrite Hw. apply lookup_insert_eq. }
    assert (Hsecond : compute_window env N name sym s'
                      = (Ok w, mk_state (win_dict s')
                                 (trace s' ++ t ++ snd (settle fn N r)))).
    { rewrite (compute_window_after_generate env N name sym s' _
                 (with_stats N w0 e) f fn n r Hname' Hf Hfn Hn
                 (Hshape (with_stats N w0 e) s' eq_refl)).
      fold w0. rewrite with_stats_twice, Hw. cbn [trace]. rewrite <- app_assoc.
      f_equal. f_equal. subst s'. cbn [win_dict]. rewrite Hw.
      now apply store_twice. }
    split.
    + eexists. split; [exact Hsecond|reflexivity].
    + intros l ->.
      rewrite (get_window_current env N sym s' name l None Hcur' Hwin'
                 (or_introl eq_refl)).
      destruct (Nat.eqb_spec (length l) N) as [E|E].
      * repeat split; reflexivity.
      * rewrite Hsecond. repeat split; try reflexivity. intros E'. contradiction.
Qed.

Lemma get_window_cache_witness :
  get_window test_double 2 None true cached_state
  = (Ok (Array [Fin 1%R; Fin 1%R]), cached_state).
Proof.
  assert (Hcur : win_dict cached_state !! "cur_win_name" = Some (VStr "Rectangular"))
    by (vm_compute; reflexivity).
  apply (proj1 (get_window_cache test_double cached_state 2 false "Rectangular" Hcur)).
  - vm_compute. reflexivity.
  - reflexivity.
  - left. reflexivity.
Defined.

Lemma both_state_cur :
  win_dict both_state !! "cur_win_name" = Some (VStr "Rectangular").
Proof. vm_compute. reflexivity. Qed.

Lemma both_state_bh5 :
  win_dict both_state !! "Blackmanharris_5" = Some (VEntry bh5_entry).
Proof. vm_compute. reflexivity. Qed.

Lemma both_state_rect :
  win_dict both_state !! "Rectangular" = Some (VEntry rect_entry).
Proof. vm_compute. reflexivity. Qed.

(** A request for a family that is not current computes and stores its
    window, and leaves ['cur_win_name'] alone. *)
Lemma first_call_stores :
  get_window test_double 1 (Some "Blackmanharris_5") true both_state
  = (Ok (Array [NaN]), stale_state).
Proof.
  rewrite (get_window_other test_double 1 true both_state "Rectangular"
             "Blackmanharris_5" both_state_cur) by discriminate.
  rewrite (compute_window_after_generate test_double 1 "Blackmanharris_5"
             true both_state _ bh5_entry (Some fn_blackmanharris5) bh5_name 0
             (Ok (Some (Array [NaN]))) both_state_bh5 eq_refl eq_refl eq_refl
             (generate_preset5 test_double bh5_entry 1 true both_state _
                blackmanharris5_degenerate)).
  cbn [settle fst snd]. unfold stale_state. rewrite app_nil_r. reflexivity.
Qed.

(** The stored window is not tied to the family either.  After
    [get_window(d, 1, "Blackmanharris_5", sym=True)] on a dictionary
    whose current family is "Rectangular", the call
    [get_window(d, 1, sym=True)] returns the stored Blackman-Harris array
    [[nan]] without invoking a generator, whereas computing the
    rectangular window gives [[1]]. *)
Lemma get_window_stale_cache :
  get_window test_double 1 (Some "Blackmanharris_5") true both_state
  = (Ok (Array [NaN]), stale_state)
  /\ get_window test_double 1 None true stale_state
     = (Ok (Array [NaN]), stale_state)
  /\ fst (compute_window test_double 1 "Rectangular" true stale_state)
     = Ok (Array [Fin 1%R])
  /\ Array [NaN] <> Array [Fin 1%R].
Proof.
  assert (Hcur : win_dict stale_state !! "cur_win_name" = Some (VStr "Rectangular")).
  { unfold stale_state. cbn [win_dict]. rewrite !lookup_insert_ne by discriminate.
    exact both_state_cur. }
  assert (Hrect : win_dict stale_state !! "Rectangular" = Some (VEntry rect_entry)).
  { unfold stale_state. cbn [win_dict]. rewrite !lookup_insert_ne by discriminate.
    exact both_state_rect. }
  split; [exact first_call_stores|]. split; [|split].
  - rewrite (get_window_current test_double 1 true stale_state "Rectangular"
               [NaN] None Hcur) by (try apply lookup_insert_eq; now left).
    reflexivity.
  - rewrite (compute_window_after_generate test_double 1 "Rectangular" true
               stale_state
               (mk_state (win_dict stale_state)
                  (trace stale_state
                   ++ [Call (fn_ext scipy_signal_windows "boxcar") 1 [] true]))
               rect_entry (Some (fn_ext scipy_signal_windows "boxcar"))
               "boxcar" 0 (Ok (Some (ones 1))) Hrect eq_refl eq_refl eq_refl
               eq_refl).
    cbn [settle fst]. now rewrite normalized_ones by lia.
  - intros H. discriminate H.
Qed.

Section SymmetryFacts.
Local Open Scope R_scope.

(** One sample of a periodic window: the only sample point is 0 and the
    window is the sum of its coefficients. *)
Lemma blackmanharris5_single :
  exists sigma : R, 0 < sigma /\ blackmanharris5 1 false = Ok (Array [Fin sigma]).
Proof.
  unfold blackmanharris5, a_blackmanharris5.
  rewrite calc_cosine_window_array. cbn [seq map].
  pose proof (w_spec_real 1 false 3.232153788877343e-001
                [-4.714921439576260e-001; 1.755341299601972e-001;
                 -2.849699010614994e-002; 1.261357088292677e-003] 0
                ltac:(discriminate)) as Hw.
  cbn [map] in Hw. rewrite Hw. clear Hw.
  cbn [period_length Z.of_nat real_terms fold_left].
  replace (INR 0 * 2 * PI / IZR (Z.of_nat 1)) with 0 by (simpl; field).
  rewrite !Rmult_0_r, cos_0.
  eexists. split; [|reflexivity]. lra.
Qed.

Lemma normalized_single (sigma : R) :
  sigma <> 0 ->
  exists y, nd_div_s (Array [Fin sigma]) (cgain_of 1 (Array [Fin sigma]))
            = Array [Fin y].
Proof.
  intros Hs. unfold cgain_of, nd_sum, sum_list. cbn [fold_left].
  unfold np_add. replace (INR 1) with 1 by reflexivity.
  rewrite np_div_fin by lra. unfold nd_div_s, nd_map. cbn [map].
  rewrite np_div_fin by (intros E; apply Hs; lra). eauto.
Qed.

End SymmetryFacts.

Lemma first_sym_call :
  get_window test_double 1 None true bh5_state = (Ok (Array [NaN]), sym_state).
Proof.
  rewrite (get_window_current test_double 1 true bh5_state "Blackmanharris_5"
             [] None bh5_state_cur bh5_state_win (or_introl eq_refl)).
  cbn [length Nat.eqb].
  rewrite (compute_window_after_generate test_double 1 "Blackmanharris_5"
             true bh5_state _ bh5_entry (Some fn_blackmanharris5) bh5_name 0
             (Ok (Some (Array [NaN]))) bh5_state_entry eq_refl eq_refl eq_refl
             (generate_preset5 test_double bh5_entry 1 true bh5_state _
                blackmanharris5_degenerate)).
  cbn [settle fst snd]. unfold sym_state. rewrite app_nil_r. reflexivity.
Qed.

(** C9, the claim as stated fails: [sym] is no part of the test for the
    stored window.  After [get_window(d, 1, sym=True)] for the 5-term
    Blackman-Harris window (which stores [[nan]]), the call
    [get_window(d, 1, sym=False)] returns the stored array without
    invoking the generator, whereas computing the periodic window gives
    a finite sample. *)
Lemma get_window_ignores_sym :
  get_window test_double 1 None true bh5_state = (Ok (Array [NaN]), sym_state)
  /\ get_window test_double 1 None false sym_state
     = (Ok (Array [NaN]), sym_state)
  /\ exists y, fst (compute_window test_double 1 "Blackmanharris_5" false
                      sym_state)
               = Ok (Array [Fin y])
               /\ Array [NaN] <> Array [Fin y].
Proof.
  assert (Hcur : win_dict sym_state !! "cur_win_name"
                 = Some (VStr "Blackmanharris_5")).
  { unfold sym_state. cbn [win_dict]. rewrite !lookup_insert_ne by discriminate.
    exact bh5_state_cur. }
  split; [exact first_sym_call|]. split.
  - rewrite (get_window_current test_double 1 false sym_state "Blackmanharris_5"
               [NaN] None Hcur) by (try apply lookup_insert_eq; now left).
    reflexivity.
  - destruct blackmanharris5_single as (sigma & Hpos & Hbh).
    destruct (normalized_single sigma) as [y Hy]; [lra|].
    exists y. split; [|intros H; discriminate H].
    assert (Hentry : win_dict sym_state !! "Blackmanharris_5"
                     = Some (VEntry (with_stats 1 (Array [NaN]) bh5_entry))).
    { unfold sym_state. cbn [win_dict].
      rewrite lookup_insert_ne by discriminate. apply lookup_insert_eq. }
    rewrite (compute_window_after_generate test_double 1 "Blackmanharris_5"
               false sym_state _ (with_stats 1 (Array [NaN]) bh5_entry)
               (Some fn_blackmanharris5) bh5_name 0
               (Ok (Some (Array [Fin sigma]))) Hentry eq_refl eq_refl eq_refl
               (generate_preset5 test_double _ 1 false sym_state _ Hbh)).
    cbn [settle fst]. now rewrite Hy.
Qed.

(** *** Selecting a window *)

Section SelectionFacts.
Variable env : environment.

Lemma bind_inv {A B} (m : M A) (k : A -> M B) (s s' : state) (b : B) :
  bind m k s = (Ok b, s') ->
  exists a s1, m s = (Ok a, s1) /\ k a s1 = (Ok b, s').
Proof.
  unfold bind. destruct (m s) as [[a|ex] s1]; [|discriminate].
  intros H. now exists a, s1.
Qed.

Lemma bind_ok {A B} (m : M A) (k : A -> M B) (s s1 : state) (a : A) :
  m s = (Ok a, s1) -> bind m k s = k a s1.
Proof. intros H. unfold bind. now rewrite H. Qed.

Lemma entry_get_inv (k : string) (s s' : state) (e : entry) :
  entry_get k s = (Ok e, s') ->
  s' = s /\ win_dict s !! k = Some (VEntry e).
Proof.
  unfold entry_get. mred. destruct (win_dict s !! k) as [[?|?|e0]|];
    try discriminate. intros [= -> ->]. now split.
Qed.

Lemma entry_update_inv (k : string) (F : entry -> entry) (s s' : state) :
  entry_update k F s = (Ok tt, s') ->
  exists e, win_dict s !! k = Some (VEntry e)
            /\ s' = mk_state (<[ k := VEntry (F e) ]> (win_dict s)) (trace s).
Proof.
  unfold entry_update. mred.
  destruct (win_dict s !! k) as [[?|?|e]|]; try discriminate.
  intros [= <-]. now exists e.
Qed.

Lemma known_or_rectangular_shape (d0 : gmap string value) (win_name : string)
    (s : state) :
  exists wn t,
    known_or_rectangular d0 win_name s
    = (Ok wn, mk_state (win_dict s) (trace s ++ t))
    /\ (is_Some (d0 !! win_name) -> wn = win_name /\ t = [])
    /\ (d0 !! win_name = None ->
        wn = "Rectangular" /\ t = [Log Warning (Unknown_window_name win_name)]).
Proof.
  unfold known_or_rectangular. destruct (decide (is_Some (d0 !! win_name))) as [Hs|Hn].
  - exists win_name, []. unfold ret. rewrite state_eta.
    split; [reflexivity|]. split; [intros _; now split|].
    intros E. rewrite E in Hs. destruct Hs as [v Hv]. discriminate.
  - exists "Rectangular", [Log Warning (Unknown_window_name win_name)].
    split; [reflexivity|]. split; [intros H; contradiction|].
    intros _. now split.
Qed.

(** The lookup of the function object writes to the log only and gives
    the name back, or "Rectangular". *)
Lemma lookup_fnct_shape (fn wn : string) (n0 : nat) :
  exists r t, (forall s, lookup_fnct env fn wn n0 s
                         = (r, mk_state (win_dict s) (trace s ++ t)))
    /\ (forall f wn' n', r = Ok (f, wn', n') -> wn' = wn \/ wn' = "Rectangular")
    /\ ((forall m a, rsplit_dot fn = Some (m, a) ->
                     exists o, getattr_module env m a = Ok o) ->
        exists x, r = Ok x).
Proof.
  unfold lookup_fnct. destruct (rsplit_dot fn) as [[m a]|].
  - destruct (getattr_module env m a) as [[f|]|ex] eqn:E.
    + exists (Ok (Some f, wn, n0)), []. repeat split.
      * intros s. unfold bind, lift, ret. now rewrite state_eta.
      * intros ? ? ? [= _ <- _]. now left.
      * intros _. eauto.
    + exists (Ok (rectangular_instead env)),
        [Log Error (Found_no_valid_window_function fn)]. repeat split.
      * intros ? ? ? [= _ <- _]. now right.
      * intros _. eauto.
    + exists (Raise ex), []. repeat split.
      * intros s. unfold bind, lift. now rewrite state_eta.
      * intros ? ? ? [=].
      * intros H. destruct (H m a eq_refl) as [o Ho]. rewrite E in Ho.
        discriminate.
  - destruct (getattr_sig_windows env fn) as [f|].
    + exists (Ok (Some f, wn, n0)), []. repeat split.
      * intros s. unfold ret. now rewrite state_eta.
      * intros ? ? ? [= _ <- _]. now left.
      * intros _. eauto.
    + exists (Ok (rectangular_instead env)),
        [Log Error (No_window_function_in_scipy fn)]. repeat split.
      * intros ? ? ? [= _ <- _]. now right.
      * intros _. eauto.
Qed.

Lemma store_selection_ok (f : option fnct) (wn : string) (n : nat) (s : state)
    (e : entry) :
  win_dict s !! wn = Some (VEntry e) ->
  wn <> "win" -> wn <> "cur_win_name" ->
  store_selection f wn n s
  = (Ok tt, mk_state (selection_dict (win_dict s) wn f n e) (trace s)).
Proof.
  intros He Hw Hc. unfold store_selection, dict_set. mred.
  rewrite lookup_insert_ne by (intros E; now apply Hw).
  rewrite lookup_insert_ne by (intros E; now apply Hc).
  rewrite He. reflexivity.
Qed.

Lemma store_selection_inv (f : option fnct) (wn : string) (n : nat)
    (s s' : state) :
  store_selection f wn n s = (Ok tt, s') ->
  exists e, win_dict s !! wn = Some (VEntry e)
            /\ wn <> "win" /\ wn <> "cur_win_name"
            /\ s' = mk_state (selection_dict (win_dict s) wn f n e) (trace s).
Proof.
  unfold store_selection, dict_set. mred.
  destruct (decide (wn = "win")) as [->|Hw].
  { rewrite lookup_insert_eq. discriminate. }
  rewrite lookup_insert_ne by (intros E; now apply Hw).
  destruct (decide (wn = "cur_win_name")) as [->|Hc].
  { rewrite lookup_insert_eq. discriminate. }
  rewrite lookup_insert_ne by (intros E; now apply Hc).
  destruct (win_dict s !! wn) as [[?|?|e]|] eqn:E; try discriminate.
  intros [= <-]. exists e. repeat split; assumption.
Qed.

(** What a successful [set_window_name] leaves behind. *)
Lemma set_window_name_inv (win_name : string) (s s' : state) (f : option fnct) :
  set_window_name env win_name s = (Ok f, s') ->
  exists wn e n t,
    win_dict s !! wn = Some (VEntry e)
    /\ wn <> "win" /\ wn <> "cur_win_name"
    /\ s' = mk_state (selection_dict (win_dict s) wn f n e) (trace s ++ t).
Proof.
  intros H. unfold set_window_name in H.
  apply bind_inv in H as (d0 & s0 & H0 & H). injection H0 as <- <-.
  apply bind_inv in H as (wn & s1 & H1 & H).
  destruct (known_or_rectangular_shape (win_dict s) win_name s)
    as (wn' & t1 & Hk & _). rewrite Hk in H1. injection H1 as <- <-.
  apply bind_inv in H as (d & s2 & H2 & H).
  apply entry_get_inv in H2 as [-> Hd]. cbn [win_dict] in Hd.
  apply bind_inv in H as (fn & s3 & H3 & H).
  destruct (fn_name d) as [fn'|]; [|discriminate]. injection H3 as <- <-.
  apply bind_inv in H as ([[f' wn''] n'] & s4 & H4 & H).
  destruct (lookup_fnct_shape fn' wn'
              (match par d with Some ps => length ps | None => 0 end))
    as (r & t2 & Hl & _). rewrite Hl in H4. injection H4 as -> <-.
  apply bind_inv in H as ([] & s5 & H5 & H). injection H as <- <-.
  apply store_selection_inv in H5 as (e & He & Hw & Hc & ->).
  cbn [win_dict trace] in *. exists wn'', e, n', (t1 ++ t2).
  rewrite app_assoc. repeat split; assumption.
Qed.

Lemma selection_dict_win (d : gmap string value) (wn : string)
    (f : option fnct) (n : nat) (e : entry) :
  wn <> "win" -> selection_dict d wn f n e !! "win" = Some (VWin (Array [])).
Proof.
  intros Hw. unfold selection_dict. rewrite lookup_insert_ne by assumption.
  apply lookup_insert_eq.
Qed.

Lemma selection_dict_cur (d : gmap string value) (wn : string)
    (f : option fnct) (n : nat) (e : entry) :
  wn <> "win" -> wn <> "cur_win_name" ->
  selection_dict d wn f n e !! "cur_win_name" = Some (VStr wn).
Proof.
  intros Hw Hc. unfold selection_dict. rewrite lookup_insert_ne by assumption.
  rewrite lookup_insert_ne by discriminate. apply lookup_insert_eq.
Qed.

End SelectionFacts.

(** *** Parameter updates *)

Lemma update_one_param_inv (cur : string) (i : nat) (led : npfloat -> npfloat)
    (s s' : state) :
  update_one_param cur i led s = (Ok tt, s') ->
  exists e n,
    win_dict s !! cur = Some (VEntry e) /\ n_par e = Some n
    /\ ((n <= i /\ s' = s)
        \/ (i < n /\ exists ps p,
               par e = Some ps /\ ps !! i = Some p
               /\ s' = mk_state (<[ cur := VEntry (with_clamped i led ps p e) ]>
                                   (win_dict s)) (trace s))).
Proof.
  intros H. unfold update_one_param in H.
  apply bind_inv in H as (e & s1 & H1 & H).
  apply entry_get_inv in H1 as [-> He].
  apply bind_inv in H as (n & s1 & H1 & H).
  destruct (n_par e) as [n'|] eqn:En; [|discriminate]. injection H1 as <- <-.
  exists e, n'. split; [exact He|]. split; [exact En|].
  destruct (Nat.ltb_spec i n') as [Hlt|Hge].
  - right. split; [exact Hlt|].
    apply bind_inv in H as (ps & s1 & H1 & H).
    destruct (par e) as [ps'|] eqn:Ep; [|discriminate]. injection H1 as <- <-.
    destruct (ps' !! i) as [p|] eqn:Ei; [|discriminate].
    exists ps', p. split; [reflexivity|]. split; [exact Ei|].
    unfold set_par_val in H.
    rewrite (bind_ok _ _ s s e (entry_get_some s cur e He)) in H.
    rewrite Ep in H. unfold lift at 1 in H. cbn [field] in H.
    unfold bind at 1 in H. rewrite Ei in H.
    apply entry_update_inv in H as (e0 & He0 & ->).
    rewrite He in He0. injection He0 as <-. reflexivity.
  - left. split; [exact Hge|]. now injection H as <-.
Qed.

(** A parameter update leaves the keys that are not window entries. *)
Lemma update_one_param_keeps (cur : string) (i : nat) (led : npfloat -> npfloat)
    (s s' : state) (k : string) (v : value) :
  update_one_param cur i led s = (Ok tt, s') ->
  win_dict s !! k = Some v -> (forall e, v <> VEntry e) ->
  win_dict s' !! k = Some v.
Proof.
  intros H Hk Hv. apply update_one_param_inv in H as (e & n & He & _ & H).
  destruct H as [[_ ->]|(_ & ps & p & _ & _ & ->)]; [exact Hk|].
  cbn [win_dict]. rewrite lookup_insert_ne; [exact Hk|].
  intros ->. rewrite He in Hk. injection Hk as <-. now apply (Hv e).
Qed.

Lemma update_win_params_inv (env : environment)
    (led1 led2 : npfloat -> npfloat) (s s' : state) :
  update_win_params env led1 led2 s = (Ok tt, s') ->
  exists cur f s1 s2,
    win_dict s !! "cur_win_name" = Some (VStr cur)
    /\ set_window_name env cur s = (Ok f, s1)
    /\ update_one_param cur 1 led2 s1 = (Ok tt, s2)
    /\ update_one_param cur 0 led1 s2 = (Ok tt, s').
Proof.
  intros H. unfold update_win_params in H.
  apply bind_inv in H as (v & s0 & H0 & H).
  revert H0. unfold dict_get. mred.
  destruct (win_dict s !! "cur_win_name") as [v0|] eqn:Ecur; [|discriminate].
  intros [= -> ->].
  apply bind_inv in H as (cur & s1 & H0 & H).
  destruct v as [cur'| |]; try discriminate. injection H0 as <- <-.
  apply bind_inv in H as (f & s1 & H1 & H).
  apply bind_inv in H as ([] & s2 & H2 & H).
  exists cur', f, s1, s2. repeat split; assumption.
Qed.

(** With an empty stored window and [N >= 1] every request runs the try
    block. *)
Lemma empty_cache_computes (env : environment) (s : state) (wn : string)
    (N : nat) :
  win_dict s !! "cur_win_name" = Some (VStr wn) ->
  win_dict s !! "win" = Some (VWin (Array [])) ->
  (1 <= N)%nat ->
  computes_anew env s wn N.
Proof.
  intros Hcur Hwin HN req sym e f fn n r s1 He Hf Hfn Hn Hgen.
  assert (Hmiss : misses_cache s N req (default wn req)).
  { exists wn. split; [exact Hcur|]. destruct req as [o|]; cbn [default].
    - destruct (String.eqb_spec o wn) as [->|Hne].
      + right. split; [now right|]. split; [reflexivity|]. exists [].
        split; [exact Hwin|]. simpl. lia.
      + left. now split.
    - right. split; [now left|]. split; [reflexivity|]. exists [].
      split; [exact Hwin|]. simpl. lia. }
  rewrite (get_window_miss env N sym s req _ Hmiss).
  apply (compute_window_after_generate env N _ sym s s1 e f fn n r
           He Hf Hfn Hn Hgen).
Qed.

(** C10 (as amended).  Every call of [set_window_name] that returns --
    also one that selects the family that is current already -- leaves
    [win_dict['win']] as the empty list and the returned function object
    in the entry of the current family, and so does every parameter
    update that returns, which calls [set_window_name] first.  The next
    [get_window] with [N >= 1] is then not answered from the stored
    window: it runs the try block for the requested family and returns
    and stores the normalized array of that run. *)
Theorem set_window_name_invalidates_cache (env : environment) :
  (forall (name : string) (s s' : state) (f : option fnct),
      set_window_name env name s = (Ok f, s') ->
      win_dict s' !! "win" = Some (VWin (Array []))
      /\ exists wn e,
           win_dict s' !! "cur_win_name" = Some (VStr wn)
           /\ win_dict s' !! wn = Some (VEntry e)
           /\ win_fnct e = Some f /\ is_Some (n_par e)
           /\ forall N : nat, (1 <= N)%nat -> computes_anew env s' wn N)
  /\ (forall (led1 led2 : npfloat -> npfloat) (s s' : state),
        update_win_params env led1 led2 s = (Ok tt, s') ->
        win_dict s' !! "win" = Some (VWin (Array []))
        /\ exists wn,
             win_dict s' !! "cur_win_name" = Some (VStr wn)
             /\ forall N : nat, (1 <= N)%nat -> computes_anew env s' wn N).
Proof.
  assert (Hsel : forall name s s' f,
             set_window_name env name s = (Ok f, s') ->
             win_dict s' !! "win" = Some (VWin (Array []))
             /\ exists wn e,
                  win_dict s' !! "cur_win_name" = Some (VStr wn)
                  /\ win_dict s' !! wn = Some (VEntry e)
                  /\ win_fnct e = Some f /\ is_Some (n_par e)).
  { intros name s s' f H.
    apply set_window_name_inv in H as (wn & e & n & t & _ & Hw & Hc & ->).
    cbn [win_dict]. split; [now apply selection_dict_win|].
    exists wn, (selected f n e). split; [now apply selection_dict_cur|].
    split; [apply lookup_insert_eq|]. split; [reflexivity|]. cbn. eauto. }
  split.
  - intros name s s' f H.
    destruct (Hsel name s s' f H) as (Hwin & wn & e & Hcur & He & Hf & Hn).
    split; [exact Hwin|]. exists wn, e. repeat (split; [assumption|]).
    intros N HN. now apply empty_cache_computes.
  - intros led1 led2 s s' H.
    apply update_win_params_inv in H as (cur & f & s1 & s2 & _ & H1 & H2 & H3).
    destruct (Hsel cur s s1 f H1) as (Hwin & wn & _ & Hcur & _).
    assert (Hwin' : win_dict s' !! "win" = Some (VWin (Array []))).
    { apply (update_one_param_keeps cur 0 led1 s2 s' _ _ H3); [|discriminate].
      apply (update_one_param_keeps cur 1 led2 s1 s2 _ _ H2); [exact Hwin|].
      discriminate. }
    assert (Hcur' : win_dict s' !! "cur_win_name" = Some (VStr wn)).
    { apply (update_one_param_keeps cur 0 led1 s2 s' _ _ H3); [|discriminate].
      apply (update_one_param_keeps cur 1 led2 s1 s2 _ _ H2); [exact Hcur|].
      discriminate. }
    split; [exact Hwin'|]. exists wn. split; [exact Hcur'|].
    intros N HN. now apply empty_cache_computes.
Qed.

Lemma set_window_name_invalidates_cache_witness :
  win_dict cached_state !! "win" = Some (VWin (Array [Fin 1%R; Fin 1%R]))
  /\ win_dict (snd (set_window_name test_double "Rectangular" cached_state))
       !! "win" = Some (VWin (Array []))
  /\ get_window test_double 2 None true
       (snd (set_window_name test_double "Rectangular" cached_state))
     = (Ok (nd_div_s (ones 2) (cgain_of 2 (ones 2))),
        mk_state
          (<[ "win" := VWin (nd_div_s (ones 2) (cgain_of 2 (ones 2))) ]>
             (<[ "Rectangular" := VEntry (with_stats 2 (ones 2) rect_entry) ]>
                (win_dict (snd (set_window_name test_double "Rectangular"
                                  cached_state)))))
          (trace (snd (set_window_name test_double "Rectangular" cached_state))
           ++ [Call (fn_ext scipy_signal_windows "boxcar") 2 [] true])).
Proof.
  assert (H : set_window_name test_double "Rectangular" cached_state
              = (Ok (Some (fn_ext scipy_signal_windows "boxcar")),
                 snd (set_window_name test_double "Rectangular" cached_state)))
    by (vm_compute; reflexivity).
  destruct (proj1 (set_window_name_invalidates_cache test_double)
              "Rectangular" cached_state _ _ H)
    as (Hwin & wn & e & Hcur & _ & _ & _ & Hnext).
  split; [vm_compute; reflexivity|]. split; [exact Hwin|].
  assert (Hwn : wn = "Rectangular").
  { vm_compute in Hcur. now injection Hcur. }
  subst wn.
  pose proof (Hnext 2%nat ltac:(lia) None true rect_entry
                (Some (fn_ext scipy_signal_windows "boxcar")) "boxcar" 0%nat
                (Ok (Some (ones 2)))
                (mk_state
                   (win_dict (snd (set_window_name test_double "Rectangular"
                                     cached_state)))
                   (trace (snd (set_window_name test_double "Rectangular"
                                  cached_state))
                    ++ [Call (fn_ext scipy_signal_windows "boxcar") 2 [] true]))
                ltac:(vm_compute; reflexivity) eq_refl eq_refl eq_refl eq_refl)
    as Hget.
  cbn [settle fst snd default] in Hget. rewrite app_nil_r in Hget. exact Hget.
Defined.

(** C10, the claim as stated fails: the stored window is the empty list
    after [set_window_name], and a request for [N = 0] points has the
    length of the empty list, so that the next [get_window] returns the
    stored list; no window function is called, the dictionary and the
    log stay as they are. *)
Lemma get_window_zero_points_served :
  set_window_name test_double "Rectangular" rect_state
  = (Ok (Some (fn_ext scipy_signal_windows "boxcar")),
     snd (set_window_name test_double "Rectangular" rect_state))
  /\ get_window test_double 0 None false
       (snd (set_window_name test_double "Rectangular" rect_state))
     = (Ok (Array []),
        snd (set_window_name test_double "Rectangular" rect_state)).
Proof. vm_compute. split; reflexivity. Qed.

(** *** Unknown window names *)

Lemma set_window_name_returns (env : environment) (name : string) (s : state)
    (wn : string) (t1 : list event) (e er : entry) (fn : string) :
  known_or_rectangular (win_dict s) name s
  = (Ok wn, mk_state (win_dict s) (trace s ++ t1)) ->
  win_dict s !! wn = Some (VEntry e) ->
  fn_name e = Some fn ->
  importable env fn ->
  win_dict s !! "Rectangular" = Some (VEntry er) ->
  wn <> "win" -> wn <> "cur_win_name" ->
  exists f wn' n e0 t2,
    set_window_name env name s
    = (Ok f, mk_state (selection_dict (win_dict s) wn' f n e0)
               (trace s ++ t1 ++ t2))
    /\ win_dict s !! wn' = Some (VEntry e0)
    /\ (wn' = wn \/ wn' = "Rectangular").
Proof.
  intros Hk He Hfn Himp Hr Hw Hc.
  destruct (lookup_fnct_shape env fn wn
              (match par e with Some ps => length ps | None => 0 end))
    as (r & t2 & Hl & Hwn & Hok).
  destruct (Hok Himp) as [[[f wn'] n] ->].
  assert (Hcases : wn' = wn \/ wn' = "Rectangular") by now apply (Hwn f wn' n).
  assert (He0 : exists e0, win_dict s !! wn' = Some (VEntry e0)
                           /\ wn' <> "win" /\ wn' <> "cur_win_name").
  { destruct Hcases as [-> | ->]; [now exists e|]. exists er.
    repeat split; [assumption|discriminate..]. }
  destruct He0 as (e0 & He0 & Hw' & Hc').
  exists f, wn', n, e0, t2. split; [|now split].
  unfold set_window_name.
  rewrite (bind_ok get_dict _ s s (win_dict s) eq_refl).
  rewrite (bind_ok _ _ _ _ _ Hk).
  rewrite (bind_ok _ _ _ _ _
             (entry_get_some (mk_state (win_dict s) (trace s ++ t1)) wn e He)).
  rewrite Hfn. unfold lift. cbn [field].
  rewrite (bind_ok _ _ _ _ fn eq_refl).
  rewrite (bind_ok _ _ _ _ _ (Hl _)). cbn [win_dict trace].
  rewrite (bind_ok _ _ _ _ _
             (store_selection_ok f wn' n
                (mk_state (win_dict s) ((trace s ++ t1) ++ t2)) e0 He0 Hw' Hc')).
  unfold ret. cbn [win_dict trace]. now rewrite app_assoc.
Qed.

(** X28.  Where the fallback of [set_window_name] works.  On a
    dictionary that holds an entry "Rectangular" whose function name can
    be looked up, [set_window_name] does not raise for a name that is not
    a key of the dictionary: it logs the warning, makes "Rectangular" the
    current family, empties the stored window and returns the function
    object that it stores in the "Rectangular" entry.  It does not raise
    either for a name bound to a window entry of that kind. *)
Theorem set_window_name_unknown (env : environment) (s : state) (er : entry)
    (fr : string) :
  win_dict s !! "Rectangular" = Some (VEntry er) ->
  fn_name er = Some fr ->
  importable env fr ->
  (forall name : string,
      win_dict s !! name = None ->
      exists f s' t e',
        set_window_name env name s = (Ok f, s')
        /\ trace s' = trace s ++ Log Warning (Unknown_window_name name) :: t
        /\ win_dict s' !! "cur_win_name" = Some (VStr "Rectangular")
        /\ win_dict s' !! "win" = Some (VWin (Array []))
        /\ win_dict s' !! "Rectangular" = Some (VEntry e')
        /\ win_fnct e' = Some f)
  /\ (forall (name : string) (e : entry) (fn : string),
        win_dict s !! name = Some (VEntry e) ->
        fn_name e = Some fn -> importable env fn ->
        name <> "win" -> name <> "cur_win_name" ->
        exists f s', set_window_name env name s = (Ok f, s')).
Proof.
  intros Hr Hfr Himp. split.
  - intros name Hnone.
    destruct (known_or_rectangular_shape (win_dict s) name s)
      as (wn & t1 & Hk & _ & Hunk).
    destruct (Hunk Hnone) as [-> ->].
    destruct (set_window_name_returns env name s "Rectangular" _ er er fr
                Hk Hr Hfr Himp Hr)
      as (f & wn' & n & e0 & t2 & Hset & He0 & Hwn); [discriminate..|].
    assert (wn' = "Rectangular") as -> by now destruct Hwn.
    exists f, (mk_state (selection_dict (win_dict s) "Rectangular" f n e0)
                 (trace s ++ [Log Warning (Unknown_window_name name)] ++ t2)),
      t2, (selected f n e0).
    split; [exact Hset|]. cbn [win_dict trace]. split; [reflexivity|].
    split; [now apply selection_dict_cur|].
    split; [now apply selection_dict_win|].
    split; [apply lookup_insert_eq|reflexivity].
  - intros name e fn He Hfn Himp' Hw Hc.
    destruct (known_or_rectangular_shape (win_dict s) name s)
      as (wn & t1 & Hk & Hknown & _).
    destruct (Hknown (ex_intro _ _ He)) as [-> ->].
    destruct (set_window_name_returns env name s name _ e er fn
                Hk He Hfn Himp' Hr Hw Hc)
      as (f & wn' & n & e0 & t2 & Hset & _).
    eauto.
Qed.

Lemma set_window_name_unknown_witness :
  exists f s' t e',
    set_window_name test_double "Nonexistent" rect_state = (Ok f, s')
    /\ trace s' = trace rect_state
                  ++ Log Warning (Unknown_window_name "Nonexistent") :: t
    /\ win_dict s' !! "cur_win_name" = Some (VStr "Rectangular")
    /\ win_dict s' !! "win" = Some (VWin (Array []))
    /\ win_dict s' !! "Rectangular" = Some (VEntry e')
    /\ win_fnct e' = Some f.
Proof.
  apply (proj1 (set_window_name_unknown test_double rect_state rect_entry "boxcar"
                  ltac:(vm_compute; reflexivity) eq_refl
                  ltac:(intros m a H; discriminate H))).
  vm_compute. reflexivity.
Defined.

(** C7.  The fallback that [set_window_name] announces is missed where
    the dictionary has no key "Rectangular": [get_windows_dict(["Hann"],
    "Hann")] returns such a dictionary, and resolving "Nonexistent" on it
    logs the warning ("using rectangular window instead") and then
    raises [KeyError("Rectangular")] at the subscript of the
    dictionary. *)
Lemma set_window_name_without_rectangular :
  fst (get_windows_dict test_double ["Hann"] "Hann" empty_state) = Ok tt
  /\ win_dict hann_state !! "Nonexistent" = None
  /\ fst (set_window_name test_double "Nonexistent" hann_state)
     = Raise (KeyError "Rectangular")
  /\ trace (snd (set_window_name test_double "Nonexistent" hann_state))
     = [Log Warning (Unknown_window_name "Nonexistent")].
Proof. vm_compute. repeat split; reflexivity. Qed.

(** *** Clamping *)

Section ClampFacts.
Local Open Scope R_scope.

Lemma clamp_fin (x lo hi : R) :
  lo <= hi ->
  exists y, clamp (Fin x) (Fin lo) (Fin hi) = Fin y /\ lo <= y <= hi
            /\ (lo <= x <= hi -> y = x) /\ (x < lo -> y = lo) /\ (hi < x -> y = hi).
Proof.
  intros Hle. unfold clamp. simpl.
  destruct (Rlt_dec x lo) as [Hlo|Hlo].
  - exists lo. repeat split; try lra.
  - destruct (Rlt_dec hi x) as [Hhi|Hhi].
    + exists hi. repeat split; try lra.
    + exists x. repeat split; try lra.
Qed.

Lemma clamp_kaiser_1000 : clamp (Fin 1000) (Fin 0) (Fin 30) = Fin 30.
Proof.
  destruct (clamp_fin 1000 0 30) as (y & -> & _ & _ & _ & Hhi); [lra|].
  f_equal. apply Hhi. lra.
Qed.

Lemma clamp_kaiser_30 : clamp (Fin 30) (Fin 0) (Fin 30) = Fin 30.
Proof.
  destruct (clamp_fin 30 0 30) as (y & -> & _ & Hin & _); [lra|].
  f_equal. apply Hin. lra.
Qed.

End ClampFacts.

(** With one parameter the [try] block hands the stored value to the
    window function as it is. *)
Lemma generate_one_parameter (env : environment) (e : entry) (f : option fnct)
    (fn : string) (N : nat) (sym : bool) (s : state) (ps : list param)
    (p : param) :
  String.eqb fn "dpss" = false ->
  par e = Some ps -> ps !! 0%nat = Some p ->
  generate env e f fn 1 N sym s = call env f N [par_val p] sym s.
Proof.
  intros Hfn Hps Hp. unfold generate, par_val_at. rewrite Hfn, Hps.
  cbn [field res_bind]. rewrite Hp. reflexivity.
Qed.

(** C6 (as amended).  The clamp is in [update_win_params], not in
    [get_window]: when the parameter update returns, each of the (at most
    two) parameters of the current family holds the value of its line
    edit clamped to its declared [min, max]; [get_window] hands the
    stored value to the generator unchanged. *)
Theorem update_win_params_clamps (env : environment)
    (led1 led2 : npfloat -> npfloat) (s s1 s' : state) (cur : string)
    (f : option fnct) (e : entry) (n : nat) :
  win_dict s !! "cur_win_name" = Some (VStr cur) ->
  set_window_name env cur s = (Ok f, s1) ->
  win_dict s1 !! cur = Some (VEntry e) ->
  n_par e = Some n ->
  update_win_params env led1 led2 s = (Ok tt, s') ->
  exists e',
    win_dict s' !! cur = Some (VEntry e')
    /\ n_par e' = Some n
    /\ ((0 < n)%nat ->
        exists ps p ps',
          par e = Some ps /\ ps !! 0%nat = Some p
          /\ par e' = Some ps' /\ ps' !! 0%nat = Some (clamped led1 p)
          /\ (n = 1%nat ->
              forall fn f0 N sym s0,
                String.eqb fn "dpss" = false ->
                generate env e' f0 fn n N sym s0
                = call env f0 N [clamp (led1 (par_val p)) (par_min p) (par_max p)]
                       sym s0))
    /\ ((1 < n)%nat ->
        exists ps p ps',
          par e = Some ps /\ ps !! 1%nat = Some p
          /\ par e' = Some ps' /\ ps' !! 1%nat = Some (clamped led2 p)).
Proof.
  intros Hcur Hset He Hn Hupd.
  apply update_win_params_inv in Hupd
    as (cur' & f' & s1' & s2 & Hcur' & Hset' & H2 & H3).
  rewrite Hcur in Hcur'. injection Hcur' as <-.
  rewrite Hset in Hset'. injection Hset' as <- <-.
  apply update_one_param_inv in H2 as (e2 & n2 & He2 & Hn2 & H2).
  rewrite He in He2. injection He2 as <-.
  rewrite Hn in Hn2. injection Hn2 as <-.
  apply update_one_param_inv in H3 as (e3 & n3 & He3 & Hn3 & H3).
  destruct H2 as [[Hle2 ->]|(Hlt2 & ps & p1 & Hps & Hp1 & ->)].
  - rewrite He in He3. injection He3 as <-.
    rewrite Hn in Hn3. injection Hn3 as <-.
    destruct H3 as [[Hle3 ->]|(Hlt3 & ps & p0 & Hps & Hp0 & ->)].
    + exists e. split; [exact He|]. split; [exact Hn|]. split; intros; lia.
    + exists (with_clamped 0 led1 ps p0 e). cbn [win_dict].
      split; [apply lookup_insert_eq|]. split; [exact Hn|]. split.
      * intros _. exists ps, p0, (<[ 0%nat := clamped led1 p0 ]> ps).
        split; [exact Hps|]. split; [exact Hp0|]. split; [reflexivity|].
        split; [apply list_lookup_insert_eq; now apply lookup_lt_Some in Hp0|].
        intros -> fn f0 N sym s0 Hfn.
        apply (generate_one_parameter env (with_clamped 0 led1 ps p0 e) f0 fn
                 N sym s0 (<[ 0%nat := clamped led1 p0 ]> ps) (clamped led1 p0)
                 Hfn eq_refl).
        apply list_lookup_insert_eq. now apply lookup_lt_Some in Hp0.
      * intros; lia.
  - cbn [win_dict] in He3. rewrite lookup_insert_eq in He3. injection He3 as <-.
    cbn [with_clamped n_par] in Hn3. rewrite Hn in Hn3. injection Hn3 as <-.
    destruct H3 as [[Hle3 ->]|(Hlt3 & ps3 & p0 & Hps3 & Hp0 & ->)]; [lia|].
    cbn [with_clamped par] in Hps3. injection Hps3 as <-.
    rewrite list_lookup_insert_ne in Hp0 by lia.
    exists (with_clamped 0 led1 (<[ 1%nat := clamped led2 p1 ]> ps) p0
              (with_clamped 1 led2 ps p1 e)).
    cbn [win_dict]. split; [apply lookup_insert_eq|]. split; [exact Hn|].
    assert (H0 : (0 < length (<[ 1%nat := clamped led2 p1 ]> ps))%nat).
    { rewrite length_insert. now apply lookup_lt_Some in Hp0. }
    split.
    + intros _. exists ps, p0. eexists. split; [exact Hps|]. split; [exact Hp0|].
      split; [reflexivity|]. split; [now apply list_lookup_insert_eq|].
      intros ->. lia.
    + intros _. exists ps, p1. eexists. split; [exact Hps|]. split; [exact Hp1|].
      split; [reflexivity|].
      rewrite list_lookup_insert_ne by lia.
      apply list_lookup_insert_eq. now apply lookup_lt_Some in Hp1.
Qed.

Lemma update_win_params_clamps_witness :
  exists e' ps',
    win_dict (snd (update_win_params test_double (fun _ => Fin 1000%R)
                     (fun x => x) kaiser_state)) !! "Kaiser"
    = Some (VEntry e')
    /\ par e' = Some ps'
    /\ ps' !! 0%nat = Some (kaiser_par 30).
Proof.
  destruct (update_win_params_clamps test_double (fun _ => Fin 1000%R)
              (fun x => x) kaiser_state
              (snd (set_window_name test_double "Kaiser" kaiser_state))
              (snd (update_win_params test_double (fun _ => Fin 1000%R)
                      (fun x => x) kaiser_state))
              "Kaiser" (Some kaiser_fn) (kaiser_entry 10) 1)
    as (e' & He' & _ & H0 & _).
  - vm_compute. reflexivity.
  - vm_compute. reflexivity.
  - vm_compute. reflexivity.
  - reflexivity.
  - vm_compute. reflexivity.
  - destruct (H0 ltac:(lia)) as (ps & p & ps' & Hps & Hp & Hps' & Hp' & _).
    injection Hps as <-. injection Hp as <-.
    exists e', ps'. split; [exact He'|]. split; [exact Hps'|].
    rewrite Hp'. unfold clamped, kaiser_par. cbn [par_val par_min par_max par_name].
    now rewrite clamp_kaiser_1000.
Defined.

Section KaiserFacts.
Local Open Scope R_scope.

Lemma kaiser_with_cur (beta : R) :
  win_dict (kaiser_with beta) !! "cur_win_name" = Some (VStr "Kaiser").
Proof. vm_compute. reflexivity. Qed.

Lemma kaiser_with_win (beta : R) :
  win_dict (kaiser_with beta) !! "win" = Some (VWin (Array [])).
Proof. vm_compute. reflexivity. Qed.

Lemma kaiser_with_entry (beta : R) :
  win_dict (kaiser_with beta) !! "Kaiser" = Some (VEntry (kaiser_entry beta)).
Proof. vm_compute. reflexivity. Qed.

Lemma kaiser_with_trace (beta : R) : trace (kaiser_with beta) = [].
Proof. vm_compute. reflexivity. Qed.

(** What [get_window] does on such a dictionary, against the test
    double: the stored value goes to the generator as it is. *)
Lemma get_window_kaiser (beta : R) :
  get_window test_double 2 None false (kaiser_with beta)
  = (Ok (nd_div_s (Array [Fin beta; Fin 1])
                  (cgain_of 2 (Array [Fin beta; Fin 1]))),
     mk_state
       (<[ "win" := VWin (nd_div_s (Array [Fin beta; Fin 1])
                                   (cgain_of 2 (Array [Fin beta; Fin 1]))) ]>
          (<[ "Kaiser" := VEntry (with_stats 2 (Array [Fin beta; Fin 1])
                                    (kaiser_entry beta)) ]>
             (win_dict (kaiser_with beta))))
       [Call kaiser_fn 2 [Fin beta] false]).
Proof.
  rewrite (get_window_current test_double 2 false (kaiser_with beta) "Kaiser"
             [] None (kaiser_with_cur beta) (kaiser_with_win beta)
             (or_introl eq_refl)).
  cbn [length Nat.eqb].
  rewrite (compute_window_after_generate test_double 2 "Kaiser" false
             (kaiser_with beta)
             (mk_state (win_dict (kaiser_with beta))
                (trace (kaiser_with beta) ++ [Call kaiser_fn 2 [Fin beta] false]))
             (kaiser_entry beta) (Some kaiser_fn) "kaiser" 1
             (Ok (Some (Array [Fin beta; Fin 1]))) (kaiser_with_entry beta)
             eq_refl eq_refl eq_refl eq_refl).
  cbn [settle fst snd trace]. rewrite kaiser_with_trace. reflexivity.
Qed.

Lemma normalize_pair (a b : R) :
  nd_div_s (Array [Fin a; Fin b]) (cgain_of 2 (Array [Fin a; Fin b]))
  = Array [Fin (a / ((0 + a + b) / 2)); Fin (b / ((0 + a + b) / 2))]
  \/ 0 + a + b = 0.
Proof.
  destruct (Req_dec_T (0 + a + b) 0) as [E|E]; [now right|left].
  unfold cgain_of, nd_sum, sum_list. cbn [fold_left].
  unfold np_add at 1 2. replace (INR 2) with 2 by (simpl; ring).
  rewrite np_div_fin by lra.
  unfold nd_div_s, nd_map. cbn [map].
  assert (Hc : (0 + a + b) / 2 <> 0) by (intros H; apply E; lra).
  now rewrite !np_div_fin by assumption.
Qed.

End KaiserFacts.

(** C6, the claim as stated fails: [get_window] does not clamp.  With
    1000 stored for the shape parameter of the Kaiser window (declared
    maximum 30) the generator is called with 1000, and the array
    returned differs from the one computed with 30 stored. *)
Lemma get_window_does_not_clamp :
  trace (snd (get_window test_double 2 None false (kaiser_with 1000)))
  = [Call kaiser_fn 2 [Fin 1000%R] false]
  /\ clamp (Fin 1000%R) (Fin 0%R) (Fin 30%R) = Fin 30%R
  /\ fst (get_window test_double 2 None false (kaiser_with 1000))
     <> fst (get_window test_double 2 None false (kaiser_with 30)).
Proof.
  rewrite !get_window_kaiser. cbn [fst snd trace].
  split; [reflexivity|]. split; [exact clamp_kaiser_1000|].
  destruct (normalize_pair 1000 1) as [-> | E]; [|lra].
  destruct (normalize_pair 30 1) as [-> | E]; [|lra].
  intros H. injection H as H _. lra.
Qed.

(** ** The Chebyshev-II designer *)

Import Cheby2.

Section DesignerFacts.
Local Open Scope R_scope.

Lemma double_halve (x : npfloat) : np_mul (np_div x (Fin 2)) (Fin 2) = x.
Proof.
  destruct x as [r| | |]; unfold np_div, np_mul, inf_times.
  - destruct (Req_dec_T 2 0); [lra|]. f_equal. field.
  - destruct (Rlt_dec 2 0); [lra|]. destruct (Req_dec_T 2 0); [lra|].
    destruct (Rlt_dec 0 2); [reflexivity|lra].
  - destruct (Rlt_dec 2 0); [lra|]. destruct (Req_dec_T 2 0); [lra|].
    destruct (Rlt_dec 0 2); [reflexivity|lra].
  - reflexivity.
Qed.

Variable name__ : string.

(** Running [save]: one call of [save_fil], then the write-back. *)
Lemma run_save (o : oracle) (s : self) (fd fd1 : fil_dict) (c : coeffs) :
  o _ (save_fil fd c frmt name__) = Ok fd1 ->
  run o (pbind (save name__ s fd c) (fun fd' => Ret (s, fd')))
  = (match write_back s fd1 with
     | Ret fd' => Ok (s, fd')
     | Throw e => Raise e
     | Vis _ _ => Raise TypeError
     end, [Called (save_fil fd c frmt name__)]).
Proof.
  intros Ho. cbn [save pbind run]. rewrite Ho.
  unfold write_back. destruct (self_F_SBC s) as [[x|l]|]; cbn [pbind run];
    try reflexivity.
  destruct (l !! 0%nat); cbn [pbind run]; [|reflexivity].
  destruct (l !! 1%nat); cbn [pbind run]; reflexivity.
Qed.

Lemma save_calls (o : oracle) (s : self) (fd : fil_dict) (c : coeffs) :
  snd (run o (pbind (save name__ s fd c) (fun fd' => Ret (s, fd'))))
  = [Called (save_fil fd c frmt name__)].
Proof.
  destruct (o _ (save_fil fd c frmt name__)) as [fd1|ex] eqn:Ho.
  - now rewrite (run_save o s fd fd1 c Ho).
  - cbn [save pbind run]. now rewrite Ho.
Qed.

(** The calls of a minimum-order method, when scipy answers. *)
Lemma design_min_calls (btype : string) (wp ws : self -> ndarray) (o : oracle)
    (fd : fil_dict) (n : Z) (wc : ndarray) (c : coeffs) :
  let s := get_params fd in
  o _ (cheb2ord (wp s) (ws s) (self_A_PB s) (self_A_SB s)) = Ok (n, wc) ->
  o _ (sig_cheby2 n (self_A_SB s) wc btype false frmt) = Ok c ->
  snd (run o (design_min name__ btype wp ws fd))
  = [ Called (cheb2ord (wp s) (ws s) (self_A_PB s) (self_A_SB s));
      Called (sig_cheby2 n (self_A_SB s) wc btype false frmt);
      Called (save_fil fd c frmt name__) ].
Proof.
  intros s H1 H2. unfold design_min. fold s. cbn [run]. rewrite H1.
  cbn [fst snd with_order self_N self_A_SB run]. rewrite H2.
  pose proof (save_calls o (with_order s n wc) fd c) as Hs.
  unfold with_order in Hs.
  destruct (run o (pbind _ _)) as [r t]. cbn [snd] in *. now rewrite Hs.
Qed.

(** The result of a minimum-order method, when scipy and [save_fil]
    answer. *)
Lemma design_min_result (btype : string) (wp ws : self -> ndarray) (o : oracle)
    (fd fd1 : fil_dict) (n : Z) (wc : ndarray) (c : coeffs) :
  let s := get_params fd in
  o _ (cheb2ord (wp s) (ws s) (self_A_PB s) (self_A_SB s)) = Ok (n, wc) ->
  o _ (sig_cheby2 n (self_A_SB s) wc btype false frmt) = Ok c ->
  o _ (save_fil fd c frmt name__) = Ok fd1 ->
  fst (run o (design_min name__ btype wp ws fd))
  = match write_back (with_order s n wc) fd1 with
    | Ret fd' => Ok (with_order s n wc, fd')
    | Throw e => Raise e
    | Vis _ _ => Raise TypeError
    end.
Proof.
  intros s H1 H2 H3. unfold design_min. fold s. cbn [run]. rewrite H1.
  cbn [fst snd with_order self_N self_A_SB run]. rewrite H2.
  pose proof (run_save o (with_order s n wc) fd fd1 c H3) as Hs.
  unfold with_order in *.
  destruct (run o (pbind _ _)) as [r t]. cbn [fst]. now injection Hs as -> _.
Qed.

End DesignerFacts.

(** C2.  Each minimum-order method first asks [cheb2ord] for the order
    and the corner frequency/ies (from the doubled edges, the pass band
    ripple and the stop band attenuation) and then calls [sig.cheby2]
    with exactly that order and those corner frequencies, and saves the
    coefficients it gets; this is the call the fixed-order method makes
    on the specification that holds the computed order and the computed
    (halved) corner frequencies. *)
Theorem min_order_design_uses_computed (name__ : string) (o : oracle)
    (fd : fil_dict) (n : Z) (wc : ndarray) :
  let pb := np_mul (F_PB fd) (Fin 2%R) in
  let sb := np_mul (F_SB fd) (Fin 2%R) in
  let pb2 := np_mul (F_PB2 fd) (Fin 2%R) in
  let sb2 := np_mul (F_SB2 fd) (Fin 2%R) in
  let synthesis (btype : string) :=
    sig_cheby2 n (A_SB fd) wc btype false "ba" in
  let calls (wp ws : ndarray) (btype : string) (c : coeffs) :=
    [ Called (cheb2ord wp ws (A_PB fd) (A_SB fd));
      Called (synthesis btype);
      Called (save_fil fd c "ba" name__) ] in
  (o _ (cheb2ord (Scalar pb) (Scalar sb) (A_PB fd) (A_SB fd)) = Ok (n, wc) ->
   (forall c, o _ (synthesis "lowpass") = Ok c ->
              snd (run o (LPmin name__ fd))
              = calls (Scalar pb) (Scalar sb) "lowpass" c)
   /\ (forall c, o _ (synthesis "highpass") = Ok c ->
                 snd (run o (HPmin name__ fd))
                 = calls (Scalar pb) (Scalar sb) "highpass" c))
  /\ (o _ (cheb2ord (Array [pb; pb2]) (Array [sb; sb2]) (A_PB fd) (A_SB fd))
      = Ok (n, wc) ->
      (forall c, o _ (synthesis "bandpass") = Ok c ->
                 snd (run o (BPmin name__ fd))
                 = calls (Array [pb; pb2]) (Array [sb; sb2]) "bandpass" c)
      /\ (forall c, o _ (synthesis "bandstop") = Ok c ->
                    snd (run o (BSmin name__ fd))
                    = calls (Array [pb; pb2]) (Array [sb; sb2]) "bandstop" c))
  /\ (forall x, wc = Scalar x ->
        let fd' := set_F_SB (set_N fd n) (np_div x (Fin 2%R)) in
        first_call (LPman name__ fd') = Some (Called (synthesis "low"))
        /\ first_call (HPman name__ fd') = Some (Called (synthesis "highpass")))
  /\ (forall x0 x1, wc = Array [x0; x1] ->
        let fd' := set_F_SB2 (set_F_SB (set_N fd n) (np_div x0 (Fin 2%R)))
                             (np_div x1 (Fin 2%R)) in
        first_call (BPman name__ fd') = Some (Called (synthesis "bandpass"))
        /\ first_call (BSman name__ fd') = Some (Called (synthesis "bandstop"))).
Proof.
  intros pb sb pb2 sb2 synthesis calls. split; [|split; [|split]].
  - intros Ho. split; intros c Hc.
    + exact (design_min_calls name__ "lowpass" one_PB one_SB o fd n wc c Ho Hc).
    + exact (design_min_calls name__ "highpass" one_PB one_SB o fd n wc c Ho Hc).
  - intros Ho. split; intros c Hc.
    + exact (design_min_calls name__ "bandpass" two_PB two_SB o fd n wc c Ho Hc).
    + exact (design_min_calls name__ "bandstop" two_PB two_SB o fd n wc c Ho Hc).
  - intros x Hx fd'. subst wc synthesis.
    unfold LPman, HPman, design_man, first_call, fd', one_SB.
    cbn [get_params self_N self_A_SB self_F_SB set_F_SB set_N
         Cheby2.N A_SB F_SB]. rewrite double_halve. split; reflexivity.
  - intros x0 x1 Hx fd'. subst wc synthesis.
    unfold BPman, BSman, design_man, first_call, fd', two_SB.
    cbn [get_params self_N self_A_SB self_F_SB self_F_SB2 set_F_SB
         set_F_SB2 set_N Cheby2.N A_SB F_SB F_SB2].
    rewrite !double_halve. split; reflexivity.
Qed.

Lemma min_order_design_uses_computed_witness :
  snd (run test_oracle (LPmin "cheby2" good_spec))
  = [ Called (cheb2ord (Scalar (np_mul (Fin 0.2%R) (Fin 2%R)))
                       (Scalar (np_mul (Fin 0.3%R) (Fin 2%R)))
                       (Fin 1%R) (Fin 40%R));
      Called (sig_cheby2 4 (Fin 40%R) (Scalar (np_mul (Fin 0.3%R) (Fin 2%R)))
                         "lowpass" false "ba");
      Called (save_fil good_spec ([Fin 1%R], [Fin 1%R]) "ba" "cheby2") ].
Proof.
  apply (proj1 (proj1 (min_order_design_uses_computed "cheby2" test_oracle
                         good_spec 4
                         (Scalar (np_mul (Fin 0.3%R) (Fin 2%R)))) eq_refl)).
  reflexivity.
Defined.

(** C3.  [get_params] multiplies each of the four edge frequencies of the
    dictionary by 2, and these doubled values are what [cheb2ord] and
    [sig.cheby2] receive.  A minimum-order method writes the order and
    the corner frequency/ies that [cheb2ord] computed back into the
    dictionary that [save_fil] left, each corner frequency divided by 2,
    and leaves every other key of it as it is; a fixed-order method
    writes nothing back.  Doubling and then halving gives an edge back
    as long as its double does not overflow, halving and then doubling
    as long as the half stays a normal number. *)
Theorem edge_scaling (name__ : string) (fd : fil_dict) :
  let s := get_params fd in
  let pb := np_mul (F_PB fd) (Fin 2%R) in
  let sb := np_mul (F_SB fd) (Fin 2%R) in
  let pb2 := np_mul (F_PB2 fd) (Fin 2%R) in
  let sb2 := np_mul (F_SB2 fd) (Fin 2%R) in
  let fixed (Wn : ndarray) (btype : string) :=
    Some (Called (sig_cheby2 (Cheby2.N fd) (A_SB fd) Wn btype false "ba")) in
  let order (wp ws : ndarray) :=
    Some (Called (cheb2ord wp ws (A_PB fd) (A_SB fd))) in
  let others_kept (fd' fd1 : fil_dict) :=
    F_PB fd' = F_PB fd1 /\ F_PB2 fd' = F_PB2 fd1
    /\ A_PB fd' = A_PB fd1 /\ A_SB fd' = A_SB fd1
    /\ A_PB2 fd' = A_PB2 fd1 /\ A_SB2 fd' = A_SB2 fd1 in
  let written (r : res (self * fil_dict)) (n : Z) (wc : ndarray)
      (fd1 : fil_dict) :=
    match wc with
    | Scalar x =>
        exists s' fd',
          r = Ok (s', fd') /\ Cheby2.N fd' = n
          /\ F_SB fd' = np_div x (Fin 2%R) /\ F_SB2 fd' = F_SB2 fd1
          /\ others_kept fd' fd1
    | Array (x0 :: x1 :: _) =>
        exists s' fd',
          r = Ok (s', fd') /\ Cheby2.N fd' = n
          /\ F_SB fd' = np_div x0 (Fin 2%R) /\ F_SB2 fd' = np_div x1 (Fin 2%R)
          /\ others_kept fd' fd1
    | Array _ => r = Raise IndexError
    end in
  let min_writes (m : fil_dict -> prog (self * fil_dict)) (wp ws : ndarray)
      (btype : string) :=
    forall (o : oracle) (n : Z) (wc : ndarray) (c : coeffs) (fd1 : fil_dict),
      o _ (cheb2ord wp ws (A_PB fd) (A_SB fd)) = Ok (n, wc) ->
      o _ (sig_cheby2 n (A_SB fd) wc btype false "ba") = Ok c ->
      o _ (save_fil fd c "ba" name__) = Ok fd1 ->
      written (fst (run o (m fd))) n wc fd1 in
  let man_writes (m : fil_dict -> prog (self * fil_dict)) (Wn : ndarray)
      (btype : string) :=
    forall (o : oracle) (c : coeffs) (fd1 : fil_dict),
      o _ (sig_cheby2 (Cheby2.N fd) (A_SB fd) Wn btype false "ba") = Ok c ->
      o _ (save_fil fd c "ba" name__) = Ok fd1 ->
      exists s', fst (run o (m fd)) = Ok (s', fd1) in
  (self_F_PB s = pb /\ self_F_SB s = sb /\ self_F_PB2 s = pb2
   /\ self_F_SB2 s = sb2)
  /\ (first_call (LPman name__ fd) = fixed (Scalar sb) "low"
      /\ first_call (HPman name__ fd) = fixed (Scalar sb) "highpass"
      /\ first_call (BPman name__ fd) = fixed (Array [sb; sb2]) "bandpass"
      /\ first_call (BSman name__ fd) = fixed (Array [sb; sb2]) "bandstop")
  /\ (first_call (LPmin name__ fd) = order (Scalar pb) (Scalar sb)
      /\ first_call (HPmin name__ fd) = order (Scalar pb) (Scalar sb)
      /\ first_call (BPmin name__ fd) = order (Array [pb; pb2]) (Array [sb; sb2])
      /\ first_call (BSmin name__ fd) = order (Array [pb; pb2]) (Array [sb; sb2]))
  /\ (min_writes (LPmin name__) (Scalar pb) (Scalar sb) "lowpass"
      /\ min_writes (HPmin name__) (Scalar pb) (Scalar sb) "highpass"
      /\ min_writes (BPmin name__) (Array [pb; pb2]) (Array [sb; sb2]) "bandpass"
      /\ min_writes (BSmin name__) (Array [pb; pb2]) (Array [sb; sb2]) "bandstop")
  /\ (man_writes (LPman name__) (Scalar sb) "low"
      /\ man_writes (HPman name__) (Scalar sb) "highpass"
      /\ man_writes (BPman name__) (Array [sb; sb2]) "bandpass"
      /\ man_writes (BSman name__) (Array [sb; sb2]) "bandstop")
  /\ (forall x : R,
        (Rabs x <= float_max / 2)%R ->
        np_div (np_mul (Fin x) (Fin 2%R)) (Fin 2%R) = Fin x)
  /\ (forall x : R,
        x = 0%R \/ (2 * float_min_normal <= Rabs x)%R ->
        np_mul (np_div (Fin x) (Fin 2%R)) (Fin 2%R) = Fin x).
Proof.
  intros s pb sb pb2 sb2 fixed order others_kept written min_writes man_writes.
  assert (Hmin : forall btype wp ws,
             min_writes (design_min name__ btype wp ws) (wp s) (ws s) btype).
  { intros btype wp ws o n wc c fd1 H1 H2 H3.
    rewrite (design_min_result name__ btype wp ws o fd fd1 n wc c H1 H2 H3).
    unfold written, others_kept, write_back.
    cbn [with_order self_F_SBC self_N].
    destruct wc as [x|[|x0 [|x1 l]]]; cbn [lookup list_lookup]; try reflexivity;
      eexists; eexists; (split; [reflexivity|]); now repeat split. }
  assert (Hman : forall btype Wn,
             man_writes (design_man name__ btype Wn) (Wn s) btype).
  { intros btype Wn o c fd1 H1 H2. unfold design_man. fold s. cbn [run].
    change (o coeffs (sig_cheby2 (self_N s) (self_A_SB s) (Wn s) btype false frmt)
            = Ok c) in H1.
    rewrite H1. pose proof (run_save name__ o s fd fd1 c H2) as Hs.
    destruct (run o (pbind _ _)) as [r t]. cbn [fst]. injection Hs as -> _.
    now exists s. }
  split; [repeat split|]. split; [repeat split|]. split; [repeat split|].
  split; [repeat split; apply Hmin|].
  split; [repeat split; apply Hman|].
  split; intros x _; [apply halve_double|apply double_halve].
Qed.

Lemma edge_scaling_witness :
  (exists s' fd',
      fst (run test_oracle (LPmin "cheby2" good_spec)) = Ok (s', fd')
      /\ Cheby2.N fd' = 4%Z
      /\ F_SB fd' = np_div (np_mul (Fin 0.3%R) (Fin 2%R)) (Fin 2%R)
      /\ F_SB2 fd' = F_SB2 good_spec
      /\ F_PB fd' = F_PB good_spec /\ F_PB2 fd' = F_PB2 good_spec
      /\ A_PB fd' = A_PB good_spec /\ A_SB fd' = A_SB good_spec
      /\ A_PB2 fd' = A_PB2 good_spec /\ A_SB2 fd' = A_SB2 good_spec)
  /\ np_div (np_mul (Fin 0.3%R) (Fin 2%R)) (Fin 2%R) = Fin 0.3%R.
Proof.
  pose proof (edge_scaling "cheby2" good_spec) as H. cbv zeta in H.
  destruct H as (_ & _ & _ & (HLP & _) & _ & Hround & _). split.
  - apply (HLP test_oracle 4%Z (Scalar (np_mul (Fin 0.3%R) (Fin 2%R)))
             ([Fin 1%R], [Fin 1%R]) good_spec eq_refl eq_refl eq_refl).
  - apply Hround. unfold float_max.
    assert (H53 : (2 <= 2 ^ 53 - 1)%R).
    { pose proof (pow_R1_Rle 2 51 ltac:(lra)) as H51.
      change (2 ^ 53)%R with (2 * (2 * 2 ^ 51))%R. lra. }
    pose proof (pow_R1_Rle 2 971 ltac:(lra)) as H971.
    rewrite Rabs_pos_eq by lra. nra.
Defined.

(** C5 (as amended).  No design method checks the specification it is
    given: whatever the order of the band edges and the signs of ripple
    and attenuation, each of the eight methods neither raises nor
    returns before it has called scipy with the doubled edges --
    [cheb2ord] for the minimum-order methods, [sig.cheby2] for the
    fixed-order ones.  An exception that scipy raises there, or that
    [sig.cheby2] raises after [cheb2ord] has answered, is passed on as
    it is, after these calls and nothing else; there is no error of the
    class's own. *)
Theorem design_does_not_validate (name__ : string) (fd : fil_dict) :
  let pb := np_mul (F_PB fd) (Fin 2%R) in
  let sb := np_mul (F_SB fd) (Fin 2%R) in
  let pb2 := np_mul (F_PB2 fd) (Fin 2%R) in
  let sb2 := np_mul (F_SB2 fd) (Fin 2%R) in
  let fixed (Wn : ndarray) (btype : string) :=
    Called (sig_cheby2 (Cheby2.N fd) (A_SB fd) Wn btype false "ba") in
  let order (wp ws : ndarray) :=
    Called (cheb2ord wp ws (A_PB fd) (A_SB fd)) in
  let starts_with (m : fil_dict -> prog (self * fil_dict)) (c : call) :=
    (forall e, m fd <> Throw e) /\ (forall r, m fd <> Ret r)
    /\ first_call (m fd) = Some c
    /\ forall (o : oracle) (ex : exn),
         call_raises o c ex -> run o (m fd) = (Raise ex, [c]) in
  let passes_on (m : fil_dict -> prog (self * fil_dict)) (wp ws : ndarray)
      (btype : string) :=
    forall (o : oracle) (n : Z) (wc : ndarray) (ex : exn),
      o _ (cheb2ord wp ws (A_PB fd) (A_SB fd)) = Ok (n, wc) ->
      o _ (sig_cheby2 n (A_SB fd) wc btype false "ba") = Raise ex ->
      run o (m fd)
      = (Raise ex,
         [order wp ws; Called (sig_cheby2 n (A_SB fd) wc btype false "ba")]) in
  (starts_with (LPman name__) (fixed (Scalar sb) "low")
   /\ starts_with (HPman name__) (fixed (Scalar sb) "highpass")
   /\ starts_with (BPman name__) (fixed (Array [sb; sb2]) "bandpass")
   /\ starts_with (BSman name__) (fixed (Array [sb; sb2]) "bandstop"))
  /\ (starts_with (LPmin name__) (order (Scalar pb) (Scalar sb))
      /\ starts_with (HPmin name__) (order (Scalar pb) (Scalar sb))
      /\ starts_with (BPmin name__) (order (Array [pb; pb2]) (Array [sb; sb2]))
      /\ starts_with (BSmin name__) (order (Array [pb; pb2]) (Array [sb; sb2])))
  /\ (passes_on (LPmin name__) (Scalar pb) (Scalar sb) "lowpass"
      /\ passes_on (HPmin name__) (Scalar pb) (Scalar sb) "highpass"
      /\ passes_on (BPmin name__) (Array [pb; pb2]) (Array [sb; sb2]) "bandpass"
      /\ passes_on (BSmin name__) (Array [pb; pb2]) (Array [sb; sb2]) "bandstop").
Proof.
  intros pb sb pb2 sb2 fixed order starts_with passes_on.
  assert (Hman : forall btype Wn,
             starts_with (design_man name__ btype Wn)
               (fixed (Wn (get_params fd)) btype)).
  { intros btype Wn. split; [discriminate|]. split; [discriminate|].
    split; [reflexivity|]. intros o ex H. unfold design_man. cbn [run].
    cbn [call_raises fixed] in H.
    change (o coeffs (sig_cheby2 (self_N (get_params fd))
                        (self_A_SB (get_params fd)) (Wn (get_params fd))
                        btype false frmt) = Raise ex) in H.
    now rewrite H. }
  assert (Hmin : forall btype wp ws,
             starts_with (design_min name__ btype wp ws)
               (order (wp (get_params fd)) (ws (get_params fd)))).
  { intros btype wp ws. split; [discriminate|]. split; [discriminate|].
    split; [reflexivity|]. intros o ex H. unfold design_min. cbn [run].
    cbn [call_raises order] in H.
    change (o (Z * ndarray)%type
              (cheb2ord (wp (get_params fd)) (ws (get_params fd))
                 (self_A_PB (get_params fd)) (self_A_SB (get_params fd)))
            = Raise ex) in H.
    now rewrite H. }
  assert (Hpass : forall btype wp ws,
             passes_on (design_min name__ btype wp ws)
               (wp (get_params fd)) (ws (get_params fd)) btype).
  { intros btype wp ws o n wc ex H1 H2. unfold design_min. cbn [run].
    change (o (Z * ndarray)%type
              (cheb2ord (wp (get_params fd)) (ws (get_params fd))
                 (self_A_PB (get_params fd)) (self_A_SB (get_params fd)))
            = Ok (n, wc)) in H1.
    rewrite H1. cbn [fst snd with_order self_N self_A_SB run].
    change (o coeffs (sig_cheby2 n (self_A_SB (get_params fd)) wc btype false
                        frmt) = Raise ex) in H2.
    now rewrite H2. }
  split; [split; [apply Hman|split; [apply Hman|split; apply Hman]]|].
  split; [split; [apply Hmin|split; [apply Hmin|split; apply Hmin]]|].
  split; [apply Hpass|split; [apply Hpass|split; apply Hpass]].
Qed.

Lemma design_does_not_validate_witness :
  run strict_oracle (BPmin "cheby2" good_spec)
  = (Raise ValueError,
     [Called (cheb2ord (Array [np_mul (Fin 0.2%R) (Fin 2%R);
                               np_mul (Fin 0.35%R) (Fin 2%R)])
                       (Array [np_mul (Fin 0.3%R) (Fin 2%R);
                               np_mul (Fin 0.4%R) (Fin 2%R)])
                       (Fin 1%R) (Fin 40%R))]).
Proof.
  pose proof (design_does_not_validate "cheby2" good_spec) as H.
  cbv zeta in H. destruct H as (_ & (_ & _ & (_ & _ & _ & HBP) & _) & _).
  apply (HBP strict_oracle ValueError). reflexivity.
Defined.

(** C5, the claim as stated fails: a low pass specification with the pass
    band edge above the stop band edge and a negative attenuation is not
    rejected before the numeric work begins.  [LPmin] cannot raise on its
    own: its first action is the call of [cheb2ord] with the doubled
    edges of that specification, and the failure that follows with a
    scipy that rejects it is the [ValueError] raised inside that call. *)
Lemma design_accepts_bad_order :
  (exists p q a, F_PB bad_spec = Fin p /\ F_SB bad_spec = Fin q
                 /\ A_SB bad_spec = Fin a /\ (q < p)%R /\ (a < 0)%R)
  /\ (forall e, LPmin "cheby2" bad_spec <> Throw e)
  /\ first_call (LPmin "cheby2" bad_spec)
     = Some (Called (cheb2ord (Scalar (np_mul (Fin 0.3%R) (Fin 2%R)))
                              (Scalar (np_mul (Fin 0.2%R) (Fin 2%R)))
                              (Fin 1%R) (Fin (-40)%R)))
  /\ run strict_oracle (LPmin "cheby2" bad_spec)
     = (Raise ValueError,
        [ Called (cheb2ord (Scalar (np_mul (Fin 0.3%R) (Fin 2%R)))
                           (Scalar (np_mul (Fin 0.2%R) (Fin 2%R)))
                           (Fin 1%R) (Fin (-40)%R)) ]).
Proof.
  split; [|split; [|split]].
  - exists 0.3%R, 0.2%R, (-40)%R. repeat split; lra.
  - intros e H. discriminate H.
  - reflexivity.
  - reflexivity.
Qed.

(** * Further properties of the code *)

(** ** Cosine-sum windows: degenerate inputs, end points and symmetry *)

Section CosineSumShape.
Local Open Scope R_scope.

Lemma fold_add_nan (l : list npfloat) : fold_left np_add l NaN = NaN.
Proof. induction l as [|x l IH]; [reflexivity|]. exact IH. Qed.

Lemma w_spec_nan (N : nat) (sym : bool) (a0 a1 : npfloat) (rest : list npfloat)
    (n : nat) :
  x_spec N sym n = NaN -> w_spec N sym (a0 :: a1 :: rest) n = NaN.
Proof.
  intros Hx. unfold w_spec. rewrite Hx. cbn [cosine_terms fold_left].
  rewrite (np_mul_nan_r (Fin (INR 1))). unfold np_cos.
  rewrite (np_mul_nan_r a1), (np_add_nan_r a0). apply fold_add_nan.
Qed.

(** [cos (j * (2 pi - x)) = cos (j * x)] for a natural number [j]. *)
Lemma cos_reflect (j : nat) (x : R) : cos (INR j * (2 * PI - x)) = cos (INR j * x).
Proof.
  replace (INR j * (2 * PI - x)) with (- (INR j * x) + 2 * INR j * PI) by ring.
  now rewrite cos_period, cos_neg.
Qed.

Lemma real_terms_reflect (j : nat) (aj : list R) (x : R) :
  real_terms j aj (2 * PI - x) = real_terms j aj x.
Proof.
  revert j. induction aj as [|c rest IH]; intros j; cbn [real_terms];
    [reflexivity|]. now rewrite cos_reflect, IH.
Qed.

Lemma real_terms_zero (j : nat) (aj : list R) : real_terms j aj 0 = aj.
Proof.
  revert j. induction aj as [|c rest IH]; intros j; cbn [real_terms];
    [reflexivity|]. rewrite Rmult_0_r, cos_0, IH. f_equal. ring.
Qed.

Lemma lookup_map_seq {A} (g : nat -> A) (N n : nat) :
  (n < N)%nat -> map g (seq 0 N) !! n = Some (g n).
Proof.
  intros Hn. rewrite list_lookup_fmap.
  rewrite lookup_seq_lt by assumption. reflexivity.
Qed.

End CosineSumShape.

(** X1.  The degenerate inputs of [calc_cosine_window]: an empty
    coefficient list raises [IndexError] ([a[0]]); no samples give the
    empty array; one sample of a symmetric window divides by the period
    length [N-1 = 0], so the window is [[nan]] whatever the (two or more)
    coefficients are -- the three presets included. *)
Theorem calc_cosine_window_degenerate :
  (forall N sym, calc_cosine_window N sym [] = Raise IndexError)
  /\ (forall sym a0 a1 rest,
        calc_cosine_window 0 sym (a0 :: a1 :: rest) = Ok (Array []))
  /\ (forall a0 a1 rest,
        calc_cosine_window 1 true (a0 :: a1 :: rest) = Ok (Array [NaN]))
  /\ blackmanharris5 1 true = Ok (Array [NaN])
  /\ blackmanharris7 1 true = Ok (Array [NaN])
  /\ blackmanharris9 1 true = Ok (Array [NaN]).
Proof.
  assert (H1 : forall a0 a1 rest,
             calc_cosine_window 1 true (a0 :: a1 :: rest) = Ok (Array [NaN])).
  { intros a0 a1 rest. rewrite calc_cosine_window_array. cbn [seq map].
    now rewrite (w_spec_nan 1 true a0 a1 rest 0 x_spec_degenerate). }
  split; [reflexivity|]. split.
  - intros sym a0 a1 rest. now rewrite calc_cosine_window_array.
  - split; [exact H1|]. repeat split; apply H1.
Qed.

Section CosineSumSymmetry.
Local Open Scope R_scope.

Lemma sample_point_reflect (L : R) (n m : R) :
  L <> 0 -> m = L - n -> m * 2 * PI / L = 2 * PI - n * 2 * PI / L.
Proof. intros HL ->. now field. Qed.

Lemma w_spec_reflect (N : nat) (sym : bool) (a0 : R) (rest : list R) (n m : nat) :
  period_length N sym <> 0%Z ->
  INR m = IZR (period_length N sym) - INR n ->
  w_spec N sym (map Fin (a0 :: rest)) m = w_spec N sym (map Fin (a0 :: rest)) n.
Proof.
  intros HL Hm. rewrite !w_spec_real by assumption. f_equal.
  rewrite (sample_point_reflect (IZR (period_length N sym)) (INR n) (INR m));
    [|intros E; apply eq_IZR_R0 in E; contradiction|assumption].
  now rewrite real_terms_reflect.
Qed.

End CosineSumSymmetry.

(** X2.  Both kinds of window are mirror images of themselves.  With
    finite coefficients, the symmetric window of [N >= 2] samples
    satisfies [w[N-1-n] = w[n]], and the periodic window of [N] samples
    satisfies [w[N-n] = w[n]] for [1 <= n < N]. *)
Theorem cosine_window_symmetry (N : nat) (a0 a1 : R) (rest : list R) (n : nat) :
  (n < N)%nat ->
  exists ls lp,
    calc_cosine_window N true (map Fin (a0 :: a1 :: rest)) = Ok (Array ls)
    /\ calc_cosine_window N false (map Fin (a0 :: a1 :: rest)) = Ok (Array lp)
    /\ length ls = N /\ length lp = N
    /\ ((2 <= N)%nat -> ls !! (N - 1 - n)%nat = ls !! n)
    /\ ((1 <= n)%nat -> lp !! (N - n)%nat = lp !! n).
Proof.
  intros Hn. cbn [map]. rewrite !calc_cosine_window_array.
  eexists. eexists. split; [reflexivity|]. split; [reflexivity|].
  rewrite !length_map, !length_seq. split; [reflexivity|]. split; [reflexivity|].
  split.
  - intros HN. rewrite !lookup_map_seq by lia. f_equal.
    apply (w_spec_reflect N true a0 (a1 :: rest) n (N - 1 - n)).
    + cbn [period_length]. lia.
    + cbn [period_length]. rewrite minus_IZR, <- INR_IZR_INZ.
      rewrite !minus_INR by lia. simpl. ring.
  - intros H1. rewrite !lookup_map_seq by lia. f_equal.
    apply (w_spec_reflect N false a0 (a1 :: rest) n (N - n)).
    + cbn [period_length]. lia.
    + cbn [period_length]. rewrite <- INR_IZR_INZ.
      rewrite minus_INR by lia. ring.
Qed.

Lemma cosine_window_symmetry_witness :
  exists ls lp,
    calc_cosine_window 4 true (map Fin [0.5; 0.5]%R) = Ok (Array ls)
    /\ calc_cosine_window 4 false (map Fin [0.5; 0.5]%R) = Ok (Array lp)
    /\ length ls = 4%nat /\ length lp = 4%nat
    /\ ((2 <= 4)%nat -> ls !! (4 - 1 - 1)%nat = ls !! 1%nat)
    /\ ((1 <= 1)%nat -> lp !! (4 - 1)%nat = lp !! 1%nat).
Proof.
  apply (cosine_window_symmetry 4 0.5 0.5 [] 1). lia.
Defined.

(** X3.  The first sample of a cosine-sum window with finite
    coefficients is the sum of the coefficients, whenever the period
    length is not zero; the last sample of a symmetric window is the same
    sum. *)
Theorem cosine_window_end_points (N : nat) (sym : bool) (a0 a1 : R)
    (rest : list R) :
  (1 <= N)%nat ->
  period_length N sym <> 0%Z ->
  exists l,
    calc_cosine_window N sym (map Fin (a0 :: a1 :: rest)) = Ok (Array l)
    /\ l !! 0%nat = Some (Fin (a0 + Rsum (a1 :: rest)))
    /\ (sym = true -> l !! (N - 1)%nat = Some (Fin (a0 + Rsum (a1 :: rest)))).
Proof.
  intros HN HL. cbn [map]. rewrite calc_cosine_window_array. eexists.
  split; [reflexivity|].
  assert (H0 : w_spec N sym (Fin a0 :: Fin a1 :: map Fin rest) 0
               = Fin (a0 + Rsum (a1 :: rest))).
  { change (Fin a0 :: Fin a1 :: map Fin rest) with (map Fin (a0 :: a1 :: rest)).
    rewrite w_spec_real by assumption.
    replace (INR 0 * 2 * PI / IZR (period_length N sym))%R with 0%R.
    - rewrite real_terms_zero. f_equal. unfold Rsum.
      rewrite (fold_Rplus_shift (a1 :: rest) a0). reflexivity.
    - simpl. unfold Rdiv. now rewrite !Rmult_0_l. }
  split.
  - rewrite lookup_map_seq by lia. now rewrite H0.
  - intros ->. rewrite lookup_map_seq by lia. rewrite <- H0. f_equal.
    change (Fin a0 :: Fin a1 :: map Fin rest) with (map Fin (a0 :: a1 :: rest)).
    apply (w_spec_reflect N true a0 (a1 :: rest) 0 (N - 1)); [assumption|].
    cbn [period_length]. rewrite minus_IZR, <- INR_IZR_INZ.
    rewrite minus_INR by lia. simpl. ring.
Qed.

Lemma cosine_window_end_points_witness :
  exists l,
    calc_cosine_window 4 true (map Fin [0.5; 0.5]%R) = Ok (Array l)
    /\ l !! 0%nat = Some (Fin (0.5 + Rsum [0.5])%R)
    /\ (true = true -> l !! (4 - 1)%nat = Some (Fin (0.5 + Rsum [0.5])%R)).
Proof.
  apply (cosine_window_end_points 4 true 0.5 0.5 []); [lia|]. discriminate.
Defined.

(** ** The statistics of [get_window] *)

Section StatisticsFacts.
Local Open Scope R_scope.

Lemma Rsum_nil : Rsum [] = 0.
Proof. reflexivity. Qed.

Lemma Rsum_squares_nonneg (rs : list R) (x : R) :
  0 <= Rsum (map (fun r => (r - x) * (r - x)) rs).
Proof.
  induction rs as [|r rs IH]; [cbn [map]; rewrite Rsum_nil; lra|].
  cbn [map]. rewrite Rsum_cons.
  pose proof (Rle_0_sqr (r - x)) as Hsq. unfold Rsqr in Hsq. lra.
Qed.

Lemma Rsum_shifted_squares (rs : list R) (x : R) :
  Rsum (map (fun r => (r - x) * (r - x)) rs)
  = Rsum (map (fun r => r * r) rs) - 2 * x * Rsum rs + INR (length rs) * x * x.
Proof.
  induction rs as [|r rs IH]; [cbn [map length]; rewrite !Rsum_nil; simpl; ring|].
  cbn [map]. change (length (r :: rs)) with (S (length rs)).
  rewrite !Rsum_cons, IH, S_INR. ring.
Qed.

(** [N * sum(w^2) >= (sum w)^2] for [N] real samples. *)
Lemma sum_squares_bound (rs : list R) :
  Rsum rs * Rsum rs <= INR (length rs) * Rsum (map (fun r => r * r) rs).
Proof.
  induction rs as [|r rs IH]; [cbn [map length]; rewrite !Rsum_nil; simpl; lra|].
  cbn [map]. change (length (r :: rs)) with (S (length rs)).
  rewrite !Rsum_cons, S_INR.
  pose proof (Rsum_squares_nonneg rs r) as H.
  rewrite Rsum_shifted_squares in H. nra.
Qed.

Lemma nd_square_fin (rs : list R) :
  nd_square (Array (map Fin rs)) = Array (map Fin (map (fun r => r * r) rs)).
Proof.
  unfold nd_square, nd_map. f_equal. rewrite !map_map. reflexivity.
Qed.

Lemma nenbw_fin (N : nat) (rs : list R) :
  Rsum rs <> 0 ->
  nenbw_of N (Array (map Fin rs))
  = Fin (INR N * Rsum (map (fun r => r * r) rs) / (Rsum rs * Rsum rs)).
Proof.
  intros Hs. unfold nenbw_of. rewrite nd_square_fin. unfold nd_sum.
  rewrite !sum_list_fin. unfold np_square, np_mul.
  now rewrite np_div_fin by nra.
Qed.

Lemma cgain_fin (N : nat) (rs : list R) :
  (1 <= N)%nat ->
  cgain_of N (Array (map Fin rs)) = Fin (Rsum rs / INR N).
Proof.
  intros HN. unfold cgain_of, nd_sum. rewrite sum_list_fin.
  apply np_div_fin. now apply INR_pos_neq.
Qed.

Lemma Rsum_scaled (rs : list R) (c : R) : Rsum (map (Rmult c) rs) = c * Rsum rs.
Proof.
  induction rs as [|r rs IH]; [cbn [map]; rewrite !Rsum_nil; ring|].
  cbn [map]. rewrite !Rsum_cons, IH. ring.
Qed.

Lemma Rsum_scaled_squares (rs : list R) (c : R) :
  Rsum (map (fun r => r * r) (map (Rmult c) rs))
  = c * c * Rsum (map (fun r => r * r) rs).
Proof.
  induction rs as [|r rs IH]; [cbn [map]; rewrite !Rsum_nil; ring|].
  cbn [map]. rewrite !Rsum_cons, IH. ring.
Qed.

Lemma normalized_fin (N : nat) (rs : list R) :
  (1 <= N)%nat -> Rsum rs <> 0 ->
  nd_div_s (Array (map Fin rs)) (cgain_of N (Array (map Fin rs)))
  = Array (map Fin (map (fun r => r / (Rsum rs / INR N)) rs)).
Proof.
  intros HN Hs. rewrite cgain_fin by assumption. unfold nd_div_s, nd_map.
  rewrite map_div_fin; [reflexivity|].
  pose proof (INR_pos_neq N HN) as H0. intros E. apply Hs.
  apply (Rmult_eq_compat_r (INR N)) in E. unfold Rdiv in E.
  rewrite Rmult_assoc, Rinv_l, Rmult_0_l, Rmult_1_r in E; assumption.
Qed.

End StatisticsFacts.

(** X4.  The equivalent noise bandwidth that [get_window] stores is at
    least one bin: when the generator returns [N] finite samples whose
    sum is not zero, ['nenbw'] is a finite number [y >= 1] (the
    inequality [N * sum(w^2) >= (sum w)^2]) and ['cgain'] is the mean of
    the samples. *)
Theorem stored_nenbw_at_least_one (env : environment) (s s1 : state) (N : nat)
    (sym : bool) (req : option string) (name : string) (e : entry)
    (f : option fnct) (fn : string) (n : nat) (rs : list R) :
  misses_cache s N req name ->
  name <> "win" ->
  win_dict s !! name = Some (VEntry e) ->
  win_fnct e = Some f -> fn_name e = Some fn -> n_par e = Some n ->
  generate env e f fn n N sym s = (Ok (Some (Array (map Fin rs))), s1) ->
  length rs = N ->
  Rsum rs <> 0%R ->
  exists s' w e' y,
    get_window env N req sym s = (Ok w, s')
    /\ win_dict s' !! name = Some (VEntry e')
    /\ nenbw e' = Some (Fin y) /\ (1 <= y)%R
    /\ cgain e' = Some (Fin (Rsum rs / INR N)).
Proof.
  intros Hmiss Hne Hname Hf Hfn Hn Hgen Hlen Hsum.
  assert (HN : (1 <= N)%nat).
  { destruct rs; [exfalso; apply Hsum; reflexivity|]. subst N. simpl. lia. }
  rewrite (get_window_miss env N sym s req name Hmiss).
  rewrite (compute_window_after_generate env N name sym s s1 e f fn n _
             Hname Hf Hfn Hn Hgen).
  cbn [settle fst snd]. eexists. eexists. exists (with_stats N (Array (map Fin rs)) e).
  exists (INR N * Rsum (map (fun r => r * r) rs) / (Rsum rs * Rsum rs))%R.
  split; [reflexivity|]. cbn [win_dict].
  split; [rewrite lookup_insert_ne by (intros E; now apply Hne);
          apply lookup_insert_eq|].
  split; [cbn [with_stats nenbw]; now rewrite nenbw_fin|].
  split.
  - pose proof (sum_squares_bound rs) as Hb. rewrite Hlen in Hb.
    assert (Hpos : (0 < Rsum rs * Rsum rs)%R) by nra.
    apply (Rmult_le_reg_r (Rsum rs * Rsum rs)); [assumption|].
    unfold Rdiv. rewrite Rmult_assoc, Rinv_l by lra. lra.
  - cbn [with_stats cgain]. now rewrite cgain_fin.
Qed.

Lemma stored_nenbw_at_least_one_witness :
  exists s' w e' y,
    get_window test_double 4 None false rect_state = (Ok w, s')
    /\ win_dict s' !! "Rectangular" = Some (VEntry e')
    /\ nenbw e' = Some (Fin y) /\ (1 <= y)%R
    /\ cgain e' = Some (Fin (Rsum [1; 1; 1; 1] / INR 4)%R).
Proof.

  apply (stored_nenbw_at_least_one test_double rect_state
           (mk_state (win_dict rect_state)
              (trace rect_state
               ++ [Call (fn_ext scipy_signal_windows "boxcar") 4 [] false]))
           4 false None "Rectangular" rect_entry
           (Some (fn_ext scipy_signal_windows "boxcar")) "boxcar" 0
           [1; 1; 1; 1]%R).
  - exists "Rectangular". split; [vm_compute; reflexivity|]. right.
    split; [now left|]. split; [reflexivity|]. exists [].
    split; [vm_compute; reflexivity|]. simpl. lia.
  - discriminate.
  - vm_compute. reflexivity.
  - reflexivity.
  - reflexivity.
  - reflexivity.
  - reflexivity.
  - reflexivity.
  - unfold Rsum. simpl. lra.
Defined.

(** X5.  The window that [get_window] returns does not depend on the
    scale of the generator: two generators whose finite outputs differ by
    a factor [c <> 0] give the same normalized window and the same
    ['nenbw']; only ['cgain'] carries the factor. *)
Theorem normalization_scale_invariant (env1 env2 : environment)
    (s sA sB : state) (N : nat) (sym : bool) (req : option string)
    (name : string) (e : entry) (f : option fnct) (fn : string) (n : nat)
    (rs : list R) (c : R) :
  misses_cache s N req name ->
  name <> "win" ->
  win_dict s !! name = Some (VEntry e) ->
  win_fnct e = Some f -> fn_name e = Some fn -> n_par e = Some n ->
  generate env1 e f fn n N sym s = (Ok (Some (Array (map Fin rs))), sA) ->
  generate env2 e f fn n N sym s
  = (Ok (Some (Array (map Fin (map (Rmult c) rs)))), sB) ->
  1 <= N -> c <> 0%R -> Rsum rs <> 0%R ->
  fst (get_window env1 N req sym s) = fst (get_window env2 N req sym s)
  /\ exists e1 e2 g,
       win_dict (snd (get_window env1 N req sym s)) !! name = Some (VEntry e1)
       /\ win_dict (snd (get_window env2 N req sym s)) !! name = Some (VEntry e2)
       /\ nenbw e1 = nenbw e2
       /\ cgain e1 = Some (Fin g) /\ cgain e2 = Some (Fin (c * g)%R).
Proof.
  intros Hmiss Hne Hname Hf Hfn Hn Hg1 Hg2 HN Hc Hsum.
  assert (Hsum2 : Rsum (map (Rmult c) rs) <> 0%R).
  { rewrite Rsum_scaled. now apply Rmult_integral_contrapositive. }
  pose proof (INR_pos_neq N HN) as HN0.
  rewrite (get_window_miss env1 N sym s req name Hmiss).
  rewrite (get_window_miss env2 N sym s req name Hmiss).
  rewrite (compute_window_after_generate env1 N name sym s sA e f fn n _
             Hname Hf Hfn Hn Hg1).
  rewrite (compute_window_after_generate env2 N name sym s sB e f fn n _
             Hname Hf Hfn Hn Hg2).
  cbn [settle fst snd win_dict]. split.
  - f_equal. rewrite !normalized_fin by assumption. f_equal. f_equal.
    rewrite map_map. apply map_ext. intros r. rewrite Rsum_scaled.
    field. repeat split; assumption.
  - exists (with_stats N (Array (map Fin rs)) e),
      (with_stats N (Array (map Fin (map (Rmult c) rs))) e),
      (Rsum rs / INR N)%R.
    split; [rewrite lookup_insert_ne by (intros E; now apply Hne);
            apply lookup_insert_eq|].
    split; [rewrite lookup_insert_ne by (intros E; now apply Hne);
            apply lookup_insert_eq|].
    cbn [with_stats nenbw cgain]. rewrite !nenbw_fin, !cgain_fin by assumption.
    rewrite Rsum_scaled, Rsum_scaled_squares.
    split; [|split; [reflexivity|]].
    + f_equal. f_equal. field. repeat split; assumption.
    + f_equal. f_equal. field. repeat split; assumption.
Qed.

Lemma normalization_scale_invariant_witness :
  fst (get_window test_double 4 None false rect_state)
  = fst (get_window doubled_double 4 None false rect_state)
  /\ exists e1 e2 g,
       win_dict (snd (get_window test_double 4 None false rect_state))
         !! "Rectangular" = Some (VEntry e1)
       /\ win_dict (snd (get_window doubled_double 4 None false rect_state))
            !! "Rectangular" = Some (VEntry e2)
       /\ nenbw e1 = nenbw e2
       /\ cgain e1 = Some (Fin g) /\ cgain e2 = Some (Fin (2 * g)%R).
Proof.
  apply (normalization_scale_invariant test_double doubled_double rect_state
           (mk_state (win_dict rect_state)
              (trace rect_state
               ++ [Call (fn_ext scipy_signal_windows "boxcar") 4 [] false]))
           (mk_state (win_dict rect_state)
              (trace rect_state
               ++ [Call (fn_ext scipy_signal_windows "boxcar") 4 [] false]))
           4 false None "Rectangular" rect_entry
           (Some (fn_ext scipy_signal_windows "boxcar")) "boxcar" 0
           [1; 1; 1; 1]%R 2%R).
  - exists "Rectangular". split; [vm_compute; reflexivity|]. right.
    split; [now left|]. split; [reflexivity|]. exists [].
    split; [vm_compute; reflexivity|]. simpl. lia.
  - discriminate.
  - vm_compute. reflexivity.
  - reflexivity.
  - reflexivity.
  - reflexivity.
  - reflexivity.
  - reflexivity.
  - lia.
  - lra.
  - unfold Rsum. simpl. lra.
Defined.

(** ** Selecting a window: fallbacks, failures and repetition *)

Section SelectionSteps.
Variable env : environment.

Lemma known_or_rectangular_cases (d0 : gmap string value) (name : string)
    (s : state) :
  (is_Some (d0 !! name)
   /\ known_or_rectangular d0 name s = (Ok name, s))
  \/ (d0 !! name = None
      /\ known_or_rectangular d0 name s
         = (Ok "Rectangular",
            mk_state (win_dict s)
                     (trace s ++ [Log Warning (Unknown_window_name name)]))).
Proof.
  unfold known_or_rectangular.
  destruct (decide (is_Some (d0 !! name))) as [Hs|Hn].
  - left. now split.
  - right. split; [|reflexivity].
    destruct (d0 !! name) eqn:E; [|reflexivity]. exfalso. apply Hn. eauto.
Qed.

(** What the lookup of the function object hands to the two [update]
    calls: the requested name with its parameter count and a function
    object, or "Rectangular" with no parameter and whatever
    [getattr(sig.windows, 'boxcar', None)] gives, after one error record. *)
Lemma lookup_fnct_result (fn wn : string) (n0 : nat) (s s' : state)
    (f : option fnct) (wn' : string) (n' : nat) :
  lookup_fnct env fn wn n0 s = (Ok (f, wn', n'), s') ->
  (wn' = wn /\ n' = n0 /\ is_Some f /\ s' = s)
  \/ (wn' = "Rectangular" /\ n' = 0 /\ f = getattr_sig_windows env "boxcar"
      /\ exists m, s' = mk_state (win_dict s) (trace s ++ [Log Error m])).
Proof.
  unfold lookup_fnct. destruct (rsplit_dot fn) as [[m a]|].
  - unfold bind, lift.
    destruct (getattr_module env m a) as [[g|]|ex]; [| |discriminate].
    + intros [= <- <- <- <-]. left. eauto.
    + unfold log, emit, ret, rectangular_instead. intros [= <- <- <- <-].
      right. eauto.
  - destruct (getattr_sig_windows env fn) as [g|].
    + intros [= <- <- <- <-]. left. eauto.
    + unfold bind, log, emit, ret, rectangular_instead. intros [= <- <- <- <-].
      right. eauto.
Qed.

(** The steps of a successful [set_window_name]. *)
Lemma set_window_name_steps (name : string) (s s' : state) (f : option fnct) :
  set_window_name env name s = (Ok f, s') ->
  exists wn0 t1 d fn wn n e t2,
    ((is_Some (win_dict s !! name) /\ wn0 = name /\ t1 = [])
     \/ (win_dict s !! name = None /\ wn0 = "Rectangular"
         /\ t1 = [Log Warning (Unknown_window_name name)]))
    /\ win_dict s !! wn0 = Some (VEntry d)
    /\ fn_name d = Some fn
    /\ (forall s0,
          lookup_fnct env fn wn0
            (match par d with Some ps => length ps | None => 0 end) s0
          = (Ok (f, wn, n), mk_state (win_dict s0) (trace s0 ++ t2)))
    /\ win_dict s !! wn = Some (VEntry e)
    /\ wn <> "win" /\ wn <> "cur_win_name"
    /\ s' = mk_state (selection_dict (win_dict s) wn f n e)
                     (trace s ++ t1 ++ t2).
Proof.
  intros H. unfold set_window_name in H.
  apply bind_inv in H as (d0 & s0 & H0 & H). injection H0 as <- <-.
  apply bind_inv in H as (wn0 & s1 & H1 & H).
  assert (Hk : exists t1,
             s1 = mk_state (win_dict s) (trace s ++ t1)
             /\ ((is_Some (win_dict s !! name) /\ wn0 = name /\ t1 = [])
                 \/ (win_dict s !! name = None /\ wn0 = "Rectangular"
                     /\ t1 = [Log Warning (Unknown_window_name name)]))).
  { destruct (known_or_rectangular_cases (win_dict s) name s)
      as [[Hs Hk]|[Hn Hk]]; rewrite Hk in H1; injection H1 as <- <-.
    - exists []. rewrite state_eta. split; [reflexivity|]. left. now split.
    - eexists. split; [reflexivity|]. right. now split. }
  destruct Hk as (t1 & -> & Hcases).
  apply bind_inv in H as (d & s2 & H2 & H).
  apply entry_get_inv in H2 as [-> Hd]. cbn [win_dict] in Hd.
  apply bind_inv in H as (fn & s3 & H3 & H).
  destruct (fn_name d) as [fn'|] eqn:Efn; [|discriminate]. injection H3 as <- <-.
  apply bind_inv in H as ([[f' wn] n] & s4 & H4 & H).
  destruct (lookup_fnct_shape env fn' wn0
              (match par d with Some ps => length ps | None => 0 end))
    as (r & t2 & Hl & _).
  rewrite Hl in H4. injection H4 as -> <-.
  apply bind_inv in H as ([] & s5 & H5 & H). injection H as <- <-.
  apply store_selection_inv in H5 as (e & He & Hw & Hc & ->).
  cbn [win_dict trace] in *.
  exists wn0, t1, d, fn', wn, n, e, t2.
  rewrite app_assoc. repeat split; assumption.
Qed.

(** The converse: these steps make the call succeed. *)
Lemma set_window_name_replay (name : string) (s : state) (wn0 : string)
    (t1 : list event) (d : entry) (fn wn : string) (n : nat) (e : entry)
    (t2 : list event) (f : option fnct) :
  ((is_Some (win_dict s !! name) /\ wn0 = name /\ t1 = [])
   \/ (win_dict s !! name = None /\ wn0 = "Rectangular"
       /\ t1 = [Log Warning (Unknown_window_name name)])) ->
  win_dict s !! wn0 = Some (VEntry d) ->
  fn_name d = Some fn ->
  (forall s0,
      lookup_fnct env fn wn0
        (match par d with Some ps => length ps | None => 0 end) s0
      = (Ok (f, wn, n), mk_state (win_dict s0) (trace s0 ++ t2))) ->
  win_dict s !! wn = Some (VEntry e) ->
  wn <> "win" -> wn <> "cur_win_name" ->
  set_window_name env name s
  = (Ok f, mk_state (selection_dict (win_dict s) wn f n e)
             (trace s ++ t1 ++ t2)).
Proof.
  intros Hcases Hd Hfn Hl He Hw Hc.
  assert (Hk : known_or_rectangular (win_dict s) name s
               = (Ok wn0, mk_state (win_dict s) (trace s ++ t1))).
  { destruct (known_or_rectangular_cases (win_dict s) name s)
      as [[Hs Hk]|[Hn Hk]]; rewrite Hk;
      destruct Hcases as [(Hs' & -> & ->)|(Hn' & -> & ->)].
    - now rewrite state_eta.
    - rewrite Hn' in Hs. destruct Hs as [v Hv]. discriminate.
    - rewrite Hn in Hs'. destruct Hs' as [v Hv]. discriminate.
    - reflexivity. }
  unfold set_window_name.
  rewrite (bind_ok get_dict _ s s (win_dict s) eq_refl).
  rewrite (bind_ok _ _ _ _ _ Hk).
  rewrite (bind_ok _ _ _ _ _
             (entry_get_some (mk_state (win_dict s) (trace s ++ t1)) wn0 d Hd)).
  rewrite Hfn. unfold lift. cbn [field].
  rewrite (bind_ok _ _ _ _ fn eq_refl).
  rewrite (bind_ok _ _ _ _ _ (Hl _)). cbn [win_dict trace].
  rewrite (bind_ok _ _ _ _ _
             (store_selection_ok f wn n
                (mk_state (win_dict s) ((trace s ++ t1) ++ t2)) e He Hw Hc)).
  unfold ret. cbn [win_dict trace]. now rewrite app_assoc.
Qed.

Lemma selection_dict_entry (d : gmap string value) (wn : string)
    (f : option fnct) (n : nat) (e : entry) :
  selection_dict d wn f n e !! wn = Some (VEntry (selected f n e)).
Proof. apply lookup_insert_eq. Qed.

Lemma selection_dict_other (d : gmap string value) (wn : string)
    (f : option fnct) (n : nat) (e : entry) (k : string) :
  k <> wn -> k <> "win" -> k <> "cur_win_name" ->
  selection_dict d wn f n e !! k = d !! k.
Proof.
  intros H1 H2 H3. unfold selection_dict.
  rewrite !lookup_insert_ne by (intros E; symmetry in E; contradiction).
  reflexivity.
Qed.

Lemma selection_dict_again (d : gmap string value) (wn : string)
    (f : option fnct) (n : nat) (e : entry) :
  wn <> "win" -> wn <> "cur_win_name" ->
  selection_dict (selection_dict d wn f n e) wn f n (selected f n e)
  = selection_dict d wn f n e.
Proof.
  intros Hw Hc. apply map_eq. intros k.
  destruct (decide (k = wn)) as [->|Hk].
  { now rewrite !selection_dict_entry. }
  destruct (decide (k = "win")) as [->|Hkw].
  { now rewrite !selection_dict_win. }
  destruct (decide (k = "cur_win_name")) as [->|Hkc].
  { now rewrite !selection_dict_cur. }
  now rewrite selection_dict_other.
Qed.

End SelectionSteps.

Lemma lookup_fnct_missing (env : environment) (fn wn : string) (n0 : nat)
    (m : message) (s : state) :
  function_missing env fn m ->
  lookup_fnct env fn wn n0 s
  = (Ok (getattr_sig_windows env "boxcar", "Rectangular", 0),
     mk_state (win_dict s) (trace s ++ [Log Error m])).
Proof.
  intros [(Hs & Hhas & ->)|(mo & a & Hs & Hget & ->)]; unfold lookup_fnct;
    rewrite Hs.
  - unfold getattr_sig_windows at 1. rewrite Hhas. reflexivity.
  - unfold bind, lift. rewrite Hget. reflexivity.
Qed.

(** X6.  When the function of a known window cannot be found (no such
    attribute in [scipy.signal.windows], or none in the module that a
    dotted name gives), [set_window_name] logs one error and selects
    "Rectangular" instead: the current name becomes "Rectangular", the
    stored window is emptied, the "Rectangular" entry gets
    [getattr(sig.windows, 'boxcar', None)] and [n_par = 0], and that
    object is returned.  The entry that was asked for is not touched. *)
Theorem set_window_name_function_missing (env : environment) (s : state)
    (name : string) (e er : entry) (fn : string) (m : message) :
  win_dict s !! name = Some (VEntry e) ->
  fn_name e = Some fn ->
  function_missing env fn m ->
  win_dict s !! "Rectangular" = Some (VEntry er) ->
  set_window_name env name s
  = (Ok (getattr_sig_windows env "boxcar"),
     mk_state (selection_dict (win_dict s) "Rectangular"
                 (getattr_sig_windows env "boxcar") 0 er)
              (trace s ++ [Log Error m]))
  /\ (name <> "Rectangular" -> name <> "win" -> name <> "cur_win_name" ->
      selection_dict (win_dict s) "Rectangular"
        (getattr_sig_windows env "boxcar") 0 er !! name = Some (VEntry e)).
Proof.
  intros He Hfn Hmiss Hr. split.
  - apply (set_window_name_replay env name s name [] e fn "Rectangular" 0 er
             [Log Error m]); try assumption; try discriminate.
    + left. split; [eauto|now split].
    + intros s0. now apply lookup_fnct_missing.
  - intros H1 H2 H3. now rewrite selection_dict_other.
Qed.

Lemma set_window_name_function_missing_witness :
  set_window_name test_double "Slepian" slepian_rect_state
  = (Ok (getattr_sig_windows test_double "boxcar"),
     mk_state (selection_dict (win_dict slepian_rect_state) "Rectangular"
                 (getattr_sig_windows test_double "boxcar") 0
                 (mk_entry (Some "boxcar") None None None None None))
              (trace slepian_rect_state
               ++ [Log Error (No_window_function_in_scipy "slepian")]))
  /\ ("Slepian" <> "Rectangular" -> "Slepian" <> "win" ->
      "Slepian" <> "cur_win_name" ->
      selection_dict (win_dict slepian_rect_state) "Rectangular"
        (getattr_sig_windows test_double "boxcar") 0
        (mk_entry (Some "boxcar") None None None None None) !! "Slepian"
      = Some (VEntry slepian_entry)).
Proof.
  apply (set_window_name_function_missing test_double slepian_rect_state
           "Slepian" slepian_entry
           (mk_entry (Some "boxcar") None None None None None) "slepian"
           (No_window_function_in_scipy "slepian")).
  - vm_compute. reflexivity.
  - reflexivity.
  - left. split; [reflexivity|]. split; [vm_compute; reflexivity|reflexivity].
  - vm_compute. reflexivity.
Defined.

(** X7.  On a dictionary without the key "Rectangular" both fallbacks of
    [set_window_name] end in [KeyError("Rectangular")].  For a name that
    is not a key the error comes at the first subscript, after the
    warning and before any change.  For a known window whose function
    cannot be found it comes at the last [update]: by then
    ['cur_win_name'] has been set to "Rectangular", a key that the
    dictionary does not have, and the stored window has been emptied. *)
Theorem set_window_name_missing_rectangular (env : environment) (s : state) :
  win_dict s !! "Rectangular" = None ->
  (forall name : string,
      win_dict s !! name = None ->
      set_window_name env name s
      = (Raise (KeyError "Rectangular"),
         mk_state (win_dict s)
                  (trace s ++ [Log Warning (Unknown_window_name name)])))
  /\ (forall (name : string) (e : entry) (fn : string) (m : message),
        win_dict s !! name = Some (VEntry e) ->
        fn_name e = Some fn ->
        function_missing env fn m ->
        set_window_name env name s
        = (Raise (KeyError "Rectangular"),
           mk_state (<[ "win" := VWin (Array []) ]>
                       (<[ "cur_win_name" := VStr "Rectangular" ]> (win_dict s)))
                    (trace s ++ [Log Error m]))).
Proof.
  intros Hr. split.
  - intros name Hn. unfold set_window_name.
    rewrite (bind_ok get_dict _ s s (win_dict s) eq_refl).
    destruct (known_or_rectangular_cases (win_dict s) name s)
      as [[Hs _]|[_ Hk]].
    { rewrite Hn in Hs. destruct Hs as [v Hv]. discriminate. }
    rewrite (bind_ok _ _ _ _ _ Hk). mred. now rewrite Hr.
  - intros name e fn m He Hfn Hmiss. unfold set_window_name.
    rewrite (bind_ok get_dict _ s s (win_dict s) eq_refl).
    destruct (known_or_rectangular_cases (win_dict s) name s)
      as [[_ Hk]|[Hn _]]; [|rewrite Hn in He; discriminate].
    rewrite (bind_ok _ _ _ _ _ Hk).
    rewrite (bind_ok _ _ _ _ _ (entry_get_some s name e He)).
    rewrite Hfn. unfold lift. cbn [field].
    rewrite (bind_ok _ _ _ _ fn eq_refl).
    rewrite (bind_ok _ _ _ _ _ (lookup_fnct_missing env fn name _ m s Hmiss)).
    unfold store_selection. mred.
    rewrite !lookup_insert_ne by discriminate. now rewrite Hr.
Qed.

Lemma set_window_name_missing_rectangular_witness :
  set_window_name test_double "Nonexistent" slepian_state
  = (Raise (KeyError "Rectangular"),
     mk_state (win_dict slepian_state)
              (trace slepian_state
               ++ [Log Warning (Unknown_window_name "Nonexistent")]))
  /\ set_window_name test_double "Slepian" slepian_state
     = (Raise (KeyError "Rectangular"),
        mk_state (<[ "win" := VWin (Array []) ]>
                    (<[ "cur_win_name" := VStr "Rectangular" ]>
                       (win_dict slepian_state)))
                 (trace slepian_state
                  ++ [Log Error (No_window_function_in_scipy "slepian")])).
Proof.
  destruct (set_window_name_missing_rectangular test_double slepian_state
              ltac:(vm_compute; reflexivity)) as [H1 H2].
  split.
  - apply H1. vm_compute. reflexivity.
  - apply (H2 "Slepian" slepian_entry "slepian").
    + vm_compute. reflexivity.
    + reflexivity.
    + left. split; [reflexivity|]. split; [vm_compute; reflexivity|reflexivity].
Defined.

(** A second call with the same name repeats the first. *)
Lemma set_window_name_repeat (env : environment) (name : string)
    (s s1 : state) (f : option fnct) :
  set_window_name env name s = (Ok f, s1) ->
  name <> "win" -> name <> "cur_win_name" ->
  exists t,
    trace s1 = trace s ++ t
    /\ set_window_name env name s1
       = (Ok f, mk_state (win_dict s1) (trace s1 ++ t)).
Proof.
  intros H Hnw Hnc.
  apply set_window_name_steps in H
    as (wn0 & t1 & d & fn & wn & n & e & t2 & Hcases & Hd & Hfn & Hl & He
        & Hw & Hc & ->).
  exists (t1 ++ t2). cbn [win_dict trace]. split; [reflexivity|].
  assert (Hwn0 : wn0 <> "win" /\ wn0 <> "cur_win_name").
  { destruct Hcases as [(_ & -> & _)|(_ & -> & _)];
      [now split|split; discriminate]. }
  destruct Hwn0 as [Hw0 Hc0].
  set (d' := if decide (wn0 = wn) then selected f n e else d).
  assert (Hd' : selection_dict (win_dict s) wn f n e !! wn0 = Some (VEntry d')
                /\ fn_name d' = Some fn /\ par d' = par d).
  { unfold d'. destruct (decide (wn0 = wn)) as [->|Hne].
    - rewrite He in Hd. injection Hd as ->.
      split; [apply selection_dict_entry|]. now split.
    - rewrite selection_dict_other by assumption. now split. }
  destruct Hd' as (Hd1 & Hfn1 & Hpar1).
  rewrite <- (selection_dict_again (win_dict s) wn f n e Hw Hc) at 2.
  apply (set_window_name_replay env name
           (mk_state (selection_dict (win_dict s) wn f n e)
                     (trace s ++ t1 ++ t2))
           wn0 t1 d' fn wn n (selected f n e) t2 f); cbn [win_dict trace];
    try assumption.
  - destruct Hcases as [(Hs & -> & ->)|(Hn & -> & ->)].
    + left. split; [|now split]. rewrite Hd1. eauto.
    + right. split; [|now split].
      rewrite selection_dict_other; try assumption.
      intros ->. rewrite He in Hn. discriminate.
  - rewrite Hpar1. exact Hl.
  - apply selection_dict_entry.
Qed.

(** X8.  Selecting the same name again changes nothing: after a
    successful [set_window_name] for a name other than the two
    bookkeeping keys, a second call with that name returns the same
    function object and leaves the same dictionary; it only writes the
    log records of the first call once more. *)
Theorem set_window_name_idempotent (env : environment) (name : string)
    (s s1 : state) (f : option fnct) :
  set_window_name env name s = (Ok f, s1) ->
  name <> "win" -> name <> "cur_win_name" ->
  exists t,
    trace s1 = trace s ++ t
    /\ set_window_name env name s1
       = (Ok f, mk_state (win_dict s1) (trace s1 ++ t)).
Proof. apply set_window_name_repeat. Qed.

Lemma set_window_name_idempotent_witness :
  exists t,
    trace (snd (set_window_name test_double "Slepian" slepian_rect_state))
    = trace slepian_rect_state ++ t
    /\ set_window_name test_double "Slepian"
         (snd (set_window_name test_double "Slepian" slepian_rect_state))
       = (Ok (Some (fn_ext scipy_signal_windows "boxcar")),
          mk_state
            (win_dict (snd (set_window_name test_double "Slepian"
                              slepian_rect_state)))
            (trace (snd (set_window_name test_double "Slepian"
                           slepian_rect_state)) ++ t)).
Proof.
  apply (set_window_name_idempotent test_double "Slepian" slepian_rect_state).
  - vm_compute. reflexivity.
  - discriminate.
  - discriminate.
Defined.

(** X9.  What a successful [set_window_name] changes.  The family that
    ends up selected is the requested one or "Rectangular", and it was a
    window entry of the dictionary before.  Afterwards ['cur_win_name']
    names it, ['win'] is the empty list, and its entry differs from the
    old one only in ['win_fnct'] (the returned object) and ['n_par'],
    which is 0 or the length of its ['par'] list; a stale ['nenbw'] or
    ['cgain'] stays.  Every other key keeps its value, and the log only
    grows. *)
Theorem set_window_name_frame (env : environment) (name : string)
    (s s' : state) (f : option fnct) :
  set_window_name env name s = (Ok f, s') ->
  exists wn e n t,
    (wn = name \/ wn = "Rectangular")
    /\ win_dict s !! wn = Some (VEntry e)
    /\ trace s' = trace s ++ t
    /\ win_dict s' !! "cur_win_name" = Some (VStr wn)
    /\ win_dict s' !! "win" = Some (VWin (Array []))
    /\ win_dict s' !! wn
       = Some (VEntry (mk_entry (fn_name e) (par e) (Some f) (Some n)
                                (nenbw e) (cgain e)))
    /\ (n = 0 \/ exists ps, par e = Some ps /\ n = length ps)
    /\ (forall k, k <> wn -> k <> "win" -> k <> "cur_win_name" ->
                  win_dict s' !! k = win_dict s !! k).
Proof.
  intros H.
  apply set_window_name_steps in H
    as (wn0 & t1 & d & fn & wn & n & e & t2 & Hcases & Hd & Hfn & Hl & He
        & Hw & Hc & ->).
  exists wn, e, n, (t1 ++ t2). cbn [win_dict trace].
  destruct (lookup_fnct_result env _ _ _ _ _ _ _ _ (Hl s))
    as [(-> & -> & _)|(-> & -> & _)].
  - rewrite He in Hd. injection Hd as <-.
    split; [destruct Hcases as [(_ & -> & _)|(_ & -> & _)]; auto|].
    split; [assumption|]. split; [reflexivity|].
    split; [now apply selection_dict_cur|].
    split; [now apply selection_dict_win|].
    split; [apply selection_dict_entry|].
    split; [destruct (par e) as [ps|]; eauto|].
    intros k. apply selection_dict_other.
  - split; [now right|].
    split; [assumption|]. split; [reflexivity|].
    split; [now apply selection_dict_cur|].
    split; [now apply selection_dict_win|].
    split; [apply selection_dict_entry|].
    split; [now left|].
    intros k. apply selection_dict_other.
Qed.

Lemma set_window_name_frame_witness :
  exists wn e n t,
    (wn = "Kaiser" \/ wn = "Rectangular")
    /\ win_dict kaiser_state !! wn = Some (VEntry e)
    /\ trace (snd (set_window_name test_double "Kaiser" kaiser_state))
       = trace kaiser_state ++ t
    /\ win_dict (snd (set_window_name test_double "Kaiser" kaiser_state))
         !! "cur_win_name" = Some (VStr wn)
    /\ win_dict (snd (set_window_name test_double "Kaiser" kaiser_state))
         !! "win" = Some (VWin (Array []))
    /\ win_dict (snd (set_window_name test_double "Kaiser" kaiser_state)) !! wn
       = Some (VEntry (mk_entry (fn_name e) (par e) (Some (Some kaiser_fn))
                                (Some n) (nenbw e) (cgain e)))
    /\ (n = 0 \/ exists ps, par e = Some ps /\ n = length ps)
    /\ (forall k, k <> wn -> k <> "win" -> k <> "cur_win_name" ->
                  win_dict (snd (set_window_name test_double "Kaiser"
                                   kaiser_state)) !! k
                  = win_dict kaiser_state !! k).
Proof.
  apply (set_window_name_frame test_double "Kaiser" kaiser_state).
  vm_compute. reflexivity.
Defined.

(** X10.  The two bookkeeping keys cannot be selected as windows: once a
    selection has been made, ['cur_win_name'] holds a string and ['win']
    a list, so that [set_window_name] for either key raises [TypeError]
    at [d['fn_name']] and leaves the dictionary and the log as they
    were. *)
Theorem set_window_name_reserved_keys (env : environment) (name : string)
    (s s' : state) (f : option fnct) :
  set_window_name env name s = (Ok f, s') ->
  set_window_name env "cur_win_name" s' = (Raise TypeError, s')
  /\ set_window_name env "win" s' = (Raise TypeError, s').
Proof.
  intros H.
  apply set_window_name_inv in H as (wn & e & n & t & He & Hw & Hc & ->).
  pose proof (selection_dict_cur (win_dict s) wn f n e Hw Hc) as Hcur.
  pose proof (selection_dict_win (win_dict s) wn f n e Hw) as Hwin.
  set (s1 := mk_state (selection_dict (win_dict s) wn f n e) (trace s ++ t)).
  split; unfold set_window_name;
    rewrite (bind_ok get_dict _ s1 s1 (win_dict s1) eq_refl).
  - destruct (known_or_rectangular_cases (win_dict s1) "cur_win_name" s1)
      as [[_ Hk]|[Hn _]];
      [|unfold s1 in Hn; cbn [win_dict] in Hn; rewrite Hcur in Hn; discriminate].
    rewrite (bind_ok _ _ _ _ _ Hk). mred. unfold s1 at 1. cbn [win_dict].
    now rewrite Hcur.
  - destruct (known_or_rectangular_cases (win_dict s1) "win" s1)
      as [[_ Hk]|[Hn _]];
      [|unfold s1 in Hn; cbn [win_dict] in Hn; rewrite Hwin in Hn; discriminate].
    rewrite (bind_ok _ _ _ _ _ Hk). mred. unfold s1 at 1. cbn [win_dict].
    now rewrite Hwin.
Qed.

Lemma set_window_name_reserved_keys_witness :
  set_window_name test_double "cur_win_name"
    (snd (set_window_name test_double "Rectangular" rect_state))
  = (Raise TypeError, snd (set_window_name test_double "Rectangular" rect_state))
  /\ set_window_name test_double "win"
       (snd (set_window_name test_double "Rectangular" rect_state))
     = (Raise TypeError,
        snd (set_window_name test_double "Rectangular" rect_state)).
Proof.
  apply (set_window_name_reserved_keys test_double "Rectangular" rect_state _
           (Some (fn_ext scipy_signal_windows "boxcar"))).
  vm_compute. reflexivity.
Defined.

(** ** [get_window]: failures, totality after a selection, and what it
       leaves alone *)

Section ComputeFacts.
Variable env : environment.

(** [compute_window] either raises before it has changed anything, or
    stores the statistics and the normalized window of some array [w]. *)
Lemma compute_window_result (N : nat) (name : string) (sym : bool) (s : state) :
  (exists ex, compute_window env N name sym s = (Raise ex, s))
  \/ (exists e f fn n w t,
        win_dict s !! name = Some (VEntry e)
        /\ win_fnct e = Some f /\ fn_name e = Some fn /\ n_par e = Some n
        /\ compute_window env N name sym s
           = (Ok (nd_div_s w (cgain_of N w)),
              mk_state
                (<[ "win" := VWin (nd_div_s w (cgain_of N w)) ]>
                   (<[ name := VEntry (with_stats N w e) ]> (win_dict s)))
                (trace s ++ t))).
Proof.
  destruct (win_dict s !! name) as [[c|w|e]|] eqn:E.
  - left. exists TypeError. unfold compute_window. mred. now rewrite E.
  - left. exists TypeError. unfold compute_window. mred. now rewrite E.
  - destruct (win_fnct e) as [f|] eqn:Ef.
    2:{ left. exists (KeyError "win_fnct"). unfold compute_window.
        rewrite (bind_ok _ _ _ _ _ (entry_get_some s name e E)).
        rewrite Ef. reflexivity. }
    destruct (fn_name e) as [fn|] eqn:Efn.
    2:{ left. exists (KeyError "fn_name"). unfold compute_window.
        rewrite (bind_ok _ _ _ _ _ (entry_get_some s name e E)).
        rewrite Ef, Efn. reflexivity. }
    destruct (n_par e) as [n|] eqn:En.
    2:{ left. exists (KeyError "n_par"). unfold compute_window.
        rewrite (bind_ok _ _ _ _ _ (entry_get_some s name e E)).
        rewrite Ef, Efn, En. reflexivity. }
    right. destruct (generate_shape env e f fn n N sym) as (r & t & Hg).
    specialize (Hg e s eq_refl).
    exists e, f, fn, n, (fst (settle fn N r)), (t ++ snd (settle fn N r)).
    repeat (split; [assumption || reflexivity|]).
    rewrite (compute_window_after_generate env N name sym s _ e f fn n r
               E Ef Efn En Hg).
    cbn [trace]. now rewrite app_assoc.
  - left. exists (KeyError name). unfold compute_window. mred. now rewrite E.
Qed.

Lemma get_window_named_current (N : nat) (name : string) (sym : bool)
    (s : state) (v : value) :
  win_dict s !! "cur_win_name" = Some v -> is_name name v = true ->
  get_window env N (Some name) sym s = get_window env N None sym s.
Proof.
  intros Hc Hn. unfold get_window. mred. rewrite Hc. mred. rewrite Hn.
  cbv beta iota. rewrite ?Hc. reflexivity.
Qed.

(** [get_window] raises before it has changed anything, or it returns
    the stored window, or it is [compute_window] for some family. *)
Lemma get_window_cases (N : nat) (req : option string) (sym : bool) (s : state) :
  (exists ex, get_window env N req sym s = (Raise ex, s))
  \/ (exists w, get_window env N req sym s = (Ok w, s)
                /\ win_dict s !! "win" = Some (VWin w))
  \/ (exists name, get_window env N req sym s = compute_window env N name sym s).
Proof.
  assert (Hnone : (exists ex, get_window env N None sym s = (Raise ex, s))
            \/ (exists w, get_window env N None sym s = (Ok w, s)
                          /\ win_dict s !! "win" = Some (VWin w))
            \/ (exists name, get_window env N None sym s
                             = compute_window env N name sym s)).
  { unfold get_window. mred.
    destruct (win_dict s !! "cur_win_name") as [v|] eqn:Ec; [|left; eauto].
    mred. destruct (win_dict s !! "win") as [[c|w|e]|] eqn:Ew;
      [left; eauto| |left; eauto|left; eauto].
    mred. destruct w as [x|l]; [left; eauto|]. mred.
    destruct (Nat.eqb (length l) N); [right; left; eauto|].
    destruct v as [cur|w'|e']; [|left; eauto|left; eauto].
    right. right. exists cur. reflexivity. }
  destruct req as [name|]; [|exact Hnone].
  destruct (win_dict s !! "cur_win_name") as [v|] eqn:Ec.
  - destruct (is_name name v) eqn:En.
    + now rewrite (get_window_named_current N name sym s v Ec En).
    + right. right. exists name. unfold get_window. mred. rewrite Ec. mred.
      now rewrite En.
  - left. exists (KeyError "cur_win_name"). unfold get_window. mred.
    now rewrite Ec.
Qed.

End ComputeFacts.

(** X11.  For a number of points [N >= 0] and window functions that
    return an array of floats or [None], or raise: a failing
    [get_window] has changed nothing.  When it raises (a missing key, a
    value of the wrong kind), the dictionary and the log are as before
    the call; an exception of the window function does not get that far,
    it ends in the rectangular fallback. *)
Theorem get_window_failure_changes_nothing (env : environment) (N : nat)
    (req : option string) (sym : bool) (s s' : state) (ex : exn) :
  get_window env N req sym s = (Raise ex, s') -> s' = s.
Proof.
  intros H. destruct (get_window_cases env N req sym s)
    as [[ex' H1]|[(w & H1 & _)|[name H1]]]; rewrite H1 in H.
  - now injection H as _ <-.
  - discriminate.
  - destruct (compute_window_result env N name sym s)
      as [[ex' H2]|(e & f & fn & n & w & t & _ & _ & _ & _ & H2)];
      rewrite H2 in H; [now injection H as _ <-|discriminate].
Qed.

Lemma get_window_failure_changes_nothing_witness :
  snd (get_window test_double 4 (Some "Hann") false rect_state) = rect_state.
Proof.
  apply (get_window_failure_changes_nothing test_double 4 (Some "Hann") false
           rect_state _ (KeyError "Hann")).
  vm_compute. reflexivity.
Defined.

(** X12.  After a successful [set_window_name], [get_window] for the
    current family does not raise, for every [N >= 0] and [sym] and for
    every window function that returns an array of floats or [None], or
    raises: it returns an array, which is then the value of ['win'], and
    the current name stays.  (The fallback of [set_window_name] does not
    read the ['fn_name'] of "Rectangular"; [get_window] does, so that
    entry has to have one.) *)
Theorem get_window_after_selection (env : environment) (name : string)
    (s s1 : state) (f : option fnct) (N : nat) (sym : bool) :
  set_window_name env name s = (Ok f, s1) ->
  (forall er, win_dict s !! "Rectangular" = Some (VEntry er) ->
              is_Some (fn_name er)) ->
  exists w s2,
    get_window env N None sym s1 = (Ok w, s2)
    /\ win_dict s2 !! "win" = Some (VWin w)
    /\ win_dict s2 !! "cur_win_name" = win_dict s1 !! "cur_win_name".
Proof.
  intros H Hrect.
  apply set_window_name_steps in H
    as (wn0 & t1 & d & fn & wn & n & e & t2 & Hcases & Hd & Hfn & Hl & He
        & Hw & Hc & ->).
  set (s1 := mk_state (selection_dict (win_dict s) wn f n e)
                      (trace s ++ t1 ++ t2)).
  pose proof (selection_dict_cur (win_dict s) wn f n e Hw Hc) as Hcur.
  pose proof (selection_dict_win (win_dict s) wn f n e Hw) as Hwin.
  rewrite (get_window_current env N sym s1 wn [] None Hcur Hwin (or_introl eq_refl)).
  destruct (Nat.eqb (length (@nil npfloat)) N).
  { exists (Array []), s1. now repeat split. }
  assert (Hfe : is_Some (fn_name e)).
  { destruct (lookup_fnct_result env _ _ _ _ _ _ _ _ (Hl s))
      as [(-> & _)|(-> & _)]; [|now apply Hrect].
    rewrite He in Hd. injection Hd as ->. eauto. }
  destruct Hfe as [fn0 Hfn0].
  destruct (generate_shape env (selected f n e) f fn0 n N sym) as (r & t & Hg).
  specialize (Hg (selected f n e) s1 eq_refl).
  rewrite (compute_window_after_generate env N wn sym s1 _ (selected f n e)
             f fn0 n r (selection_dict_entry _ wn f n e) eq_refl Hfn0 eq_refl Hg).
  eexists. eexists. split; [reflexivity|]. cbn [win_dict].
  split; [apply lookup_insert_eq|].
  rewrite lookup_insert_ne by discriminate.
  rewrite lookup_insert_ne by (intros E; now apply Hc). reflexivity.
Qed.

Lemma get_window_after_selection_witness :
  exists w s2,
    get_window test_double 4 None true
      (snd (set_window_name test_double "Slepian" slepian_rect_state))
    = (Ok w, s2)
    /\ win_dict s2 !! "win" = Some (VWin w)
    /\ win_dict s2 !! "cur_win_name"
       = win_dict (snd (set_window_name test_double "Slepian"
                          slepian_rect_state)) !! "cur_win_name".
Proof.
  apply (get_window_after_selection test_double "Slepian" slepian_rect_state _
           (Some (fn_ext scipy_signal_windows "boxcar"))).
  - vm_compute. reflexivity.
  - intros er H. vm_compute in H. injection H as <-. eauto.
Defined.

(** X13.  What [get_window] leaves alone.  A successful call on a
    dictionary whose ['cur_win_name'] is a string never changes that
    name, not even when it computes the window of another family and
    stores it: afterwards ['win'] holds the returned array, every window
    entry is still a window entry with the same ['fn_name'], ['par'],
    ['win_fnct'] and ['n_par'] (only ['nenbw'] and ['cgain'] of the
    computed family are written), and the log has only grown. *)
Theorem get_window_frame (env : environment) (N : nat) (req : option string)
    (sym : bool) (s s' : state) (w : ndarray) (cur : string) :
  win_dict s !! "cur_win_name" = Some (VStr cur) ->
  get_window env N req sym s = (Ok w, s') ->
  win_dict s' !! "cur_win_name" = Some (VStr cur)
  /\ win_dict s' !! "win" = Some (VWin w)
  /\ (exists t, trace s' = trace s ++ t)
  /\ (forall k e, k <> "win" -> win_dict s !! k = Some (VEntry e) ->
        exists e', win_dict s' !! k = Some (VEntry e')
                   /\ fn_name e' = fn_name e /\ par e' = par e
                   /\ win_fnct e' = win_fnct e /\ n_par e' = n_par e).
Proof.
  intros Hcur H. destruct (get_window_cases env N req sym s)
    as [[ex H1]|[(w1 & H1 & Hw1)|[name H1]]]; rewrite H1 in H.
  - discriminate.
  - injection H as <- <-. split; [assumption|]. split; [assumption|].
    split; [exists []; now rewrite app_nil_r|].
    intros k e _ Hk. exists e. now repeat split.
  - destruct (compute_window_result env N name sym s)
      as [[ex H2]|(e0 & f & fn & n & w0 & t & He0 & _ & _ & _ & H2)];
      rewrite H2 in H; [discriminate|].
    injection H as <- <-. cbn [win_dict trace].
    assert (Hname : name <> "cur_win_name").
    { intros ->. rewrite Hcur in He0. discriminate. }
    split.
    { rewrite lookup_insert_ne by discriminate.
      rewrite lookup_insert_ne by assumption. exact Hcur. }
    split; [apply lookup_insert_eq|]. split; [now exists t|].
    intros k e Hk He.
    rewrite lookup_insert_ne by (intros E; symmetry in E; contradiction).
    destruct (decide (k = name)) as [->|Hkn].
    + rewrite lookup_insert_eq. rewrite He0 in He. injection He as <-.
      exists (with_stats N w0 e0). now repeat split.
    + rewrite lookup_insert_ne by (intros E; symmetry in E; contradiction).
      exists e. now repeat split.
Qed.

Lemma get_window_frame_witness :
  win_dict (snd (get_window test_double 4 (Some "Rectangular") false both_state))
    !! "cur_win_name" = Some (VStr "Rectangular")
  /\ win_dict (snd (get_window test_double 4 (Some "Rectangular") false
                      both_state)) !! "win"
     = Some (VWin (nd_div_s (ones 4) (cgain_of 4 (ones 4))))
  /\ (exists t,
        trace (snd (get_window test_double 4 (Some "Rectangular") false
                      both_state))
        = trace both_state ++ t)
  /\ (forall k e, k <> "win" -> win_dict both_state !! k = Some (VEntry e) ->
        exists e',
          win_dict (snd (get_window test_double 4 (Some "Rectangular") false
                           both_state)) !! k = Some (VEntry e')
          /\ fn_name e' = fn_name e /\ par e' = par e
          /\ win_fnct e' = win_fnct e /\ n_par e' = n_par e).
Proof.
  apply (get_window_frame test_double 4 (Some "Rectangular") false both_state).
  - vm_compute. reflexivity.
  - vm_compute. reflexivity.
Defined.

(** ** The list of valid window names *)

Section OrderFacts.

Lemma ascii_compare_refl (a : ascii) : Ascii.compare a a = Eq.
Proof. unfold Ascii.compare. apply N.compare_refl. Qed.

Lemma ascii_compare_lt_trans (a b c : ascii) :
  Ascii.compare a b = Lt -> Ascii.compare b c = Lt -> Ascii.compare a c = Lt.
Proof. unfold Ascii.compare. rewrite !N.compare_lt_iff. apply N.lt_trans. Qed.

Lemma string_compare_refl (x : string) : String.compare x x = Eq.
Proof.
  induction x as [|a x IH]; simpl; [reflexivity|].
  now rewrite ascii_compare_refl.
Qed.

Lemma string_compare_lt_trans (x y z : string) :
  String.compare x y = Lt -> String.compare y z = Lt -> String.compare x z = Lt.
Proof.
  revert y z. induction x as [|a x IH]; intros [|b y] [|c z]; simpl;
    try discriminate; try reflexivity.
  destruct (Ascii.compare a b) eqn:Eab; try discriminate.
  - apply Ascii.compare_eq_iff in Eab as ->.
    destruct (Ascii.compare b c); try discriminate; [apply IH|reflexivity].
  - intros _. destruct (Ascii.compare b c) eqn:Ebc; try discriminate.
    + apply Ascii.compare_eq_iff in Ebc as <-. now rewrite Eab.
    + intros _. now rewrite (ascii_compare_lt_trans a b c).
Qed.

Lemma string_leb_trans (x y z : string) :
  String.leb x y = true -> String.leb y z = true -> String.leb x z = true.
Proof.
  unfold String.leb.
  destruct (String.compare x y) eqn:Exy; try discriminate;
    destruct (String.compare y z) eqn:Eyz; try discriminate; intros _ _.
  - apply String.compare_eq_iff in Exy as ->. now rewrite Eyz.
  - apply String.compare_eq_iff in Exy as ->. now rewrite Eyz.
  - apply String.compare_eq_iff in Eyz as <-. now rewrite Exy.
  - now rewrite (string_compare_lt_trans x y z).
Qed.

(** The sort key [(v.lower(), v)] gives a total preorder. *)
Lemma key_le_total (a b : string) : key_le a b \/ key_le b a.
Proof.
  unfold key_le. rewrite (String.compare_antisym (lower b) (lower a)).
  destruct (String.compare (lower a) (lower b)); simpl; auto.
  destruct (String.leb_total a b) as [H|H]; rewrite H; simpl; auto.
Qed.

Lemma key_le_trans (a b c : string) : key_le a b -> key_le b c -> key_le a c.
Proof.
  unfold key_le.
  destruct (String.compare (lower a) (lower b)) eqn:Eab; try contradiction;
    destruct (String.compare (lower b) (lower c)) eqn:Ebc; try contradiction;
    intros Hab Hbc.
  - apply String.compare_eq_iff in Eab, Ebc. rewrite Eab, Ebc.
    rewrite string_compare_refl. apply Is_true_true.
    apply Is_true_true in Hab, Hbc. now apply (string_leb_trans a b c).
  - apply String.compare_eq_iff in Eab. now rewrite Eab, Ebc.
  - apply String.compare_eq_iff in Ebc. now rewrite <- Ebc, Eab.
  - now rewrite (string_compare_lt_trans _ _ _ Eab Ebc).
Qed.

End OrderFacts.

Section ValidListFacts.

Lemma is_window_true (v : value) :
  Is_true (is_window v) <-> exists e, v = VEntry e /\ is_Some (fn_name e).
Proof.
  destruct v as [c|w|e]; simpl.
  - split; [contradiction|intros (e & H & _); discriminate].
  - split; [contradiction|intros (e & H & _); discriminate].
  - rewrite bool_decide_spec. split.
    + intros H. exists e. now split.
    + intros (e' & [= <-] & H). exact H.
Qed.

(** The keys that define a window. *)
Lemma elem_of_valid_keys (d : gmap string value) (k : string) :
  k ∈ map fst (filter (fun kv => Is_true (is_window (snd kv))) (map_to_list d))
  <-> exists e, d !! k = Some (VEntry e) /\ is_Some (fn_name e).
Proof.
  change (map fst ?l) with (fst <$> l). rewrite list_elem_of_fmap. split.
  - intros ([k' v] & -> & H). apply list_elem_of_filter in H as [Hw Hin].
    apply elem_of_map_to_list in Hin. cbn [snd] in Hw.
    apply is_window_true in Hw as (e & Hv & He). subst v.
    exists e. now split.
  - intros (e & Hk & He). exists (k, VEntry e). split; [reflexivity|].
    apply list_elem_of_filter. split; [|now apply elem_of_map_to_list].
    apply is_window_true. exists e. now split.
Qed.

Lemma NoDup_valid_keys (d : gmap string value) :
  NoDup (map fst (filter (fun kv => Is_true (is_window (snd kv)))
                         (map_to_list d))).
Proof.
  change (map fst ?l) with (fst <$> l).
  apply (sublist_NoDup _ (fst <$> map_to_list d)).
  - apply NoDup_fst_map_to_list.
  - apply fmap_sublist, sublist_filter.
Qed.

Lemma warn_ignored_run (names wl : list string) (s : state) :
  warn_ignored names wl s
  = (Ok tt, mk_state (win_dict s)
              (trace s ++ map (fun wn => Log Warning (Ignoring_window_name wn))
                              (filter (fun wn => wn ∉ wl) names))).
Proof.
  revert s. induction names as [|wn names IH]; intros s.
  - simpl. unfold ret. now rewrite state_eta.
  - cbn [warn_ignored]. rewrite filter_cons.
    destruct (decide (wn ∉ wl)) as [Hn|Hn].
    + rewrite bool_decide_eq_false_2 by assumption.
      unfold bind at 1. unfold log, emit. rewrite IH. cbn [win_dict trace map].
      now rewrite <- app_assoc.
    + rewrite bool_decide_eq_true_2 by (now apply dec_stable).
      unfold bind at 1. unfold ret at 1. apply IH.
Qed.

(** The run of [get_valid_windows_list] on the dictionary that it
    consults: the given one, or the catalogue when that is empty. *)
Lemma get_valid_windows_list_run (names : list string) (d : gmap string value)
    (s : state) :
  exists wl,
    get_valid_windows_list names d s
    = (Ok (merge_sort key_le wl),
       mk_state (win_dict s)
         (trace s ++ map (fun wn => Log Warning (Ignoring_window_name wn))
                         (filter (fun wn => wn ∉ wl) names)))
    /\ NoDup wl
    /\ forall k, k ∈ wl <->
         (exists e, (if bool_decide (d = ∅) then all_windows_dict else d) !! k
                    = Some (VEntry e) /\ is_Some (fn_name e))
         /\ (names = [] \/ k ∈ names).
Proof.
  unfold get_valid_windows_list. cbv zeta.
  set (d' := if bool_decide (d = ∅) then all_windows_dict else d).
  set (valid := map fst (filter (fun kv => Is_true (is_window (snd kv)))
                                (map_to_list d'))).
  destruct names as [|n0 names].
  - exists valid. split; [unfold ret; now rewrite state_eta|].
    split; [apply NoDup_valid_keys|].
    intros k. unfold valid. rewrite elem_of_valid_keys. split.
    + intros H. split; [exact H|now left].
    + now intros [H _].
  - exists (filter (fun k => k ∈ n0 :: names) valid). split.
    + unfold bind. rewrite warn_ignored_run. reflexivity.
    + split; [apply NoDup_filter, NoDup_valid_keys|].
      intros k. rewrite list_elem_of_filter. unfold valid.
      rewrite elem_of_valid_keys. split.
      * intros [Hin H]. split; [exact H|now right].
      * intros [H [Hn|Hin]]; [discriminate|now split].
Qed.

End ValidListFacts.

(** X14.  [get_valid_windows_list] never raises and leaves the
    dictionary alone.  On a dictionary with ASCII keys (the catalogue is
    one) its result is sorted by [(v.lower(), v)] (every name is below
    every later one), has no duplicates, and holds exactly the keys of
    the consulted dictionary (the given one, or the catalogue when that
    is empty) that are bound to a sub-dictionary with a ['fn_name'] and,
    for a non-empty request, are requested. *)
Theorem get_valid_windows_list_sorted (names : list string)
    (d : gmap string value) (s : state) :
  map_Forall (fun k _ => Is_true (ascii_only k))
             (if bool_decide (d = ∅) then all_windows_dict else d) ->
  exists l t,
    get_valid_windows_list names d s
    = (Ok l, mk_state (win_dict s) (trace s ++ t))
    /\ StronglySorted key_le l
    /\ NoDup l
    /\ Forall (fun k => Is_true (ascii_only k)) l
    /\ forall k, k ∈ l <->
         (exists e, (if bool_decide (d = ∅) then all_windows_dict else d) !! k
                    = Some (VEntry e) /\ is_Some (fn_name e))
         /\ (names = [] \/ k ∈ names).
Proof.
  intros Hascii.
  destruct (get_valid_windows_list_run names d s) as (wl & Hrun & Hnd & Hin).
  eexists. eexists. split; [exact Hrun|].
  split; [apply StronglySorted_merge_sort;
          [intros a b c; apply key_le_trans|intros a b; apply key_le_total]|].
  split; [now rewrite merge_sort_Permutation|].
  split.
  - apply Forall_forall. intros k Hk. rewrite merge_sort_Permutation in Hk.
    apply Hin in Hk as [(e & He & _) _]. exact (Hascii k _ He).
  - intros k. rewrite merge_sort_Permutation. apply Hin.
Qed.

Lemma get_valid_windows_list_sorted_witness :
  exists l t,
    get_valid_windows_list ["hann"; "Kaiser"; "Hann"] ∅ empty_state
    = (Ok l, mk_state (win_dict empty_state) (trace empty_state ++ t))
    /\ StronglySorted key_le l
    /\ NoDup l
    /\ Forall (fun k => Is_true (ascii_only k)) l
    /\ forall k, k ∈ l <->
         (exists e, (if bool_decide ((∅ : gmap string value) = ∅)
                     then all_windows_dict else ∅) !! k
                    = Some (VEntry e) /\ is_Some (fn_name e))
         /\ (["hann"; "Kaiser"; "Hann"] = [] \/ k ∈ ["hann"; "Kaiser"; "Hann"]).
Proof.
  apply (get_valid_windows_list_sorted ["hann"; "Kaiser"; "Hann"] ∅ empty_state).
  apply map_Forall_to_list. vm_compute. repeat constructor.
Defined.

(** X15.  The warnings of [get_valid_windows_list]: one record for each
    requested name that is not in the result, in the order of the
    request (a name requested twice is reported twice), and nothing
    else. *)
Theorem get_valid_windows_list_warnings (names : list string)
    (d : gmap string value) (s s' : state) (l : list string) :
  get_valid_windows_list names d s = (Ok l, s') ->
  win_dict s' = win_dict s
  /\ trace s'
     = trace s ++ map (fun wn => Log Warning (Ignoring_window_name wn))
                      (filter (fun wn => wn ∉ l) names).
Proof.
  intros H.
  destruct (get_valid_windows_list_run names d s) as (wl & Hrun & _ & _).
  rewrite Hrun in H. injection H as <- <-. cbn [win_dict trace].
  split; [reflexivity|]. f_equal. f_equal. apply list_filter_iff.
  intros wn. now rewrite merge_sort_Permutation.
Qed.

Lemma get_valid_windows_list_warnings_witness :
  win_dict (snd (get_valid_windows_list ["Hann"; "Nope"; "win"; "Nope"] ∅
                   rect_state))
  = win_dict rect_state
  /\ trace (snd (get_valid_windows_list ["Hann"; "Nope"; "win"; "Nope"] ∅
                   rect_state))
     = trace rect_state
       ++ map (fun wn => Log Warning (Ignoring_window_name wn))
              (filter (fun wn => wn ∉ ["Hann"]) ["Hann"; "Nope"; "win"; "Nope"]).
Proof.
  apply (get_valid_windows_list_warnings ["Hann"; "Nope"; "win"; "Nope"] ∅
           rect_state).
  vm_compute. reflexivity.
Defined.

(** ** Building the dictionary of a view *)

Lemma subdictionary_lookup (m : gmap string value) (l : list string)
    (k : string) :
  (list_to_map (omap (fun k => pair k <$> m !! k) l) : gmap string value) !! k
  = if decide (k ∈ l) then m !! k else None.
Proof.
  induction l as [|a l IH].
  - simpl. rewrite lookup_empty. now destruct (decide (k ∈ [])).
  - cbn [omap list_omap]. destruct (m !! a) as [v|] eqn:Ea; cbn [fmap option_fmap option_map].
    + cbn [list_to_map foldr]. destruct (decide (k = a)) as [->|Hne].
      * rewrite lookup_insert_eq. rewrite decide_True by (now left).
        now rewrite Ea.
      * rewrite lookup_insert_ne by (intros E; now apply Hne). rewrite IH.
        destruct (decide (k ∈ l)) as [Hin|Hin].
        -- now rewrite decide_True by (now right).
        -- rewrite decide_False; [reflexivity|].
           intros H. apply elem_of_cons in H as [H|H]; contradiction.
    + rewrite IH. destruct (decide (k = a)) as [->|Hne].
      * rewrite Ea. now destruct (decide (a ∈ l)), (decide (a ∈ a :: l)).
      * destruct (decide (k ∈ l)) as [Hin|Hin].
        -- now rewrite decide_True by (now right).
        -- rewrite decide_False; [reflexivity|].
           intros H. apply elem_of_cons in H as [H|H]; contradiction.
Qed.

Lemma set_window_name_unknown_raises (env : environment) (name : string)
    (s : state) :
  win_dict s !! name = None ->
  win_dict s !! "Rectangular" = None ->
  set_window_name env name s
  = (Raise (KeyError "Rectangular"),
     mk_state (win_dict s)
              (trace s ++ [Log Warning (Unknown_window_name name)])).
Proof.
  intros Hn Hr. unfold set_window_name.
  rewrite (bind_ok get_dict _ s s (win_dict s) eq_refl).
  destruct (known_or_rectangular_cases (win_dict s) name s)
    as [[Hs _]|[_ Hk]].
  { rewrite Hn in Hs. destruct Hs as [v Hv]. discriminate. }
  rewrite (bind_ok _ _ _ _ _ Hk). mred. now rewrite Hr.
Qed.

(** X16.  [get_windows_dict] needs "Rectangular" for its fallback.  For
    a non-empty list of names that does not hold "Rectangular", a
    current name that is not in the list (or not in the catalogue) makes
    the call raise [KeyError("Rectangular")], after the warning about
    the unknown name: no dictionary is returned.  With the default
    [cur_win_name="Rectangular"] this is the case for every such list. *)
Theorem get_windows_dict_needs_rectangular (env : environment)
    (names : list string) (cur : string) (s : state) :
  names <> [] ->
  "Rectangular" ∉ names ->
  cur ∉ names \/ all_windows_dict !! cur = None ->
  exists s' t,
    get_windows_dict env names cur s = (Raise (KeyError "Rectangular"), s')
    /\ trace s' = trace s ++ t ++ [Log Warning (Unknown_window_name cur)].
Proof.
  intros Hne Hrect Hcur. unfold get_windows_dict.
  destruct (get_valid_windows_list_run names ∅ s) as (wl & Hrun & _ & Hin).
  rewrite (bind_ok _ _ _ _ _ Hrun). unfold put_dict at 1. unfold bind at 1 2.
  cbn [win_dict trace].
  set (D := list_to_map _).
  assert (Hmem : forall k, k ∉ names -> D !! k = None).
  { intros k Hk. unfold D. rewrite subdictionary_lookup.
    rewrite decide_False; [reflexivity|].
    rewrite merge_sort_Permutation, Hin. intros [_ [H|H]]; contradiction. }
  assert (HDcur : D !! cur = None).
  { destruct Hcur as [Hc|Hc]; [now apply Hmem|].
    unfold D. rewrite subdictionary_lookup.
    now destruct (decide (cur ∈ merge_sort key_le wl)). }
  match goal with
  | |- context [set_window_name env cur ?st] =>
      rewrite (set_window_name_unknown_raises env cur st HDcur (Hmem _ Hrect))
  end.
  eexists. eexists. split; [reflexivity|]. cbn [trace].
  now rewrite <- app_assoc.
Qed.

Lemma get_windows_dict_needs_rectangular_witness :
  exists s' t,
    get_windows_dict test_double ["Hann"; "Kaiser"] "Rectangular" empty_state
    = (Raise (KeyError "Rectangular"), s')
    /\ trace s' = trace empty_state ++ t
                  ++ [Log Warning (Unknown_window_name "Rectangular")].
Proof.
  apply (get_windows_dict_needs_rectangular test_double ["Hann"; "Kaiser"]
           "Rectangular" empty_state).
  - discriminate.
  - intros H. vm_compute in H. repeat (apply elem_of_cons in H as [H|H];
      [discriminate|]). now apply elem_of_nil in H.
  - left. intros H. repeat (apply elem_of_cons in H as [H|H];
      [discriminate|]). now apply elem_of_nil in H.
Defined.

(** ** The clamp of a line edit *)

(** X17.  The clamp of [update_win_params] with bounds [min <= max] that
    are numbers: every number, the infinities included, ends within the
    bounds, a value within the bounds is kept, and clamping twice is
    clamping once.  A nan is not clamped: both comparisons are false for
    it, and it is stored as the parameter value. *)
Theorem clamp_within_bounds (x lo hi : npfloat) :
  lo <> NaN -> hi <> NaN -> np_ltb hi lo = false ->
  (x <> NaN ->
   np_ltb (clamp x lo hi) lo = false /\ np_ltb hi (clamp x lo hi) = false)
  /\ (np_ltb x lo = false -> np_ltb hi x = false -> clamp x lo hi = x)
  /\ clamp (clamp x lo hi) lo hi = clamp x lo hi
  /\ clamp NaN lo hi = NaN.
Proof.
  intros Hlo Hhi Hle.
  destruct lo as [l| | |]; try congruence;
    destruct hi as [h| | |]; try congruence;
    destruct x as [r| | |]; unfold clamp; simpl in *;
    repeat match goal with
           | |- context [Rlt_dec ?a ?b] => destruct (Rlt_dec a b); simpl
           | H : context [Rlt_dec ?a ?b] |- _ => destruct (Rlt_dec a b); simpl in H
           end;
    try discriminate; repeat split; intros; try reflexivity; try congruence;
    try (exfalso; lra).
Qed.

Lemma clamp_within_bounds_witness :
  (PInf <> NaN ->
   np_ltb (clamp PInf (Fin 0) (Fin 30)) (Fin 0) = false
   /\ np_ltb (Fin 30) (clamp PInf (Fin 0) (Fin 30)) = false)
  /\ (np_ltb PInf (Fin 0) = false -> np_ltb (Fin 30) PInf = false ->
      clamp PInf (Fin 0) (Fin 30) = PInf)
  /\ clamp (clamp PInf (Fin 0) (Fin 30)) (Fin 0) (Fin 30)
     = clamp PInf (Fin 0) (Fin 30)
  /\ clamp NaN (Fin 0) (Fin 30) = NaN.
Proof.
  apply (clamp_within_bounds PInf (Fin 0) (Fin 30)).
  - discriminate.
  - discriminate.
  - apply np_ltb_fin_false. lra.
Defined.

(** ** The Chebyshev-II designer: failures of scipy *)

Section DesignFailures.
Variable name__ : string.
Variable o : oracle.

Lemma design_man_fails (btype : string) (Wn : self -> ndarray) (fd : fil_dict)
    (e : exn) :
  (forall n rs W bt an out, o _ (sig_cheby2 n rs W bt an out) = Raise e) ->
  run o (design_man name__ btype Wn fd)
  = (Raise e,
     [Called (sig_cheby2 (Cheby2.N fd) (A_SB fd) (Wn (get_params fd)) btype
                false frmt)]).
Proof.
  intros H. unfold design_man. cbn [run]. rewrite H. reflexivity.
Qed.

Lemma design_min_fails (btype : string) (wp ws : self -> ndarray)
    (fd : fil_dict) (e : exn) :
  (forall n rs W bt an out, o _ (sig_cheby2 n rs W bt an out) = Raise e) ->
  exists e' t,
    run o (design_min name__ btype wp ws fd) = (Raise e', t)
    /\ forallb (fun c => negb (is_save_fil c)) t = true.
Proof.
  intros H. unfold design_min. cbn [run].
  destruct (o _ (cheb2ord _ _ _ _)) as [[n wc]|e'].
  - cbn [run fst snd]. rewrite H. eexists. eexists. split; reflexivity.
  - eexists. eexists. split; reflexivity.
Qed.

Lemma design_min_order_fails (btype : string) (wp ws : self -> ndarray)
    (fd : fil_dict) (e : exn) :
  (forall a b gp gs, o _ (cheb2ord a b gp gs) = Raise e) ->
  exists c,
    first_call (design_min name__ btype wp ws fd) = Some c
    /\ run o (design_min name__ btype wp ws fd) = (Raise e, [c]).
Proof.
  intros H. unfold design_min. cbn [run first_call]. rewrite H.
  eexists. split; reflexivity.
Qed.

End DesignFailures.

(** X18.  A design that scipy rejects is not saved.  When [sig.cheby2]
    raises, each of the eight design methods raises and the calls it has
    made hold no [save_fil]: the filter dictionary is not written.  When
    [cheb2ord] raises, a minimum-order method raises the same exception
    after that one call, without calling [sig.cheby2]. *)
Theorem failed_design_is_not_saved (name__ : string) (o : oracle)
    (fd : fil_dict) (e : exn) :
  ((forall n rs W bt an out, o _ (sig_cheby2 n rs W bt an out) = Raise e) ->
   Forall (fun m : fil_dict -> prog (self * fil_dict) =>
             exists e' t,
               run o (m fd) = (Raise e', t)
               /\ forallb (fun c => negb (is_save_fil c)) t = true)
          [LPman name__; LPmin name__; HPman name__; HPmin name__;
           BPman name__; BPmin name__; BSman name__; BSmin name__])
  /\ ((forall a b gp gs, o _ (cheb2ord a b gp gs) = Raise e) ->
      Forall (fun m : fil_dict -> prog (self * fil_dict) =>
                exists c,
                  first_call (m fd) = Some c
                  /\ run o (m fd) = (Raise e, [c]))
             [LPmin name__; HPmin name__; BPmin name__; BSmin name__]).
Proof.
  split.
  - intros H.
    assert (Hman : forall bt Wn, exists e' t,
               run o (design_man name__ bt Wn fd) = (Raise e', t)
               /\ forallb (fun c => negb (is_save_fil c)) t = true).
    { intros bt Wn. rewrite (design_man_fails name__ o bt Wn fd e H).
      eexists. eexists. split; reflexivity. }
    repeat constructor;
      first [apply Hman | apply (design_min_fails name__ o _ _ _ fd e H)].
  - intros H. repeat constructor;
      apply (design_min_order_fails name__ o _ _ _ fd e H).
Qed.

Lemma failed_design_is_not_saved_witness :
  Forall (fun m : fil_dict -> prog (self * fil_dict) =>
            exists e' t,
              run strict_oracle (m good_spec) = (Raise e', t)
              /\ forallb (fun c => negb (is_save_fil c)) t = true)
         [LPman "cheby2"; LPmin "cheby2"; HPman "cheby2"; HPmin "cheby2";
          BPman "cheby2"; BPmin "cheby2"; BSman "cheby2"; BSmin "cheby2"]
  /\ Forall (fun m : fil_dict -> prog (self * fil_dict) =>
               exists c,
                 first_call (m good_spec) = Some c
                 /\ run strict_oracle (m good_spec) = (Raise ValueError, [c]))
            [LPmin "cheby2"; HPmin "cheby2"; BPmin "cheby2"; BSmin "cheby2"].
Proof.
  destruct (failed_design_is_not_saved "cheby2" strict_oracle good_spec
              ValueError) as [A B].
  split; [apply A|apply B]; reflexivity.
Defined.

(** ** The coherent gain of a periodic cosine-sum window *)

Section OrthogonalityFacts.
Local Open Scope R_scope.

Lemma Rsum_app (l l' : list R) : Rsum (l ++ l') = Rsum l + Rsum l'.
Proof. unfold Rsum. rewrite fold_left_app. apply fold_Rplus_shift. Qed.

Lemma Rsum_single (x : R) : Rsum [x] = x.
Proof. unfold Rsum. simpl. lra. Qed.

Lemma Rsum_map_plus {A} (f g : A -> R) (l : list A) :
  Rsum (map (fun n => f n + g n) l) = Rsum (map f l) + Rsum (map g l).
Proof.
  induction l as [|a l IH]; cbn [map]; [rewrite !Rsum_nil; lra|].
  rewrite !Rsum_cons, IH. lra.
Qed.

Lemma Rsum_map_scale {A} (c : R) (f : A -> R) (l : list A) :
  Rsum (map (fun n => c * f n) l) = c * Rsum (map f l).
Proof.
  induction l as [|a l IH]; cbn [map]; [rewrite !Rsum_nil; lra|].
  rewrite !Rsum_cons, IH. lra.
Qed.

Lemma Rsum_map_const {A} (c : R) (l : list A) :
  Rsum (map (fun _ => c) l) = INR (length l) * c.
Proof.
  induction l as [|a l IH]; [cbn [map length]; rewrite Rsum_nil; simpl; lra|].
  cbn [map]. change (length (a :: l)) with (S (length l)).
  rewrite Rsum_cons, IH, S_INR. lra.
Qed.

(** [2 sin(t/2) (cos 0 + cos t + ... + cos ((N-1) t))] telescopes. *)
Lemma cos_sum_telescope (theta : R) (N : nat) :
  2 * sin (theta / 2) * Rsum (map (fun n => cos (INR n * theta)) (seq 0 N))
  = sin ((INR N - 1 / 2) * theta) + sin (theta / 2).
Proof.
  induction N as [|N IH].
  - cbn [seq map]. rewrite Rsum_nil. simpl INR.
    replace ((0 - 1 / 2) * theta) with (- (theta / 2)) by field.
    rewrite sin_neg. ring.
  - rewrite seq_S, map_app, Rsum_app. cbn [map Nat.add]. rewrite Rsum_single.
    rewrite Rmult_plus_distr_l, IH.
    replace ((INR (S N) - 1 / 2) * theta) with (INR N * theta + theta / 2)
      by (rewrite S_INR; field).
    replace ((INR N - 1 / 2) * theta) with (INR N * theta - theta / 2) by field.
    rewrite sin_plus, sin_minus. ring.
Qed.

(** Over one period of [N] points the harmonic [j], [0 < j < N], sums to
    zero. *)
Lemma cos_sum_zero (N j : nat) :
  (0 < j < N)%nat ->
  Rsum (map (fun n => cos (INR j * (INR n * 2 * PI / INR N))) (seq 0 N)) = 0.
Proof.
  intros [Hj HjN].
  set (theta := INR j * 2 * PI / INR N).
  assert (HN : INR N <> 0) by (apply not_0_INR; lia).
  assert (Hext : map (fun n => cos (INR j * (INR n * 2 * PI / INR N))) (seq 0 N)
                 = map (fun n => cos (INR n * theta)) (seq 0 N)).
  { apply map_ext. intros n. f_equal. unfold theta. field. exact HN. }
  rewrite Hext. pose proof (cos_sum_telescope theta N) as H.
  replace ((INR N - 1 / 2) * theta) with (- (theta / 2) + 2 * INR j * PI) in H
    by (unfold theta; field; exact HN).
  rewrite sin_period, sin_neg in H.
  assert (Hs : 0 < sin (theta / 2)).
  { assert (H0 : 0 < INR j) by (apply lt_0_INR; lia).
    assert (H1 : INR j < INR N) by (apply lt_INR; lia).
    assert (Hq : 0 < INR j / INR N < 1).
    { split; [apply Rdiv_lt_0_compat; lra|].
      apply (Rmult_lt_reg_r (INR N)); [lra|].
      unfold Rdiv. rewrite Rmult_assoc, Rinv_l by exact HN. lra. }
    replace (theta / 2) with (PI * (INR j / INR N))
      by (unfold theta; field; exact HN).
    pose proof PI_RGT_0 as Hpi. apply sin_gt_0; nra. }
  assert (H2 : 2 * sin (theta / 2)
               * Rsum (map (fun n => cos (INR n * theta)) (seq 0 N)) = 0) by lra.
  apply Rmult_integral in H2 as [H2|H2]; [lra|exact H2].
Qed.

(** The cosine terms [j, j+1, ...] of a window with [N] points, summed
    over one period. *)
Lemma real_terms_sum_zero (N : nat) (aj : list R) (j : nat) :
  (1 <= j)%nat -> (j + length aj <= N)%nat ->
  Rsum (map (fun n => Rsum (real_terms j aj (INR n * 2 * PI / INR N)))
            (seq 0 N)) = 0.
Proof.
  revert j. induction aj as [|c aj IH]; intros j Hj Hlen.
  - cbn [real_terms]. rewrite (Rsum_map_const (Rsum [])), Rsum_nil. ring.
  - cbn [real_terms length] in *.
    rewrite (map_ext _ (fun n =>
               c * cos (INR j * (INR n * 2 * PI / INR N))
               + Rsum (real_terms (S j) aj (INR n * 2 * PI / INR N))))
      by (intros n; apply Rsum_cons).
    rewrite (Rsum_map_plus
               (fun n => c * cos (INR j * (INR n * 2 * PI / INR N)))
               (fun n => Rsum (real_terms (S j) aj (INR n * 2 * PI / INR N)))).
    rewrite (Rsum_map_scale c (fun n => cos (INR j * (INR n * 2 * PI / INR N)))).
    rewrite cos_sum_zero by lia. rewrite IH by lia. ring.
Qed.

(** The samples of a periodic window sum to [N * a0]. *)
Lemma periodic_samples_sum (N : nat) (a0 : R) (rest : list R) :
  (length rest < N)%nat ->
  Rsum (map (fun n => fold_left Rplus
                        (real_terms 1 rest
                           (INR n * 2 * PI / IZR (period_length N false))) a0)
            (seq 0 N))
  = INR N * a0.
Proof.
  intros Hlen. cbn [period_length]. rewrite <- INR_IZR_INZ.
  rewrite (map_ext _ (fun n =>
             a0 + Rsum (real_terms 1 rest (INR n * 2 * PI / INR N))))
    by (intros n; apply fold_Rplus_shift).
  rewrite (Rsum_map_plus (fun _ => a0)
             (fun n => Rsum (real_terms 1 rest (INR n * 2 * PI / INR N)))).
  rewrite Rsum_map_const, length_seq, real_terms_sum_zero by lia. ring.
Qed.

End OrthogonalityFacts.

(** X19.  A periodic ([sym=False]) cosine-sum window with finite
    coefficients and fewer cosine terms than samples has [N] finite
    samples that sum to [N * a[0]]: each harmonic sums to zero over the
    period, so that the mean of the window is its first coefficient. *)
Theorem periodic_cosine_window_sum (N : nat) (a0 a1 : R) (rest : list R) :
  length (a1 :: rest) < N ->
  exists ws,
    calc_cosine_window N false (map Fin (a0 :: a1 :: rest))
    = Ok (Array (map Fin ws))
    /\ length ws = N
    /\ Rsum ws = (INR N * a0)%R.
Proof.
  intros Hlen.
  exists (map (fun n => fold_left Rplus
                          (real_terms 1 (a1 :: rest)
                             (INR n * 2 * PI / IZR (period_length N false))) a0)
              (seq 0 N)).
  split; [|split].
  - cbn [map]. rewrite calc_cosine_window_array. f_equal. f_equal.
    rewrite map_map. apply map_ext. intros n.
    change (Fin a0 :: Fin a1 :: map Fin rest) with (map Fin (a0 :: a1 :: rest)).
    apply w_spec_real. cbn [period_length length] in *. lia.
  - now rewrite length_map, length_seq.
  - now apply periodic_samples_sum.
Qed.

Lemma periodic_cosine_window_sum_witness :
  exists ws,
    calc_cosine_window 4 false (map Fin [0.5; -0.5]%R) = Ok (Array (map Fin ws))
    /\ length ws = 4
    /\ Rsum ws = (INR 4 * 0.5)%R.
Proof.
  apply (periodic_cosine_window_sum 4 0.5 (-0.5) []). simpl. lia.
Defined.

Lemma generate_preset (env : environment) (e : entry) (f : fnct)
    (a : list npfloat) (fn : string) (N : nat) (sym : bool) (s : state) :
  preset_coefficients f = Some a ->
  String.eqb fn "dpss" = false ->
  generate env e (Some f) fn 0 N sym s
  = (match calc_cosine_window N sym a with
     | Ok w => Ok (Some w)
     | Raise ex => Raise ex
     end,
     mk_state (win_dict s) (trace s ++ [Call f N [] sym])).
Proof.
  intros Hp Hd. unfold generate. rewrite Hd. unfold Windows.call, apply_fnct. mred.
  destruct f; try discriminate; injection Hp as <-;
    unfold blackmanharris5, blackmanharris7, blackmanharris9, preset_call;
    match goal with
    | |- context [calc_cosine_window N sym ?a] =>
        destruct (calc_cosine_window N sym a); reflexivity
    end.
Qed.

(** X20.  The coherent gain of the presets.  For a family whose window
    function is one of the three Blackman-Harris presets of this module,
    a periodic window with more samples than the preset has cosine terms
    is computed, not served from the cache, with ['cgain'] equal to the
    first coefficient [a[0]] of the preset; the returned window is the
    cosine sum divided by [a[0]]. *)
Theorem preset_coherent_gain (env : environment) (s : state) (N : nat)
    (req : option string) (name : string) (e : entry) (f : fnct) (fn : string)
    (a0 a1 : R) (rest : list R) :
  misses_cache s N req name ->
  name <> "win" ->
  win_dict s !! name = Some (VEntry e) ->
  win_fnct e = Some (Some f) -> fn_name e = Some fn -> n_par e = Some 0 ->
  String.eqb fn "dpss" = false ->
  preset_coefficients f = Some (map Fin (a0 :: a1 :: rest)) ->
  length (a1 :: rest) < N ->
  a0 <> 0%R ->
  exists ws s' e',
    calc_cosine_window N false (map Fin (a0 :: a1 :: rest))
    = Ok (Array (map Fin ws))
    /\ get_window env N req false s
       = (Ok (Array (map Fin (map (fun r => (r / a0)%R) ws))), s')
    /\ win_dict s' !! name = Some (VEntry e')
    /\ cgain e' = Some (Fin a0).
Proof.
  intros Hmiss Hne Hname Hf Hfn Hn Hd Hp Hlen Ha0.
  set (ws := map (fun n => fold_left Rplus
                             (real_terms 1 (a1 :: rest)
                                (INR n * 2 * PI / IZR (period_length N false)))
                             a0) (seq 0 N)).
  assert (Hw : calc_cosine_window N false (map Fin (a0 :: a1 :: rest))
               = Ok (Array (map Fin ws))).
  { cbn [map]. rewrite calc_cosine_window_array. f_equal. f_equal.
    unfold ws. rewrite map_map. apply map_ext. intros n.
    change (Fin a0 :: Fin a1 :: map Fin rest) with (map Fin (a0 :: a1 :: rest)).
    apply w_spec_real. cbn [period_length length] in *. lia. }
  assert (Hsum : Rsum ws = (INR N * a0)%R) by now apply periodic_samples_sum.
  assert (HN : 1 <= N) by (cbn [length] in Hlen; lia).
  pose proof (INR_pos_neq N HN) as HN0.
  assert (Hsum0 : Rsum ws <> 0%R).
  { rewrite Hsum. now apply Rmult_integral_contrapositive. }
  pose proof (generate_preset env e f _ fn N false s Hp Hd) as Hg.
  rewrite Hw in Hg.
  exists ws. eexists. exists (with_stats N (Array (map Fin ws)) e).
  split; [exact Hw|].
  rewrite (get_window_miss env N false s req name Hmiss).
  rewrite (compute_window_after_generate env N name false s _ e (Some f) fn 0 _
             Hname Hf Hfn Hn Hg).
  cbn [settle fst snd win_dict].
  rewrite normalized_fin by assumption.
  split; [|split].
  - f_equal. f_equal. f_equal. f_equal. apply map_ext. intros r.
    rewrite Hsum. field. now split.
  - cbn [win_dict]. rewrite lookup_insert_ne by (intros E; now apply Hne).
    apply lookup_insert_eq.
  - cbn [with_stats cgain]. rewrite cgain_fin by assumption.
    f_equal. f_equal. rewrite Hsum. field. assumption.
Qed.

Lemma preset_coherent_gain_witness :
  exists ws s' e',
    calc_cosine_window 8 false
      (map Fin [3.232153788877343e-001; -4.714921439576260e-001;
                1.755341299601972e-001; -2.849699010614994e-002;
                1.261357088292677e-003]%R)
    = Ok (Array (map Fin ws))
    /\ get_window test_double 8 None false bh5_state
       = (Ok (Array (map Fin (map (fun r => (r / 3.232153788877343e-001)%R) ws))),
          s')
    /\ win_dict s' !! "Blackmanharris_5" = Some (VEntry e')
    /\ cgain e' = Some (Fin 3.232153788877343e-001%R).
Proof.
  apply (preset_coherent_gain test_double bh5_state 8 None "Blackmanharris_5"
           bh5_entry fn_blackmanharris5 bh5_name).
  - exists "Blackmanharris_5". split; [exact bh5_state_cur|]. right.
    split; [now left|]. split; [reflexivity|]. exists [].
    split; [exact bh5_state_win|]. simpl. lia.
  - discriminate.
  - exact bh5_state_entry.
  - reflexivity.
  - reflexivity.
  - reflexivity.
  - reflexivity.
  - reflexivity.
  - simpl. lia.
  - lra.
Defined.

(** ** [update_win_params] after a selection *)

Lemma update_one_param_skip (cur : string) (i : nat) (led : npfloat -> npfloat)
    (s : state) (e : entry) (n : nat) :
  win_dict s !! cur = Some (VEntry e) -> n_par e = Some n -> n <= i ->
  update_one_param cur i led s = (Ok tt, s).
Proof.
  intros He Hn Hle. unfold update_one_param.
  rewrite (bind_ok _ _ _ _ _ (entry_get_some s cur e He)).
  rewrite Hn. unfold lift. cbn [field]. rewrite (bind_ok _ _ _ _ n eq_refl).
  destruct (Nat.ltb_spec i n); [lia|reflexivity].
Qed.

Lemma update_one_param_set (cur : string) (i : nat) (led : npfloat -> npfloat)
    (s : state) (e : entry) (n : nat) (ps : list param) (p : param) :
  win_dict s !! cur = Some (VEntry e) -> n_par e = Some n -> i < n ->
  par e = Some ps -> ps !! i = Some p ->
  update_one_param cur i led s
  = (Ok tt, mk_state (<[ cur := VEntry (with_clamped i led ps p e) ]> (win_dict s))
              (trace s)).
Proof.
  intros He Hn Hlt Hp Hi. unfold update_one_param.
  rewrite (bind_ok _ _ _ _ _ (entry_get_some s cur e He)).
  rewrite Hn. unfold lift at 1. cbn [field]. rewrite (bind_ok _ _ _ _ n eq_refl).
  destruct (Nat.ltb_spec i n); [|lia].
  rewrite Hp. unfold lift at 1. cbn [field]. rewrite (bind_ok _ _ _ _ ps eq_refl).
  rewrite Hi. unfold set_par_val.
  rewrite (bind_ok _ _ _ _ _ (entry_get_some s cur e He)).
  rewrite Hp. unfold lift at 1. cbn [field]. rewrite (bind_ok _ _ _ _ ps eq_refl).
  rewrite Hi. now rewrite (entry_update_some s cur e _ He).
Qed.

(** X21.  [update_win_params] cannot fail after a selection: when
    [set_window_name] has succeeded and the current name is the name that
    was asked for, the slot returns normally for any text of the two line
    edits; the current name stays, the stored window is emptied, and the
    entry keeps its function object and parameter count. *)
Theorem update_win_params_after_selection (env : environment) (name : string)
    (s s1 : state) (f : option fnct) (led1 led2 : npfloat -> npfloat) :
  set_window_name env name s = (Ok f, s1) ->
  win_dict s1 !! "cur_win_name" = Some (VStr name) ->
  exists s2 e1 e2,
    update_win_params env led1 led2 s1 = (Ok tt, s2)
    /\ win_dict s2 !! "cur_win_name" = Some (VStr name)
    /\ win_dict s2 !! "win" = Some (VWin (Array []))
    /\ win_dict s1 !! name = Some (VEntry e1)
    /\ win_dict s2 !! name = Some (VEntry e2)
    /\ win_fnct e2 = Some f /\ n_par e2 = n_par e1 /\ fn_name e2 = fn_name e1.
Proof.
  intros H Hcur.
  pose proof H as Hsteps.
  apply set_window_name_steps in Hsteps
    as (wn0 & t1 & d & fn & wn & n & e & t2 & Hcases & Hd & Hfn & Hl & He
        & Hw & Hc & Hs1).
  assert (Hwn : wn = name).
  { rewrite Hs1 in Hcur. cbn [win_dict] in Hcur.
    rewrite selection_dict_cur in Hcur by assumption. now injection Hcur. }
  subst wn.
  destruct (set_window_name_repeat env name s s1 f H Hw Hc) as (t & _ & Hrep).
  assert (Hn : n = 0 \/ exists ps, par e = Some ps /\ n = length ps).
  { destruct (lookup_fnct_result env _ _ _ _ _ _ _ _ (Hl s))
      as [(Hwn0 & -> & _)|(_ & -> & _)]; [|now left].
    subst wn0. rewrite He in Hd. injection Hd as <-.
    destruct (par e) as [ps|]; eauto. }
  set (s1' := mk_state (win_dict s1) (trace s1 ++ t)) in *.
  assert (Hd1 : win_dict s1' = selection_dict (win_dict s) name f n e)
    by (unfold s1'; now rewrite Hs1).
  assert (He1 : win_dict s1' !! name = Some (VEntry (selected f n e)))
    by (rewrite Hd1; apply selection_dict_entry).
  assert (Hupd : exists s2 e2,
             (update_one_param name 1 led2 ;;; update_one_param name 0 led1) s1'
             = (Ok tt, s2)
             /\ win_dict s2 = <[ name := VEntry e2 ]> (win_dict s1')
             /\ win_fnct e2 = Some f /\ n_par e2 = Some n
             /\ fn_name e2 = fn_name e).
  { destruct Hn as [->|(ps & Hps & ->)].
    - exists s1', (selected f 0 e).
      rewrite (bind_ok _ _ _ _ _
                 (update_one_param_skip name 1 led2 s1' _ 0 He1 eq_refl
                    ltac:(lia))).
      rewrite (update_one_param_skip name 0 led1 s1' _ 0 He1 eq_refl ltac:(lia)).
      split; [reflexivity|]. split; [now rewrite insert_id|]. now repeat split.
    - destruct (ps !! 0) as [p0|] eqn:E0.
      2:{ apply lookup_ge_None in E0.
          exists s1', (selected f (length ps) e).
          rewrite (bind_ok _ _ _ _ _
                     (update_one_param_skip name 1 led2 s1' _ _ He1 eq_refl
                        ltac:(lia))).
          rewrite (update_one_param_skip name 0 led1 s1' _ _ He1 eq_refl
                     ltac:(lia)).
          split; [reflexivity|]. split; [now rewrite insert_id|].
          now repeat split. }
      pose proof (lookup_lt_Some _ _ _ E0) as Hlen0.
      destruct (ps !! 1) as [p1|] eqn:E1.
      + pose proof (lookup_lt_Some _ _ _ E1) as Hlen1.
        set (e' := with_clamped 1 led2 ps p1 (selected f (length ps) e)).
        set (s' := mk_state (<[ name := VEntry e' ]> (win_dict s1')) (trace s1')).
        assert (He' : win_dict s' !! name = Some (VEntry e'))
          by apply lookup_insert_eq.
        assert (E0' : <[ 1 := mk_param (par_name p1)
                               (clamp (led2 (par_val p1)) (par_min p1) (par_max p1))
                               (par_min p1) (par_max p1) ]> ps !! 0 = Some p0)
          by (rewrite list_lookup_insert_ne by lia; exact E0).
        eexists. eexists.
        rewrite (bind_ok _ _ _ _ _
                   (update_one_param_set name 1 led2 s1' _ _ ps p1 He1 eq_refl
                      Hlen1 Hps E1)).
        fold e'. fold s'.
        rewrite (update_one_param_set name 0 led1 s' e' (length ps) _ p0 He'
                   eq_refl Hlen0 eq_refl E0').
        split; [reflexivity|]. cbn [win_dict].
        split; [unfold s'; cbn [win_dict]; now rewrite insert_insert_eq|].
        now repeat split.
      + apply lookup_ge_None in E1.
        eexists. eexists.
        rewrite (bind_ok _ _ _ _ _
                   (update_one_param_skip name 1 led2 s1' _ _ He1 eq_refl E1)).
        rewrite (update_one_param_set name 0 led1 s1' _ _ ps p0 He1 eq_refl
                   Hlen0 Hps E0).
        split; [reflexivity|]. cbn [win_dict]. split; [reflexivity|].
        now repeat split. }
  destruct Hupd as (s2 & e2 & Hrun & Hd2 & Hf2 & Hn2 & Hfn2).
  exists s2, (selected f n e), e2.
  split.
  { assert (Hdg : dict_get "cur_win_name" s1 = (Ok (VStr name), s1))
      by (unfold dict_get; mred; now rewrite Hcur).
    unfold update_win_params. rewrite (bind_ok _ _ _ _ _ Hdg).
    unfold lift, as_str. rewrite (bind_ok _ _ _ _ name eq_refl).
    rewrite (bind_ok _ _ _ _ _ Hrep). exact Hrun. }
  rewrite Hd2, Hd1.
  split; [rewrite lookup_insert_ne by (intros E; now apply Hc);
          now apply selection_dict_cur|].
  split; [rewrite lookup_insert_ne by (intros E; now apply Hw);
          now apply selection_dict_win|].
  split; [rewrite Hs1; apply selection_dict_entry|].
  split; [apply lookup_insert_eq|].
  now repeat split.
Qed.

Lemma update_win_params_after_selection_witness :
  exists s2 e1 e2,
    update_win_params test_double (fun _ => Fin 1000%R) (fun x => x)
      (snd (set_window_name test_double "Kaiser" kaiser_state))
    = (Ok tt, s2)
    /\ win_dict s2 !! "cur_win_name" = Some (VStr "Kaiser")
    /\ win_dict s2 !! "win" = Some (VWin (Array []))
    /\ win_dict (snd (set_window_name test_double "Kaiser" kaiser_state))
         !! "Kaiser" = Some (VEntry e1)
    /\ win_dict s2 !! "Kaiser" = Some (VEntry e2)
    /\ win_fnct e2 = Some (Some kaiser_fn) /\ n_par e2 = n_par e1
    /\ fn_name e2 = fn_name e1.
Proof.
  apply (update_win_params_after_selection test_double "Kaiser" kaiser_state).
  - vm_compute. reflexivity.
  - vm_compute. reflexivity.
Defined.

(** ** Splitting a dotted function name *)

(** X22.  The split of a function name at its last dot, as
    [set_window_name] does it with [split('.')] and [rfind(".")]: a name
    without a dot is not split; otherwise the module part, a dot and the
    function part give the name back, and the function part has no
    dot. *)
Theorem rsplit_dot_round_trip (fn : string) :
  match rsplit_dot fn with
  | Some (m, f) =>
      fn = String.append m (String dot f)
      /\ forall i, String.get i f <> Some dot
  | None => forall i, String.get i fn <> Some dot
  end.
Proof.
  induction fn as [|c rest IH]; cbn [rsplit_dot].
  - intros i. destruct i; discriminate.
  - destruct (rsplit_dot rest) as [[m f]|].
    + destruct IH as [-> Hf]. split; [reflexivity|exact Hf].
    + destruct (Ascii.eqb_spec c dot) as [->|Hne].
      * split; [reflexivity|exact IH].
      * intros [|i]; cbn [String.get]; [|apply IH].
        intros [= E]. contradiction.
Qed.

(** ** The Chebyshev-II designer: what every call looks like *)

Section DesignCalls.
Variable name__ : string.
Variable o : oracle.

Lemma run_vis_calls {A X} (c : ext X) (k : X -> prog A) :
  snd (run o (Vis c k))
  = Called c :: match o _ c with
                | Ok x => snd (run o (k x))
                | Raise _ => []
                end.
Proof.
  cbn [run]. destruct (o _ c) as [x|e]; [|reflexivity].
  now destruct (run o (k x)).
Qed.

Lemma design_man_well_formed (btype : string) (Wn : self -> ndarray)
    (fd : fil_dict) :
  Forall (well_formed_call name__ fd) (snd (run o (design_man name__ btype Wn fd)))
  /\ length (snd (run o (design_man name__ btype Wn fd))) <= 2.
Proof.
  unfold design_man. rewrite run_vis_calls.
  destruct (o _ (sig_cheby2 _ _ _ _ _ _)) as [c|e].
  - rewrite save_calls. split; [|simpl; lia].
    repeat constructor.
  - split; [|simpl; lia]. repeat constructor.
Qed.

Lemma design_min_well_formed (btype : string) (wp ws : self -> ndarray)
    (fd : fil_dict) :
  Forall (well_formed_call name__ fd)
         (snd (run o (design_min name__ btype wp ws fd)))
  /\ length (snd (run o (design_min name__ btype wp ws fd))) <= 3.
Proof.
  unfold design_min. rewrite run_vis_calls.
  destruct (o _ (cheb2ord _ _ _ _)) as [[n wc]|e].
  - rewrite run_vis_calls. cbn [fst snd].
    destruct (o _ (sig_cheby2 _ _ _ _ _ _)) as [c|e].
    + rewrite save_calls. split; [|simpl; lia]. repeat constructor.
    + split; [|simpl; lia]. repeat constructor.
  - split; [|simpl; lia]. repeat constructor.
Qed.

End DesignCalls.

(** X23.  Whatever scipy and [save_fil] answer, a design method makes at
    most three calls, and each of them is well formed: [cheb2ord] gets
    the pass band ripple and the stop band attenuation of the dictionary,
    [sig.cheby2] gets that stop band attenuation, [analog=False] and
    [output='ba'], and [save_fil] gets the dictionary itself, the format
    ['ba'] and the module name.  The second pair of attenuations
    ([A_PB2], [A_SB2]) is never passed on. *)
Theorem design_calls_well_formed (name__ : string) (o : oracle)
    (fd : fil_dict) :
  Forall (fun m : fil_dict -> prog (self * fil_dict) =>
            Forall (well_formed_call name__ fd) (snd (run o (m fd)))
            /\ length (snd (run o (m fd))) <= 3)
         [LPman name__; LPmin name__; HPman name__; HPmin name__;
          BPman name__; BPmin name__; BSman name__; BSmin name__].
Proof.
  assert (Hman : forall bt Wn,
             Forall (well_formed_call name__ fd)
                    (snd (run o (design_man name__ bt Wn fd)))
             /\ length (snd (run o (design_man name__ bt Wn fd))) <= 3).
  { intros bt Wn. destruct (design_man_well_formed name__ o bt Wn fd) as [H1 H2].
    split; [exact H1|lia]. }
  repeat (constructor;
          [first [apply Hman | apply (design_min_well_formed name__ o)]|]).
  constructor.
Qed.

(** ** The ultraspherical window *)

Section UltrasphericalFacts.
Local Open Scope R_scope.

Lemma fold_left_pointwise {A B} (f g : A -> B -> A) (l : list B) (a : A) :
  (forall x y, f x y = g x y) -> fold_left f l a = fold_left g l a.
Proof.
  intros H. revert a. induction l as [|b l IH]; intros a; simpl; [reflexivity|].
  now rewrite H, IH.
Qed.

(** The cosines of [ultraspherical] have period [N + 1] in [n]. *)
Lemma cos_mirror (N n k : nat) :
  (n <= N + 1)%nat ->
  cos (2 * INR (N + 1 - n) * PI * INR k / INR (N + 1))
  = cos (2 * INR n * PI * INR k / INR (N + 1)).
Proof.
  intros Hn. assert (HM : INR (N + 1) <> 0) by (apply not_0_INR; lia).
  rewrite minus_INR by assumption.
  replace (2 * (INR (N + 1) - INR n) * PI * INR k / INR (N + 1))
    with (- (2 * INR n * PI * INR k / INR (N + 1)) + 2 * INR k * PI)
    by (field; exact HM).
  now rewrite cos_period, cos_neg.
Qed.

End UltrasphericalFacts.

(** X24.  [ultraspherical] returns [N] samples and does not depend on
    [sym]; its samples repeat with period [N + 1], not [N] or [N - 1]:
    [w[N+1-n] = w[n]] for [2 <= n <= N-1], so that the window is the
    mirror image of itself about [(N+1)/2] and the sample [w[0]] has no
    partner. *)
Theorem ultraspherical_mirror
    (eval_gegenbauer : nat -> npfloat -> npfloat -> npfloat)
    (N : nat) (alpha x_0 : npfloat) (sym : bool) (n : nat) :
  2 <= n -> n <= N - 1 ->
  exists l,
    ultraspherical eval_gegenbauer N alpha x_0 sym = Array l
    /\ length l = N
    /\ l !! (N + 1 - n) = l !! n
    /\ ultraspherical eval_gegenbauer N alpha x_0 (negb sym) = Array l.
Proof.
  intros H2 HN. eexists. split; [reflexivity|].
  split; [now rewrite length_map, length_seq|].
  split; [|reflexivity].
  rewrite !lookup_map_seq by lia. f_equal.
  apply fold_left_pointwise. intros w k. unfold np_cos at 2 4.
  rewrite cos_mirror by lia. reflexivity.
Qed.

Lemma ultraspherical_mirror_witness :
  exists l,
    ultraspherical (fun _ _ x => x) 5 (Fin 0.5%R) (Fin 1%R) true = Array l
    /\ length l = 5
    /\ l !! (5 + 1 - 2) = l !! 2
    /\ ultraspherical (fun _ _ x => x) 5 (Fin 0.5%R) (Fin 1%R) (negb true)
       = Array l.
Proof.
  apply (ultraspherical_mirror (fun _ _ x => x) 5 (Fin 0.5%R) (Fin 1%R) true 2);
    simpl; lia.
Defined.

(** ** How often [get_window] calls the window function *)

Section CallCount.
Variable env : environment.

(** Log records, then at most one call, then log records. *)
Lemma at_most_one_call_intro (N : nat) (sym : bool) (l1 c l2 : list event) :
  Forall (fun ev => is_call ev = false) l1 ->
  Forall (fun ev => is_call ev = false) l2 ->
  c = [] \/ (exists g args, c = [Call g N args sym]) ->
  at_most_one_call N sym (l1 ++ c ++ l2).
Proof.
  intros H1 H2 Hc.
  assert (Hlogs : forall l, Forall (fun ev => is_call ev = false) l ->
                    filter (fun ev => Is_true (is_call ev)) l = []
                    /\ forall g N' args sym', Call g N' args sym' ∉ l).
  { intros l Hl. induction Hl as [|ev l Hev Hl [IH1 IH2]].
    - split; [reflexivity|]. intros g N' args sym' H. now apply elem_of_nil in H.
    - split.
      + rewrite filter_cons_False; [exact IH1|]. rewrite Hev. exact (fun F : False => F).
      + intros g N' args sym' H. apply elem_of_cons in H as [H|H].
        * subst ev. discriminate.
        * now apply (IH2 g N' args sym'). }
  destruct (Hlogs l1 H1) as [F1 M1]. destruct (Hlogs l2 H2) as [F2 M2].
  split.
  - rewrite !filter_app, F1, F2, app_nil_r. cbn [app].
    destruct Hc as [->|(g & args & ->)]; [simpl; lia|].
    rewrite filter_cons_True by exact I. simpl. lia.
  - intros g N' args sym' H.
    apply elem_of_app in H as [H|H]; [now apply M1 in H|].
    apply elem_of_app in H as [H|H]; [|now apply M2 in H].
    destruct Hc as [->|(g0 & args0 & ->)]; [now apply elem_of_nil in H|].
    apply list_elem_of_singleton in H. now injection H as _ -> _ ->.
Qed.

Lemma call_trace (f : option fnct) (N : nat) (args : list npfloat) (sym : bool)
    (s : state) :
  exists r c,
    Windows.call env f N args sym s
    = (r, mk_state (win_dict s) (trace s ++ c))
    /\ (c = [] \/ exists g args', c = [Call g N args' sym]).
Proof.
  destruct f as [g|].
  - unfold Windows.call, bind, emit, ret, raise. cbn [win_dict trace].
    destruct (apply_fnct env g N args sym) as [w|ex]; eexists; eexists;
      (split; [reflexivity|right; eauto]).
  - exists (Raise TypeError), []. split; [|now left].
    unfold Windows.call, raise. now rewrite state_eta.
Qed.

Lemma generate_trace (e : entry) (f : option fnct) (fn : string) (n N : nat)
    (sym : bool) (s : state) :
  exists r l1 c,
    generate env e f fn n N sym s
    = (r, mk_state (win_dict s) (trace s ++ l1 ++ c))
    /\ Forall (fun ev => is_call ev = false) l1
    /\ (c = [] \/ exists g args, c = [Call g N args sym]).
Proof.
  unfold generate. destruct (String.eqb fn "dpss").
  - unfold bind at 1. unfold log, emit. unfold bind at 1, lift.
    destruct (par_val_at e 0) as [p0|ex].
    + destruct (call_trace (Some (fn_ext scipy_signal_windows "dpss")) N [p0] sym
                  (mk_state (win_dict s) (trace s ++ [Log Info Dpss])))
        as (r & c & Hc & Hshape).
      rewrite Hc. cbn [win_dict trace]. exists r, [Log Info Dpss], c.
      rewrite <- app_assoc. split; [reflexivity|].
      split; [repeat constructor|exact Hshape].
    + exists (Raise ex), [Log Info Dpss], []. rewrite app_nil_r.
      split; [reflexivity|]. split; [repeat constructor|now left].
  - destruct n as [|[|[|n]]].
    + destruct (call_trace f N [] sym s) as (r & c & Hc & Hshape).
      exists r, [], c. split; [exact Hc|]. split; [constructor|exact Hshape].
    + unfold bind, lift. destruct (par_val_at e 0) as [p0|ex].
      * destruct (call_trace f N [p0] sym s) as (r & c & Hc & Hshape).
        exists r, [], c. split; [exact Hc|]. split; [constructor|exact Hshape].
      * exists (Raise ex), [], []. rewrite state_eta.
        split; [reflexivity|]. split; [constructor|now left].
    + unfold bind, lift. destruct (par_val_at e 0) as [p0|ex].
      * destruct (par_val_at e 1) as [p1|ex].
        -- destruct (call_trace f N [p0; p1] sym s) as (r & c & Hc & Hshape).
           exists r, [], c. split; [exact Hc|].
           split; [constructor|exact Hshape].
        -- exists (Raise ex), [], []. rewrite state_eta.
           split; [reflexivity|]. split; [constructor|now left].
      * exists (Raise ex), [], []. rewrite state_eta.
        split; [reflexivity|]. split; [constructor|now left].
    + exists (Ok None),
        [Log Error (Parameters_not_supported (S (S (S n))))], [].
      rewrite app_nil_r. split; [reflexivity|].
      split; [repeat constructor|now left].
Qed.

Lemma settle_logs (fn : string) (N : nat) (r : res (option ndarray)) :
  Forall (fun ev => is_call ev = false) (snd (settle fn N r)).
Proof. destruct r as [[w|]|ex]; cbn [settle snd]; repeat constructor. Qed.

Lemma compute_window_trace (N : nat) (name : string) (sym : bool)
    (s s' : state) (r : res ndarray) :
  compute_window env N name sym s = (r, s') ->
  exists t, trace s' = trace s ++ t /\ at_most_one_call N sym t.
Proof.
  intros H.
  destruct (compute_window_result env N name sym s)
    as [[ex H1]|(e & f & fn & n & _ & _ & He & Hf & Hfn & Hn & _)].
  - rewrite H1 in H. injection H as _ <-. exists []. rewrite app_nil_r.
    split; [reflexivity|].
    apply (at_most_one_call_intro N sym [] [] []); [constructor..|now left].
  - destruct (generate_trace e f fn n N sym s) as (rg & l1 & c & Hg & Hl1 & Hc).
    rewrite (compute_window_after_generate env N name sym s _ e f fn n rg
               He Hf Hfn Hn Hg) in H.
    injection H as _ <-. cbn [trace].
    exists (l1 ++ c ++ snd (settle fn N rg)).
    split; [now rewrite <- !app_assoc|].
    apply at_most_one_call_intro; [assumption|apply settle_logs|assumption].
Qed.

End CallCount.

(** X25.  One call of [get_window] invokes a window function at most
    once, and then with the requested [N] and [sym]; everything else it
    appends to the log are log records.  (When it answers from the
    stored window it appends nothing.) *)
Theorem get_window_calls_once (env : environment) (N : nat)
    (req : option string) (sym : bool) (s s' : state) (r : res ndarray) :
  get_window env N req sym s = (r, s') ->
  exists t, trace s' = trace s ++ t /\ at_most_one_call N sym t.
Proof.
  intros H. destruct (get_window_cases env N req sym s)
    as [[ex H1]|[(w & H1 & _)|[name H1]]]; rewrite H1 in H.
  - injection H as _ <-. exists []. rewrite app_nil_r. split; [reflexivity|].
    apply (at_most_one_call_intro N sym [] [] []); [constructor..|now left].
  - injection H as _ <-. exists []. rewrite app_nil_r. split; [reflexivity|].
    apply (at_most_one_call_intro N sym [] [] []); [constructor..|now left].
  - now apply (compute_window_trace env N name sym s s' r).
Qed.

Lemma get_window_calls_once_witness :
  exists t,
    trace (snd (get_window test_double 4 None true kaiser_state))
    = trace kaiser_state ++ t
    /\ at_most_one_call 4 true t.
Proof.
  apply (get_window_calls_once test_double 4 None true kaiser_state _
           (fst (get_window test_double 4 None true kaiser_state))).
  vm_compute. reflexivity.
Defined.

(** ** When the noise bandwidth is one bin *)

Section UnitBandwidth.
Local Open Scope R_scope.

Lemma Rsum_squares_zero (rs : list R) (x : R) :
  Rsum (map (fun r => (r - x) * (r - x)) rs) = 0 <-> Forall (fun r => r = x) rs.
Proof.
  induction rs as [|r rs IH]; cbn [map].
  - split; [constructor|intros _; apply Rsum_nil].
  - rewrite Rsum_cons. pose proof (Rsum_squares_nonneg rs x) as Hn.
    pose proof (Rle_0_sqr (r - x)) as Hsq. unfold Rsqr in Hsq. split.
    + intros H. constructor; [nra|]. apply IH. lra.
    + intros H. inversion H as [|? ? Hr Hrs]; subst.
      apply IH in Hrs. rewrite Hrs. ring.
Qed.

(** [N * sum(w^2) / (sum w)^2 = 1] exactly for a constant array. *)
Lemma unit_ratio_iff_constant (rs : list R) :
  Rsum rs <> 0 -> rs <> [] ->
  INR (length rs) * Rsum (map (fun r => r * r) rs) / (Rsum rs * Rsum rs) = 1
  <-> Forall (fun r => r = Rsum rs / INR (length rs)) rs.
Proof.
  intros Hs Hne.
  assert (HN : INR (length rs) <> 0).
  { apply not_0_INR. destruct rs; [contradiction|simpl; lia]. }
  rewrite <- Rsum_squares_zero, Rsum_shifted_squares.
  assert (Hpos : Rsum rs * Rsum rs <> 0) by nra.
  split.
  - intros H. apply (Rmult_eq_compat_r (Rsum rs * Rsum rs)) in H.
    unfold Rdiv in H. rewrite Rmult_assoc, Rinv_l, Rmult_1_r, Rmult_1_l in H
      by exact Hpos.
    apply (Rmult_eq_reg_l (INR (length rs))); [|exact HN].
    rewrite Rmult_0_r. field_simplify; [|exact HN]. lra.
  - intros H. apply (Rmult_eq_compat_l (INR (length rs))) in H.
    rewrite Rmult_0_r in H. field_simplify in H; [|exact HN].
    apply (Rmult_eq_reg_r (Rsum rs * Rsum rs)); [|exact Hpos].
    unfold Rdiv. rewrite Rmult_assoc, Rinv_l, Rmult_1_r, Rmult_1_l by exact Hpos.
    lra.
Qed.

End UnitBandwidth.

(** X26.  The stored ['nenbw'] is exactly 1 only for a constant window:
    when [get_window] computes a window from [N] finite samples with a
    sum other than zero, the noise bandwidth it stores equals 1 if and
    only if all samples are equal (to their mean); every other window
    has a noise bandwidth above one bin. *)
Theorem unit_nenbw_iff_constant (env : environment) (s s1 : state) (N : nat)
    (sym : bool) (req : option string) (name : string) (e : entry)
    (f : option fnct) (fn : string) (n : nat) (rs : list R) :
  misses_cache s N req name ->
  name <> "win" ->
  win_dict s !! name = Some (VEntry e) ->
  win_fnct e = Some f -> fn_name e = Some fn -> n_par e = Some n ->
  generate env e f fn n N sym s = (Ok (Some (Array (map Fin rs))), s1) ->
  length rs = N ->
  Rsum rs <> 0%R ->
  exists s' w e' y,
    get_window env N req sym s = (Ok w, s')
    /\ win_dict s' !! name = Some (VEntry e')
    /\ nenbw e' = Some (Fin y)
    /\ (y = 1%R <-> Forall (fun r => r = (Rsum rs / INR N)%R) rs).
Proof.
  intros Hmiss Hne Hname Hf Hfn Hn Hgen Hlen Hsum.
  assert (Hnil : rs <> []) by (intros ->; now apply Hsum).
  rewrite (get_window_miss env N sym s req name Hmiss).
  rewrite (compute_window_after_generate env N name sym s s1 e f fn n _
             Hname Hf Hfn Hn Hgen).
  cbn [settle fst snd]. eexists. eexists. exists (with_stats N (Array (map Fin rs)) e).
  exists (INR N * Rsum (map (fun r => r * r) rs) / (Rsum rs * Rsum rs))%R.
  split; [reflexivity|]. cbn [win_dict].
  split; [rewrite lookup_insert_ne by (intros E; now apply Hne);
          apply lookup_insert_eq|].
  split; [cbn [with_stats nenbw]; now rewrite nenbw_fin|].
  subst N. now apply unit_ratio_iff_constant.
Qed.

Lemma unit_nenbw_iff_constant_witness :
  exists s' w e' y,
    get_window test_double 4 None false kaiser_state = (Ok w, s')
    /\ win_dict s' !! "Kaiser" = Some (VEntry e')
    /\ nenbw e' = Some (Fin y)
    /\ (y = 1%R <-> Forall (fun r => r = (Rsum [10; 1; 1; 1] / INR 4)%R)
                           [10; 1; 1; 1]%R).
Proof.
  apply (unit_nenbw_iff_constant test_double kaiser_state
           (mk_state (win_dict kaiser_state)
              (trace kaiser_state ++ [Call kaiser_fn 4 [Fin 10%R] false]))
           4 false None "Kaiser" (kaiser_entry 10)
           (Some kaiser_fn) "kaiser" 1 [10; 1; 1; 1]%R).
  - exists "Kaiser". split; [vm_compute; reflexivity|]. right.
    split; [now left|]. split; [reflexivity|]. exists [].
    split; [vm_compute; reflexivity|]. simpl. lia.
  - discriminate.
  - vm_compute. reflexivity.
  - reflexivity.
  - reflexivity.
  - reflexivity.
  - reflexivity.
  - reflexivity.
  - unfold Rsum. simpl. lra.
Defined.

(** ** The dictionary that [get_windows_dict] builds *)

Lemma lookup_fnct_found (env : environment) (fn wn : string) (n0 : nat)
    (g : fnct) (s : state) :
  function_found env fn g ->
  lookup_fnct env fn wn n0 s
  = (Ok (Some g, wn, n0), mk_state (win_dict s) (trace s ++ [])).
Proof.
  intros [(Hs & Hget)|(mo & a & Hs & Hget)]; unfold lookup_fnct; rewrite Hs.
  - rewrite Hget. unfold ret. now rewrite state_eta.
  - unfold bind, lift. rewrite Hget. unfold ret. now rewrite state_eta.
Qed.

(** X27.  When [get_windows_dict] succeeds.  If the current name is a
    window of the catalogue, is requested (or the request is empty) and
    its function is found, the call returns normally.  The keys of the
    new dictionary are ['cur_win_name'], ['win'] and exactly the valid
    requested names; ['cur_win_name'] is the given name, ['win'] is the
    empty list, and the entry of the current name has its ['fn_name'],
    the function object that was found and, as ['n_par'], the number of
    its parameter records.  (Nothing is said about the parameter values
    and the statistics of the entries, which an earlier use of the
    catalogue may have changed.) *)
Theorem get_windows_dict_selects (env : environment) (names : list string)
    (cur : string) (s : state) (e : entry) (fn : string) (g : fnct) :
  all_windows_dict !! cur = Some (VEntry e) ->
  fn_name e = Some fn ->
  names = [] \/ cur ∈ names ->
  function_found env fn g ->
  exists s' e',
    get_windows_dict env names cur s = (Ok tt, s')
    /\ win_dict s' !! "cur_win_name" = Some (VStr cur)
    /\ win_dict s' !! "win" = Some (VWin (Array []))
    /\ win_dict s' !! cur = Some (VEntry e')
    /\ fn_name e' = Some fn
    /\ win_fnct e' = Some (Some g)
    /\ n_par e' = Some (match par e' with
                        | Some ps => length ps
                        | None => 0
                        end)
    /\ (forall k, is_Some (win_dict s' !! k) <->
          k = "cur_win_name" \/ k = "win"
          \/ ((exists e0, all_windows_dict !! k = Some (VEntry e0)
                          /\ is_Some (fn_name e0))
              /\ (names = [] \/ k ∈ names))).
Proof.
  intros He Hfn Hreq Hfound. unfold get_windows_dict.
  destruct (get_valid_windows_list_run names ∅ s) as (wl & Hrun & _ & Hin).
  assert (Hb : bool_decide ((∅ : gmap string value) = ∅) = true)
    by now apply bool_decide_eq_true_2.
  rewrite Hb in Hin.
  rewrite (bind_ok _ _ _ _ _ Hrun). unfold put_dict at 1. unfold bind at 1 2.
  cbn [win_dict trace].
  set (D := list_to_map _).
  set (tr := _ ++ _).
  assert (HD : forall k, D !! k = if decide (k ∈ wl) then all_windows_dict !! k
                                  else None).
  { intros k. unfold D. rewrite subdictionary_lookup.
    destruct (decide (k ∈ merge_sort key_le wl)) as [H|H];
      rewrite merge_sort_Permutation in H.
    - now rewrite decide_True.
    - now rewrite decide_False. }
  assert (Hvalid : forall k, is_Some (D !! k) <-> k ∈ wl).
  { intros k. rewrite HD. destruct (decide (k ∈ wl)) as [H|H].
    - split; [intros _; exact H|]. intros _.
      apply Hin in H as [(e0 & -> & _) _]. eauto.
    - split; [intros [v Hv]; discriminate|contradiction]. }
  assert (Hcur : cur ∈ wl) by (apply Hin; split; [eauto|exact Hreq]).
  assert (HDcur : D !! cur = Some (VEntry e)).
  { rewrite HD. now rewrite decide_True. }
  assert (Hw : cur <> "win").
  { intros ->. vm_compute in He. discriminate. }
  assert (Hc : cur <> "cur_win_name").
  { intros ->. vm_compute in He. discriminate. }
  rewrite (set_window_name_replay env cur (mk_state D tr) cur [] e fn cur
             (match par e with Some ps => length ps | None => 0 end) e []
             (Some g)); cbn [win_dict trace]; try assumption.
  - eexists. eexists. split; [reflexivity|]. cbn [win_dict].
    split; [now apply selection_dict_cur|].
    split; [now apply selection_dict_win|].
    split; [apply selection_dict_entry|].
    split; [exact Hfn|]. split; [reflexivity|]. split; [reflexivity|].
    intros k. destruct (decide (k = "cur_win_name")) as [->|Hkc].
    { rewrite selection_dict_cur by assumption. split; eauto. }
    destruct (decide (k = "win")) as [->|Hkw].
    { rewrite selection_dict_win by assumption. split; eauto. }
    destruct (decide (k = cur)) as [->|Hk].
    { rewrite selection_dict_entry. split; [|eauto]. intros _.
      right. right. now apply Hin. }
    rewrite selection_dict_other by assumption. rewrite Hvalid, Hin.
    split; [auto|]. intros [H|[H|H]]; [contradiction..|exact H].
  - left. split; [eauto|now split].
  - intros s0. now apply lookup_fnct_found.
Qed.

Lemma get_windows_dict_selects_witness :
  exists s' e',
    get_windows_dict test_double ["Hann"; "Kaiser"] "Kaiser" empty_state
    = (Ok tt, s')
    /\ win_dict s' !! "cur_win_name" = Some (VStr "Kaiser")
    /\ win_dict s' !! "win" = Some (VWin (Array []))
    /\ win_dict s' !! "Kaiser" = Some (VEntry e')
    /\ fn_name e' = Some "kaiser"
    /\ win_fnct e' = Some (Some kaiser_fn)
    /\ n_par e' = Some (match par e' with
                        | Some ps => length ps
                        | None => 0
                        end)
    /\ (forall k, is_Some (win_dict s' !! k) <->
          k = "cur_win_name" \/ k = "win"
          \/ ((exists e0, all_windows_dict !! k = Some (VEntry e0)
                          /\ is_Some (fn_name e0))
              /\ (["Hann"; "Kaiser"] = [] \/ k ∈ ["Hann"; "Kaiser"]))).
Proof.
  apply (get_windows_dict_selects test_double ["Hann"; "Kaiser"] "Kaiser"
           empty_state
           (mk_entry (Some "kaiser") (Some [kaiser_par 10]) None None None None)
           "kaiser" kaiser_fn).
  - vm_compute. reflexivity.
  - reflexivity.
  - right. apply elem_of_cons. right. apply elem_of_cons. now left.
  - left. split; vm_compute; reflexivity.
Defined.
